(** * CloudGuardian: compliance scoring, IAM risk classification, scan cycles
      and the monitoring scheduler

    A shallow embedding of the Python backend:
    - [utils/compliance_framework.py]  ([ComplianceFramework],
                                        [ComplianceControls])
    - [scanners/iam_scanner.py]        ([IamScanner], [IamReview])
    - [scanners/aws_scanner.py]        ([AwsScanner])
    - [scheduler.py]                   ([Scheduler])
    - [app.py], [reports/report_generator.py] ([Surfaces], [Statistics])

    Python dictionaries are finite maps from strings to Python values,
    exceptions are an explicit error result, Python floats are binary64
    numbers (module [Float64]), the SQLAlchemy session is a record holding
    the committed tables and the session's pending view, and the boto3
    clients are an abstract inventory given as data. *)

From Stdlib Require Import PrimFloat FloatOps.
From Stdlib Require Import ZArith QArith Qround Qabs Qpower Lqa Lia.
From stdpp Require Import gmap strings list pretty.

(** ** Python values, exceptions and results *)

Inductive pyval :=
| PStr (s : string)
| PInt (z : Z)
| PBool (b : bool)
| PNone.

#[global] Instance pyval_eq_dec : EqDecision pyval.
Proof. solve_decision. Defined.

Inductive exn :=
| KeyError (key : pyval)
| TypeError (msg : string)
| AttributeError (msg : string)
| ValueError (msg : string)
| ZeroDivisionError
| ClientError (code : string)
| OtherError (msg : string).

Inductive result (A : Type) :=
| Ok (a : A)
| Raise (e : exn).
Arguments Ok {A} a.
Arguments Raise {A} e.

(** Sequencing: an exception in the first computation skips the rest. *)
#[global] Instance result_bind : MBind result := fun A B k r =>
  match r with
  | Ok a => k a
  | Raise e => Raise e
  end.
#[global] Instance result_ret : MRet result := @Ok.

(** [[f(x) for x in l]] where [f] may raise: evaluation is left to right
    and stops at the first exception. *)
Fixpoint mapM {A B} (f : A -> result B) (l : list A) : result (list B) :=
  match l with
  | [] => Ok []
  | a :: l' => b ← f a; bs ← mapM f l'; Ok (b :: bs)
  end.

(** [d[k]] and [d.get(k, dflt)] on a dict with string keys. *)
Definition getitem (d : gmap string pyval) (k : string) : result pyval :=
  match d !! k with
  | Some v => Ok v
  | None => Raise (KeyError (PStr k))
  end.

Definition dict_get (d : gmap string pyval) (k : string) (dflt : pyval) : pyval :=
  default dflt (d !! k).

(** Python truthiness, for [if not x]. *)
Definition truthy (v : pyval) : bool :=
  match v with
  | PStr s => negb (String.eqb s "")
  | PInt z => negb (z =? 0)%Z
  | PBool b => b
  | PNone => false
  end.

(** ** Binary64 arithmetic

    A Python float is an IEEE 754 binary64 number.  A finite float is
    represented by the rational it denotes, in lowest terms, and every
    operation is the exact operation followed by rounding to nearest, ties
    to even, at 53 bits of precision with the minimal exponent -1074.  The
    values handled by this backend are percentages, so the overflow
    threshold is never reached and infinities are left out. *)

Module Float64.
Local Open Scope Q_scope.

Definition pow2 (e : Z) : Q :=
  match e with
  | Z0 => 1
  | Zpos p => inject_Z (2 ^ Zpos p)
  | Zneg p => 1 # (2 ^ p)
  end.

(** Nearest integer, ties to the even one. *)
Definition RNE (q : Q) : Z :=
  let f := Qfloor q in
  match Qcompare (q - inject_Z f) (1 # 2) with
  | Lt => f
  | Gt => (f + 1)%Z
  | Eq => if Z.even f then f else (f + 1)%Z
  end.

(** [floor (log2 q)] for [q > 0]. *)
Definition ilog2 (q : Q) : Z :=
  let e0 := (Z.log2 (Qnum q) - Z.log2 (Zpos (Qden q)))%Z in
  if Qle_bool (pow2 e0) q then e0 else (e0 - 1)%Z.

(** Exponent of the unit in the last place of [q]. *)
Definition ulp_exp (q : Q) : Z := Z.max (ilog2 (Qabs q) - 52) (-1074).

(** Rounding of an exact result to binary64. *)
Definition b64 (q : Q) : Q :=
  if Qeq_bool q 0 then 0
  else Qred (inject_Z (RNE (q / pow2 (ulp_exp q))) * pow2 (ulp_exp q)).

(** [int / int]: true division, correctly rounded. *)
Definition truediv (a b : Z) : result Q :=
  if (b =? 0)%Z then Raise ZeroDivisionError
  else Ok (b64 (inject_Z a / inject_Z b)).

Definition fmul (x y : Q) : Q := b64 (x * y).
Definition fsub (x y : Q) : Q := b64 (x - y).

(** [max(0, x)]: the first argument is kept unless the second is greater. *)
Definition max0 (x : Q) : Q := if Qlt_le_dec 0 x then x else 0.

(** [round(x, 2)]: the decimal with two fractional digits nearest to the
    exact value of [x] (ties to even), converted back to a float. *)
Definition round2 (x : Q) : Q := b64 (inject_Z (RNE (x * 100)) / 100).

(** [2^-45]: no rounding of a value below 256 in magnitude moves it by
    more than this. *)
Definition eps : Q := 1 # 35184372088832.

(** [int(x)]: truncation towards zero. *)
Definition trunc (x : Q) : Z :=
  if Qlt_le_dec x 0 then (- Qfloor (- x))%Z else Qfloor x.

(** The rational denoted by a finite float of the kernel, to compare the
    operations above with the hardware's on sample values. *)
Definition of_prim (f : PrimFloat.float) : option Q :=
  match Prim2SF f with
  | SpecFloat.S754_zero _ => Some 0
  | SpecFloat.S754_finite s m e =>
      Some (Qred ((if s then -1 else 1) * inject_Z (Zpos m) * pow2 e))
  | _ => None
  end.

End Float64.

(** ** utils/compliance_framework.py *)

Module ComplianceFramework.
Import Float64.

Record severity_level := { score : Z; description : string }.

Definition SEVERITY_LEVELS : gmap string severity_level :=
  <["CRITICAL" := {| score := 10;
       description := "Immediate action required - severe security risk" |}]>
  (<["HIGH" := {| score := 7;
       description := "High priority - significant security concern" |}]>
  (<["MEDIUM" := {| score := 4;
       description := "Medium priority - moderate security issue" |}]>
  (<["LOW" := {| score := 2;
       description := "Low priority - minor security consideration" |}]> ∅))).

(** [SEVERITY_LEVELS[v.get('severity', 'LOW')]['score']] *)
Definition severity_score (v : gmap string pyval) : result Z :=
  match dict_get v "severity" (PStr "LOW") with
  | PStr s =>
      match SEVERITY_LEVELS !! s with
      | Some lvl => Ok (score lvl)
      | None => Raise (KeyError (PStr s))
      end
  | k => Raise (KeyError k)
  end.

Definition sum_Z (l : list Z) : Z := fold_left Z.add l 0%Z.

Definition get_compliance_score (violations : list (gmap string pyval)) : result Q :=
  match violations with
  | [] => Ok 100%Q
  | _ =>
      scores ← mapM severity_score violations;
      let total_severity := sum_Z scores in
      let max_possible := (Z.of_nat (length violations) * 10)%Z in
      ratio ← truediv total_severity max_possible;
      let compliance_score := max0 (fsub 100 (fmul ratio 100)) in
      Ok (round2 compliance_score)
  end.

End ComplianceFramework.

(** ** scanners/iam_scanner.py *)

Module IamScanner.

(** High-risk managed policies to flag. *)
Definition RISKY_POLICIES : list string :=
  ["AdministratorAccess"; "PowerUserAccess"; "IAMFullAccess";
   "SecurityAudit"; "*FullAccess"].

(** [needle in hay] on strings: [needle] occurs as a substring. *)
Fixpoint str_contains (needle hay : string) : bool :=
  String.prefix needle hay ||
  match hay with
  | EmptyString => false
  | String _ hay' => str_contains needle hay'
  end.

(** [policy in RISKY_POLICIES] *)
Definition is_risky (policy : string) : bool :=
  bool_decide (policy ∈ RISKY_POLICIES).

(** The first loop of [analyze_risk]: one reason per attached policy that
    is listed as risky or whose name contains [FullAccess]. *)
Fixpoint policy_reasons (attached_policies : list string) : list string :=
  match attached_policies with
  | [] => []
  | policy :: rest =>
      if is_risky policy then
        ("Has " +:+ policy +:+ " policy") :: policy_reasons rest
      else if str_contains "FullAccess" policy then
        ("Has " +:+ policy +:+ " policy") :: policy_reasons rest
      else policy_reasons rest
  end.

Definition analyze_risk (attached_policies inline_policies : list string)
  : string * list string :=
  let risk_reasons := policy_reasons attached_policies in
  let total := length attached_policies + length inline_policies in
  let risk_reasons :=
    if 10 <? total
    then risk_reasons ++ ["Has " +:+ pretty total +:+ " policies (excessive)"]
    else risk_reasons in
  let risk_reasons :=
    if 0 <? length inline_policies
    then risk_reasons ++
         ["Has " +:+ pretty (length inline_policies) +:+ " inline policies"]
    else risk_reasons in
  let risk_level :=
    if bool_decide ("AdministratorAccess" ∈ attached_policies)
       || bool_decide ("IAMFullAccess" ∈ attached_policies)
    then "CRITICAL"
    else if 3 <=? length risk_reasons then "HIGH"
    else if 0 <? length risk_reasons then "MEDIUM"
    else "LOW" in
  (risk_level, risk_reasons).

End IamScanner.

(** ** database/models.py and the SQLAlchemy session

    Column values are Python values ([PNone] is NULL).  A session holds the
    committed tables, which is what every other session reads, and its own
    view with the changes not yet committed.  [commit_log] records each
    state that was ever committed, oldest first. *)

Module Database.

Module ScanResult.
Record t := {
  id : string;
  scan_id : pyval;
  resource_id : pyval;
  resource_type : pyval;
  violation_name : pyval;
  severity : pyval;
  description : pyval;
  remediation_suggestion : pyval;
  compliance_framework : pyval;
  is_compliant : pyval;
  cloud_provider : pyval;
  account_id : pyval;
  region : pyval;
  timestamp : pyval;
  first_detected : pyval;      (* When violation first appeared *)
  status : pyval               (* NEW, EXISTING, RESOLVED *)
}.

(** Columns declared [nullable=False]. *)
Definition not_null (r : t) : bool :=
  forallb (fun v => negb (bool_decide (v = PNone)))
    [resource_id r; resource_type r; violation_name r; severity r;
     description r; remediation_suggestion r; compliance_framework r;
     cloud_provider r; region r].

Definition to_dict (r : t) : gmap string pyval :=
  <["id" := PStr (id r)]>
  (<["scan_id" := scan_id r]>
  (<["resource_id" := resource_id r]>
  (<["resource_type" := resource_type r]>
  (<["violation_name" := violation_name r]>
  (<["severity" := severity r]>
  (<["description" := description r]>
  (<["remediation_suggestion" := remediation_suggestion r]>
  (<["compliance_framework" := compliance_framework r]>
  (<["is_compliant" := is_compliant r]>
  (<["cloud_provider" := cloud_provider r]>
  (<["account_id" := account_id r]>
  (<["region" := region r]>
  (<["timestamp" := timestamp r]>
  (<["first_detected" := first_detected r]>
  (<["status" := status r]> ∅))))))))))))))).
End ScanResult.

Module ScanHistory.
Record t := {
  id : string;
  scan_id : string;
  account_id : pyval;
  region : pyval;
  timestamp : Z;
  total_resources : Z;
  compliant_count : Z;
  violation_count : Z;
  compliance_score : Z;
  critical_count : Z;
  high_count : Z;
  medium_count : Z;
  low_count : Z;
  scan_duration : Z;
  triggered_by : string        (* manual, scheduled, api *)
}.

Definition not_null (h : t) : bool :=
  negb (bool_decide (account_id h = PNone)) &&
  negb (bool_decide (region h = PNone)).
End ScanHistory.

Record Tables := {
  scan_results : list ScanResult.t;
  scan_history : list ScanHistory.t
}.

Record Session := {
  committed : Tables;
  view : Tables;
  commit_log : list Tables;
  uuid_seed : nat              (* source of the [uuid.uuid4()] values *)
}.

(** [str(uuid.uuid4())]: a value never handed out before. *)
Definition uuid4 (seed : nat) : string := "uuid-" +:+ pretty seed.

Definition open_session (tb : Tables) (seed : nat) : Session :=
  {| committed := tb; view := tb; commit_log := []; uuid_seed := seed |}.

(** A column declared with [default=...]: the ORM leaves an attribute that
    is [None] out of the INSERT, so the default is what is stored. *)
Definition column_default (dflt v : pyval) : pyval :=
  if bool_decide (v = PNone) then dflt else v.

(** [db.add(ScanResult(...))]: the primary key defaults to a fresh uuid. *)
Definition add_result (mk : string -> ScanResult.t) (db : Session) : Session :=
  {| committed := committed db;
     view := {| scan_results := scan_results (view db) ++ [mk (uuid4 (uuid_seed db))];
                scan_history := scan_history (view db) |};
     commit_log := commit_log db;
     uuid_seed := S (uuid_seed db) |}.

Definition add_history (mk : string -> ScanHistory.t) (db : Session) : Session :=
  {| committed := committed db;
     view := {| scan_results := scan_results (view db);
                scan_history := scan_history (view db) ++ [mk (uuid4 (uuid_seed db))] |};
     commit_log := commit_log db;
     uuid_seed := S (uuid_seed db) |}.

Definition fresh_uuid (db : Session) : string * Session :=
  (uuid4 (uuid_seed db),
   {| committed := committed db; view := view db;
      commit_log := commit_log db; uuid_seed := S (uuid_seed db) |}).

(** [for r in rows: db.delete(r)] for the rows selected by [sel]. *)
Definition delete_results (sel : ScanResult.t -> bool) (db : Session) : Session :=
  {| committed := committed db;
     view := {| scan_results := filter (fun r => sel r = false) (scan_results (view db));
                scan_history := scan_history (view db) |};
     commit_log := commit_log db;
     uuid_seed := uuid_seed db |}.

Definition rollback (db : Session) : Session :=
  {| committed := committed db; view := committed db;
     commit_log := commit_log db; uuid_seed := uuid_seed db |}.

(** The flush of a commit is refused when a NOT NULL column is NULL or two
    history rows carry the same [scan_id] (declared unique). *)
Definition constraints_ok (tb : Tables) : bool :=
  forallb ScanResult.not_null (scan_results tb) &&
  forallb ScanHistory.not_null (scan_history tb) &&
  bool_decide (NoDup (map ScanHistory.scan_id (scan_history tb))).

Definition commit (db : Session) : result Session :=
  if constraints_ok (view db) then
    Ok {| committed := view db; view := view db;
          commit_log := commit_log db ++ [view db];
          uuid_seed := uuid_seed db |}
  else Raise (OtherError "IntegrityError").

End Database.

(** ** scanners/aws_scanner.py *)

Module AwsScanner.
Import Database.

(** *** What the boto3 clients answer

    The cloud provider is outside the program: each client call is given
    by its outcome, a response or the exception it raises. *)

Record ip_permission := {
  FromPort : option Z;
  ToPort : option Z;
  IpProtocol : option string;
  IpRanges : option (list (option string))    (* the [CidrIp] of each range *)
}.

Record security_group := {
  GroupId : string;
  GroupName : string;
  IpPermissions : list ip_permission
}.

Record trail := { Name : string; TrailARN : string }.

Record db_instance := {
  DBInstanceIdentifier : string;
  StorageEncrypted : option bool;
  PubliclyAccessible : option bool
}.

Record Inventory := {
  (* s3: the bucket names; whether the answer has the key
     'ServerSideEncryptionConfiguration' *)
  list_buckets : result (list string);
  get_bucket_encryption : string -> result bool;
  (* iam: the pages of user names; the attached policy names *)
  list_users_pages : list (result (list string));
  list_attached_user_policies : string -> result (list string);
  describe_security_groups : result (list security_group);
  describe_trails : result (list trail);
  get_trail_status : string -> result (option bool);    (* 'IsLogging' *)
  describe_db_instances : result (list db_instance)
}.

Record AWSScanner := {
  account_id : string;
  region : string;
  clients : Inventory
}.

(** [AWSScanner.__init__(self, account_id, region)].  [boto3.client] builds
    a client without looking for credentials, so the handler of
    [NoCredentialsError] is never entered: missing credentials show when a
    client is called, as the exception that call raises. *)
Definition new_scanner (inv : Inventory) (account_id region : string)
  : result AWSScanner :=
  Ok {| account_id := account_id; region := region; clients := inv |}.

Definition dq : string := String (Ascii.ascii_of_nat 34) EmptyString.
Definition nl : string := String (Ascii.ascii_of_nat 10) EmptyString.

(** A violation dictionary as the checkers build it. *)
Definition violation (resource_id resource_type violation_name severity
    description remediation compliance_framework : string) : gmap string pyval :=
  <["resource_id" := PStr resource_id]>
  (<["resource_type" := PStr resource_type]>
  (<["violation_name" := PStr violation_name]>
  (<["severity" := PStr severity]>
  (<["description" := PStr description]>
  (<["remediation" := PStr remediation]>
  (<["compliance_framework" := PStr compliance_framework]> ∅)))))).

(** A loop inside a [try] block whose handler keeps the list built so far:
    [body] returns what the item appended and the exception that escaped
    it, if any; the loop stops at the first escaping exception. *)
Fixpoint try_each {A V} (body : A -> list V * option exn) (l : list A)
  : list V * option exn :=
  match l with
  | [] => ([], None)
  | a :: l' =>
      match body a with
      | (vs, Some e) => (vs, Some e)
      | (vs, None) => let '(ws, r) := try_each body l' in (vs ++ ws, r)
      end
  end.

Definition sse_rules : string :=
  "{" +:+ dq +:+ "Rules" +:+ dq +:+ ": [{" +:+ dq +:+
  "ApplyServerSideEncryptionByDefault" +:+ dq +:+ ": {" +:+ dq +:+
  "SSEAlgorithm" +:+ dq +:+ ": " +:+ dq +:+ "AES256" +:+ dq +:+ "}}]}".

(** The body of the loop over the buckets.  When [get_bucket_encryption]
    raises, Python evaluates the expression of the first [except] clause,
    [self.s3_client.exceptions.ServerSideEncryptionConfigurationNotFoundError].
    The exceptions of the S3 client are those of its service model, which
    has none of that name (the error comes as a [ClientError] with that
    code), so the lookup raises [AttributeError]; raised while the clauses
    are matched, it leaves the inner [try] whatever the first exception
    was, and the handler of the outer [try] ends the check. *)
Definition s3_bucket_check (inv : Inventory) (bucket_name : string)
  : list (gmap string pyval) * option exn :=
  match get_bucket_encryption inv bucket_name with
  | Ok has_configuration =>
      if has_configuration then ([], None)
      else ([violation bucket_name "S3 Bucket" "Unencrypted S3 Bucket" "HIGH"
               ("S3 bucket " +:+ dq +:+ bucket_name +:+ dq +:+
                " does not have encryption enabled")
               ("Enable default S3 bucket encryption:" +:+ nl +:+ nl +:+
                "aws s3api put-bucket-encryption --bucket " +:+ bucket_name +:+
                " --server-side-encryption-configuration '" +:+ sse_rules +:+ "'")
               "NIST SP 800-53 SC-28"], None)
  | Raise _ =>
      ([], Some (AttributeError
         "ServerSideEncryptionConfigurationNotFoundError"))
  end.

Definition scan_s3_encryption (self : AWSScanner) : list (gmap string pyval) :=
  match list_buckets (clients self) with
  | Ok buckets => fst (try_each (s3_bucket_check (clients self)) buckets)
  | Raise _ => []
  end.

Definition iam_user_check (inv : Inventory) (username : string)
  : list (gmap string pyval) * option exn :=
  match list_attached_user_policies inv username with
  | Ok policies =>
      (flat_map (fun policy_name =>
         if bool_decide (policy_name ∈ ["AdministratorAccess"; "PowerUserAccess"])
         then [violation username "IAM User" "Overly Permissive IAM Policy"
                 "CRITICAL"
                 ("IAM user " +:+ dq +:+ username +:+ dq +:+ " has " +:+
                  policy_name +:+
                  " policy attached, violating least privilege principle")
                 ("Review and apply principle of least privilege:" +:+ nl +:+ nl +:+
                  "1. Identify minimum required permissions for " +:+ dq +:+
                  username +:+ dq +:+ nl +:+
                  "2. Create custom policy with specific permissions" +:+ nl +:+
                  "3. Detach " +:+ policy_name +:+ " policy" +:+ nl +:+
                  "4. Attach new restricted policy")
                 "NIST SP 800-53 AC-6"]
         else []) policies, None)
  | Raise (ClientError _) => ([], None)
  | Raise e => ([], Some e)
  end.

Definition scan_iam_policies (self : AWSScanner) : list (gmap string pyval) :=
  fst (try_each
         (fun page =>
            match page with
            | Ok users => try_each (iam_user_check (clients self)) users
            | Raise e => ([], Some e)
            end)
         (list_users_pages (clients self))).

Definition sg_rule_check (sg : security_group) (rule : ip_permission)
  : list (gmap string pyval) :=
  flat_map (fun cidr_ip =>
    if bool_decide (cidr_ip = Some "0.0.0.0/0") then
      let port_info :=
        match FromPort rule with
        | None | Some 0%Z => "all ports"
        | Some port => "port " +:+ pretty port
        end in
      let protocol := default "all" (IpProtocol rule) in
      [violation (GroupId sg) "Security Group" "Unrestricted Inbound Access" "HIGH"
         ("Security group " +:+ dq +:+ GroupName sg +:+ dq +:+ " (" +:+
          GroupId sg +:+
          ") allows unrestricted inbound traffic from 0.0.0.0/0 on " +:+
          port_info +:+ " (" +:+ protocol +:+ " protocol)")
         ("Restrict access to specific IP ranges:" +:+ nl +:+ nl +:+
          "1. Review legitimate IP addresses that need access" +:+ nl +:+
          "2. Remove 0.0.0.0/0 rule" +:+ nl +:+
          "3. Add specific CIDR blocks:" +:+ nl +:+ nl +:+
          "aws ec2 revoke-security-group-ingress --group-id " +:+ GroupId sg +:+
          " --ip-permissions IpProtocol=" +:+ protocol +:+
          ",FromPort=" +:+ pretty (default 0%Z (FromPort rule)) +:+
          ",ToPort=" +:+ pretty (default 0%Z (ToPort rule)) +:+
          ",IpRanges=[{CidrIp=0.0.0.0/0}]")
         "NIST SP 800-53 SC-7"]
    else []) (default [] (IpRanges rule)).

Definition scan_security_groups (self : AWSScanner) : list (gmap string pyval) :=
  match describe_security_groups (clients self) with
  | Ok groups =>
      flat_map (fun sg => flat_map (sg_rule_check sg) (IpPermissions sg)) groups
  | Raise _ => []
  end.

Definition trail_check (inv : Inventory) (t : trail)
  : list (gmap string pyval) * option exn :=
  match get_trail_status inv (TrailARN t) with
  | Ok is_logging =>
      if default false is_logging then ([], None)
      else ([violation (Name t) "CloudTrail" "CloudTrail Not Logging" "HIGH"
               ("CloudTrail " +:+ dq +:+ Name t +:+ dq +:+
                " exists but is not actively logging")
               ("Enable logging for CloudTrail:" +:+ nl +:+ nl +:+
                "aws cloudtrail start-logging --name " +:+ Name t)
               "ISO 27001 A.12.4.1"], None)
  | Raise e => ([], Some e)
  end.

Definition scan_cloudtrail_logging (self : AWSScanner) : list (gmap string pyval) :=
  match describe_trails (clients self) with
  | Ok [] =>
      [violation ("account-" +:+ account_id self) "CloudTrail"
         "CloudTrail Not Enabled" "CRITICAL"
         ("No CloudTrail logging trails found in account " +:+ account_id self +:+
          ", region " +:+ region self +:+
          ". Audit logging is required for compliance.")
         ("Enable CloudTrail to log API calls and activities:" +:+ nl +:+ nl +:+
          "1. Navigate to CloudTrail console" +:+ nl +:+
          "2. Create a new trail" +:+ nl +:+
          "3. Enable logging for all regions" +:+ nl +:+
          "4. Configure S3 bucket for log storage" +:+ nl +:+
          "5. Or use CLI:" +:+ nl +:+ nl +:+
          "aws cloudtrail create-trail --name my-trail --s3-bucket-name my-bucket")
         "NIST SP 800-53 AU-2"]
  | Ok trail_list => fst (try_each (trail_check (clients self)) trail_list)
  | Raise _ => []
  end.

Definition rds_instance_check (db_instance : db_instance)
  : list (gmap string pyval) :=
  let db_id := DBInstanceIdentifier db_instance in
  (if default false (StorageEncrypted db_instance) then []
   else [violation db_id "RDS Instance" "Unencrypted RDS Instance" "CRITICAL"
           ("RDS instance " +:+ dq +:+ db_id +:+ dq +:+
            " does not have encryption at rest enabled")
           ("Enable encryption for RDS:" +:+ nl +:+ nl +:+
            "1. Create snapshot of current instance" +:+ nl +:+
            "2. Copy snapshot with encryption enabled" +:+ nl +:+
            "3. Restore from encrypted snapshot" +:+ nl +:+
            "4. Update application connection strings" +:+ nl +:+ nl +:+
            "Note: Cannot enable encryption on existing instance directly.")
           "NIST SP 800-53 SC-28"]) ++
  (if default false (PubliclyAccessible db_instance)
   then [violation db_id "RDS Instance" "Publicly Accessible RDS Instance"
           "CRITICAL"
           ("RDS instance " +:+ dq +:+ db_id +:+ dq +:+
            " is publicly accessible from the internet")
           ("Disable public accessibility:" +:+ nl +:+ nl +:+
            "aws rds modify-db-instance --db-instance-identifier " +:+ db_id +:+
            " --no-publicly-accessible")
           "NIST SP 800-53 SC-7"]
   else []).

Definition scan_rds_encryption (self : AWSScanner) : list (gmap string pyval) :=
  match describe_db_instances (clients self) with
  | Ok instances => flat_map rds_instance_check instances
  | Raise _ => []
  end.

(** *** [scan_all_resources] *)

(** The rows of this scanner's account and region. *)
Definition in_scope (self : AWSScanner) (r : ScanResult.t) : bool :=
  bool_decide (ScanResult.account_id r = PStr (account_id self)) &&
  bool_decide (ScanResult.region r = PStr (region self)).

(** Clear old scan results for this account/region.  [clear_raises] tells
    whether the database refuses the query or the deletion; the handler
    rolls back and the scan goes on. *)
Definition clear_old_results (self : AWSScanner) (clear_raises : bool)
    (db : Session) : Session :=
  if clear_raises then rollback db
  else match commit (delete_results (in_scope self) db) with
       | Ok db' => db'
       | Raise _ => rollback db
       end.

(** Run all scanners. *)
Definition all_violations (self : AWSScanner) : list (gmap string pyval) :=
  scan_s3_encryption self ++ scan_iam_policies self ++
  scan_security_groups self ++ scan_cloudtrail_logging self ++
  scan_rds_encryption self.

(** [ScanResult(resource_id=violation['resource_id'], ...)]; the columns
    not given take their defaults: no [scan_id], no [first_detected],
    status NEW.  [now] is the reading of [datetime.utcnow()]. *)
Definition scan_result_of (self : AWSScanner) (now : Z)
    (violation : gmap string pyval) : result (string -> ScanResult.t) :=
  resource_id ← getitem violation "resource_id";
  resource_type ← getitem violation "resource_type";
  violation_name ← getitem violation "violation_name";
  severity ← getitem violation "severity";
  description ← getitem violation "description";
  remediation ← getitem violation "remediation";
  compliance_framework ← getitem violation "compliance_framework";
  Ok (fun id =>
    {| ScanResult.id := id;
       ScanResult.scan_id := PNone;
       ScanResult.resource_id := resource_id;
       ScanResult.resource_type := resource_type;
       ScanResult.violation_name := violation_name;
       ScanResult.severity := severity;
       ScanResult.description := description;
       ScanResult.remediation_suggestion := remediation;
       ScanResult.compliance_framework := compliance_framework;
       ScanResult.is_compliant := PBool false;
       ScanResult.cloud_provider := PStr "AWS";
       ScanResult.account_id := PStr (account_id self);
       ScanResult.region := PStr (region self);
       ScanResult.timestamp := PInt now;
       ScanResult.first_detected := PNone;
       ScanResult.status := PStr "NEW" |}).

(** Save to database: one [db.add] per violation. *)
Fixpoint save_violations (self : AWSScanner) (now : Z)
    (violations : list (gmap string pyval)) (db : Session) : result Session :=
  match violations with
  | [] => Ok db
  | violation :: rest =>
      mk ← scan_result_of self now violation;
      save_violations self now rest (add_result mk db)
  end.

Definition scan_all_resources (self : AWSScanner) (clear_raises : bool)
    (now : Z) (db : Session) : result Session :=
  let db := clear_old_results self clear_raises db in
  db ← save_violations self now (all_violations self) db;
  commit db.

End AwsScanner.

(** ** scheduler.py *)

Module Scheduler.
Import Database Float64.

Record MonitoringConfig := {
  enabled : bool;
  interval_hours : Z;
  accounts : list (gmap string pyval)   (* {account_id, region, access_key, secret_key} *)
}.

Definition DEFAULT_CONFIG : MonitoringConfig :=
  {| enabled := false; interval_hours := 24; accounts := [] |}.

Record Job := { job_id : string; job_name : string; trigger_hours : Z }.

(** The process state the scheduler module works on: the configuration
    file ([None] when it is missing or unreadable), whether it can be
    written, the jobs of the background scheduler, the database and the
    wall clock in seconds. *)
Record World := {
  config_file : option MonitoringConfig;
  config_writable : bool;
  jobs : list Job;
  store : Session;
  clock : Z
}.

Definition set_jobs (js : list Job) (w : World) : World :=
  {| config_file := config_file w; config_writable := config_writable w;
     jobs := js; store := store w; clock := clock w |}.

Definition set_store (db : Session) (t : Z) (w : World) : World :=
  {| config_file := config_file w; config_writable := config_writable w;
     jobs := jobs w; store := db; clock := t |}.

Definition load_config (w : World) : MonitoringConfig :=
  default DEFAULT_CONFIG (config_file w).

Definition save_config (config : MonitoringConfig) (w : World) : bool * World :=
  if config_writable w then
    (true, {| config_file := Some config; config_writable := true;
              jobs := jobs w; store := store w; clock := clock w |})
  else (false, w).

Section ScheduledScan.

(** [AWSScanner(account_id=..., region=..., access_key=..., secret_key=...)]
    followed by [scanner.scan_all()], for one configured account: the
    result dictionaries or the exception raised; and the seconds the call
    takes. *)
Variable run_scanner : gmap string pyval -> result (list (gmap string pyval)).
Variable elapsed : gmap string pyval -> Z.

(** Save results with scan_id. *)
Definition scheduled_result_of (scan_id : string) (account_id region : pyval)
    (now : Z) (r : gmap string pyval) : result (string -> ScanResult.t) :=
  resource_id ← getitem r "resource_id";
  resource_type ← getitem r "resource_type";
  violation_name ← getitem r "violation_name";
  severity ← getitem r "severity";
  description ← getitem r "description";
  remediation_suggestion ← getitem r "remediation_suggestion";
  compliance_framework ← getitem r "compliance_framework";
  is_compliant ← getitem r "is_compliant";
  Ok (fun id =>
    {| ScanResult.id := id;
       ScanResult.scan_id := PStr scan_id;
       ScanResult.resource_id := resource_id;
       ScanResult.resource_type := resource_type;
       ScanResult.violation_name := violation_name;
       ScanResult.severity := severity;
       ScanResult.description := description;
       ScanResult.remediation_suggestion := remediation_suggestion;
       ScanResult.compliance_framework := compliance_framework;
       ScanResult.is_compliant := column_default (PBool true) is_compliant;
       ScanResult.cloud_provider := PStr "AWS";
       ScanResult.account_id := account_id;
       ScanResult.region := region;
       ScanResult.timestamp := PInt now;
       ScanResult.first_detected := PInt now;
       ScanResult.status := PStr "NEW" |}).

Fixpoint save_results (scan_id : string) (account_id region : pyval) (now : Z)
    (results : list (gmap string pyval)) (db : Session) : result Session :=
  match results with
  | [] => Ok db
  | r :: rest =>
      mk ← scheduled_result_of scan_id account_id region now r;
      save_results scan_id account_id region now rest (add_result mk db)
  end.

(** [[r for r in results if not r["is_compliant"]]] *)
Fixpoint non_compliant (results : list (gmap string pyval))
  : result (list (gmap string pyval)) :=
  match results with
  | [] => Ok []
  | r :: rest =>
      c ← getitem r "is_compliant";
      vs ← non_compliant rest;
      Ok (if truthy c then vs else r :: vs)
  end.

(** Count by severity: the dictionary starts with the four names at 0 and
    each violation adds one under its own severity.  A severity that is not
    a string opens a key that none of the four names can meet and is left
    out of the map. *)
Definition count_severity (counts : gmap string Z) (v : gmap string pyval)
  : gmap string Z :=
  match dict_get v "severity" (PStr "LOW") with
  | PStr severity => <[severity := (default 0 (counts !! severity) + 1)%Z]> counts
  | _ => counts
  end.

Definition severity_counts (violations : list (gmap string pyval)) : gmap string Z :=
  fold_left count_severity violations
    (<["CRITICAL" := 0%Z]> (<["HIGH" := 0%Z]>
     (<["MEDIUM" := 0%Z]> (<["LOW" := 0%Z]> ∅)))).

(** [int((compliant_count / total_resources * 100)) if total_resources > 0 else 100] *)
Definition history_score (compliant_count total_resources : Z) : result Z :=
  if (0 <? total_resources)%Z then
    ratio ← truediv compliant_count total_resources;
    Ok (trunc (fmul ratio 100))
  else Ok 100%Z.

(** The body of the loop over the configured accounts. *)
Definition scan_account (account : gmap string pyval) (st : Session * Z)
  : result (Session * Z) :=
  let '(db, now) := st in
  let '(scan_id, db) := fresh_uuid db in
  let account_id := dict_get account "account_id" PNone in
  let region := dict_get account "region" PNone in
  let start_time := now in
  results ← run_scanner account;
  let now := (now + elapsed account)%Z in
  let scan_duration := (now - start_time)%Z in
  db ← save_results scan_id account_id region now results db;
  let total_resources := Z.of_nat (length results) in
  violations ← non_compliant results;
  let violation_count := Z.of_nat (length violations) in
  let compliant_count := (total_resources - violation_count)%Z in
  compliance_score ← history_score compliant_count total_resources;
  let counts := severity_counts violations in
  let history := fun id =>
    {| ScanHistory.id := id;
       ScanHistory.scan_id := scan_id;
       ScanHistory.account_id := account_id;
       ScanHistory.region := region;
       ScanHistory.timestamp := now;
       ScanHistory.total_resources := total_resources;
       ScanHistory.compliant_count := compliant_count;
       ScanHistory.violation_count := violation_count;
       ScanHistory.compliance_score := compliance_score;
       ScanHistory.critical_count := default 0%Z (counts !! "CRITICAL");
       ScanHistory.high_count := default 0%Z (counts !! "HIGH");
       ScanHistory.medium_count := default 0%Z (counts !! "MEDIUM");
       ScanHistory.low_count := default 0%Z (counts !! "LOW");
       ScanHistory.scan_duration := scan_duration;
       ScanHistory.triggered_by := "scheduled" |} in
  db ← commit (add_history history db);
  Ok (db, now).

(** [try: for account in accounts: ... except Exception: db.rollback()].
    The handler is outside the loop: the first exception ends the loop.
    Nothing an iteration does before its final commit is committed, so the
    rollback gives back the session as it was when the iteration began. *)
Fixpoint scan_accounts (accounts : list (gmap string pyval)) (st : Session * Z)
  : Session * Z :=
  match accounts with
  | [] => st
  | account :: rest =>
      match scan_account account st with
      | Ok st' => scan_accounts rest st'
      | Raise _ => (rollback (fst st), snd st)
      end
  end.

(** The targets the loop reaches, in order: those for which it logs
    [Scanning account ... in ...]. *)
Fixpoint targets_reached (accounts : list (gmap string pyval)) (st : Session * Z)
  : list (gmap string pyval) :=
  match accounts with
  | [] => []
  | account :: rest =>
      account ::
      match scan_account account st with
      | Ok st' => targets_reached rest st'
      | Raise _ => []
      end
  end.

Definition scheduled_scan_job (w : World) : World :=
  let config := load_config w in
  if negb (enabled config) then w
  else match accounts config with
       | [] => w
       | accounts =>
           let db := rollback (store w) in       (* SessionLocal() *)
           let '(db, now) := scan_accounts accounts (db, clock w) in
           set_store (rollback db) now w         (* db.close() *)
       end.

End ScheduledScan.

(** Binding the keyword arguments of a call to the parameters of the
    function called: the first keyword that is no parameter is refused. *)
Definition bind_keywords (parameters keywords : list string) : result unit :=
  match filter (fun k => k ∉ parameters) keywords with
  | [] => Ok tt
  | k :: _ =>
      Raise (TypeError
        ("__init__() got an unexpected keyword argument '" +:+ k +:+ "'"))
  end.

(** What the call made by [scheduled_scan_job] does with the [AWSScanner]
    of [scanners/aws_scanner.py]: its [__init__] takes [account_id] and
    [region], the call passes [access_key] and [secret_key] as well; and the
    class has no method [scan_all]. *)
Definition aws_scanner_call (account : gmap string pyval)
  : result (list (gmap string pyval)) :=
  _ ← bind_keywords ["account_id"; "region"]
        ["account_id"; "region"; "access_key"; "secret_key"];
  Raise (AttributeError "'AWSScanner' object has no attribute 'scan_all'").

Section Configure.

(** [IntervalTrigger(hours=interval_hours)] of APScheduler: the trigger's
    period in hours, or the exception its constructor raises. *)
Variable IntervalTrigger : Z -> result Z.

Definition configure_monitoring (enabled : bool) (interval_hours : Z)
    (accounts : option (list (gmap string pyval))) (w : World)
  : result MonitoringConfig * World :=
  let config := load_config w in
  let config :=
    {| Scheduler.enabled := enabled;
       Scheduler.interval_hours := interval_hours;
       Scheduler.accounts := default (Scheduler.accounts config) accounts |} in
  (* Remove existing jobs *)
  let w := set_jobs [] w in
  (* Add new job if enabled *)
  let added :=
    if enabled then
      trigger ← IntervalTrigger interval_hours;
      Ok (set_jobs [{| job_id := "compliance_scan";
                       job_name := "Automated Compliance Scan";
                       trigger_hours := trigger |}] w)
    else Ok w in
  match added with
  | Ok w => (Ok config, snd (save_config config w))
  | Raise e => (Raise e, w)
  end.

Definition stop_monitoring (w : World) : World :=
  let config := load_config w in
  let config :=
    {| Scheduler.enabled := false;
       Scheduler.interval_hours := Scheduler.interval_hours config;
       Scheduler.accounts := Scheduler.accounts config |} in
  set_jobs [] (snd (save_config config w)).

Definition start_monitoring (w : World) : result MonitoringConfig * World :=
  let config := load_config w in
  configure_monitoring true (Scheduler.interval_hours config)
    (Some (Scheduler.accounts config)) w.

End Configure.

End Scheduler.

(** ** app.py and reports/report_generator.py: where scores are shown *)

Module Surfaces.
Import Database Float64.

(** [sum(1 for v in violations if v.is_compliant)] *)
Definition count_compliant (rows : list ScanResult.t) : Z :=
  Z.of_nat (length (filter (fun v => truthy (ScanResult.is_compliant v) = true) rows)).

(** [GET /api/dashboard]: the field [compliance_score] of the answer,
    [round((compliant_resources / total_resources * 100)
           if total_resources > 0 else 100, 2)]. *)
Definition get_dashboard_score (tb : Tables) : result Q :=
  let violations := scan_results tb in
  let total_resources := Z.of_nat (length violations) in
  let compliant_resources := count_compliant violations in
  if (0 <? total_resources)%Z then
    ratio ← truediv compliant_resources total_resources;
    Ok (round2 (fmul ratio 100))
  else Ok 100%Q.

(** [f"{x:.1f}"]: the decimal numeral with one digit after the point that
    is nearest to the float, ties to the even digit.  (The scores formatted
    here are never the float [-0.0].) *)
Definition format_1f (x : Q) : string :=
  let tenths := RNE (Qabs x * 10)%Q in
  (if Qle_bool 0%Q x then "" else "-") +:+
  pretty (tenths / 10)%Z +:+ "." +:+ pretty (tenths mod 10)%Z.

(** [ReportGenerator.generate_pdf], Executive Summary, on the rows [results]
    that its query returned: the value of the local [compliance_score]. *)
Definition generate_pdf_score (results : list ScanResult.t) : result Q :=
  match results with
  | [] => Raise (ValueError "No scan results found")
  | _ =>
      let total := Z.of_nat (length results) in
      let violations :=
        filter (fun r => truthy (ScanResult.is_compliant r) = false) results in
      let compliant := (total - Z.of_nat (length violations))%Z in
      if (0 <? total)%Z then
        ratio ← truediv compliant total;
        Ok (fmul ratio 100)
      else Ok 0%Q
  end.

(** The cell beside "Compliance Score" in the summary table of the report,
    [f"{compliance_score:.1f}%"]. *)
Definition generate_pdf_summary (results : list ScanResult.t) : result string :=
  compliance_score ← generate_pdf_score results;
  Ok (format_1f compliance_score +:+ "%").

(** [POST /api/scan/aws]: the scanner is built while the request is
    served; the scan itself runs as a background task on success. *)
Definition scan_aws (inv : AwsScanner.Inventory) (account_id region : string)
    (clear_raises : bool) (now : Z) (db : Session) : result Session :=
  scanner ← AwsScanner.new_scanner inv account_id region;
  AwsScanner.scan_all_resources scanner clear_raises now db.

Section ConfigureEndpoint.
Variable IntervalTrigger : Z -> result Z.

(** [POST /api/monitoring/configure]: build accounts list if account
    provided, then call the scheduler. *)
Definition post_monitoring_configure (enabled : bool) (interval_hours : Z)
    (account_id region : option string) (w : Scheduler.World)
  : result Scheduler.MonitoringConfig * Scheduler.World :=
  let accounts :=
    match account_id, region with
    | Some a, Some r =>
        if negb (String.eqb a "") && negb (String.eqb r "")
        then [ <["account_id" := PStr a]> (<["region" := PStr r]>
               (<["access_key" := PNone]> (<["secret_key" := PNone]> ∅))) ]
        else []
    | _, _ => []
    end in
  Scheduler.configure_monitoring IntervalTrigger enabled interval_hours
    (Some accounts) w.
End ConfigureEndpoint.

End Surfaces.

(** ** The specification's wording of the two scores *)

Module Spec.
Import Float64.

(** CRITICAL=10, HIGH=7, MEDIUM=4, LOW=2; an unknown or missing severity
    weighs as LOW. *)
Definition weight (v : gmap string pyval) : Z :=
  match v !! "severity" with
  | Some (PStr s) =>
      if decide (s = "CRITICAL") then 10
      else if decide (s = "HIGH") then 7
      else if decide (s = "MEDIUM") then 4
      else 2
  | _ => 2
  end.

Definition sum_weights (violations : list (gmap string pyval)) : Z :=
  foldr (fun v acc => (weight v + acc)%Z) 0%Z violations.

(** Empty set: 100.0; else
    [max(0, 100 − (Σ weights / (count(violations) × 10)) × 100)],
    rounded to 2 decimal places. *)
Definition score (violations : list (gmap string pyval)) : Q :=
  match violations with
  | [] => 100%Q
  | _ =>
      let count := Z.of_nat (length violations) in
      round2 (max0 (fsub 100
        (fmul (b64 (inject_Z (sum_weights violations) / inject_Z (count * 10))) 100)))
  end.

(** Coverage score: compliant_count / total_resources × 100. *)
Definition coverage (compliant_count total_resources : Z) : Q :=
  fmul (b64 (inject_Z compliant_count / inject_Z total_resources)) 100.

End Spec.

(** ** Vocabulary of the statements *)

Module Props.
Import Database.

(** The severity of a violation when it is present but is not one of the
    four names of [SEVERITY_LEVELS]. *)
Definition unknown_severity (v : gmap string pyval) : option pyval :=
  match v !! "severity" with
  | Some (PStr s) =>
      if bool_decide (s ∈ ["CRITICAL"; "HIGH"; "MEDIUM"; "LOW"])
      then None else Some (PStr s)
  | Some k => Some k
  | None => None
  end.

Fixpoint first_unknown (violations : list (gmap string pyval)) : option pyval :=
  match violations with
  | [] => None
  | v :: rest =>
      match unknown_severity v with
      | Some k => Some k
      | None => first_unknown rest
      end
  end.

(** The hard override of the IAM classifier: AdministratorAccess or
    IAMFullAccess is attached. *)
Definition overridden (attached : list string) : Prop :=
  "AdministratorAccess" ∈ attached ∨ "IAMFullAccess" ∈ attached.

(** The stored violations of a scope. *)
Definition scope_rows (account_id region : string) (tb : Tables)
  : list ScanResult.t :=
  filter (fun r => ScanResult.account_id r = PStr account_id ∧
                   ScanResult.region r = PStr region) (scan_results tb).

(** The rows of every other scope. *)
Definition other_rows (account_id region : string) (tb : Tables)
  : list ScanResult.t :=
  filter (fun r => ¬ (ScanResult.account_id r = PStr account_id ∧
                      ScanResult.region r = PStr region)) (scan_results tb).

(** Violation identity: resource_id + violation_name. *)
Definition identity (r : ScanResult.t) : pyval * pyval :=
  (ScanResult.resource_id r, ScanResult.violation_name r).

(** A dictionary built by [AwsScanner.violation]. *)
Definition is_violation (v : gmap string pyval) : Prop :=
  ∃ resource_id resource_type violation_name severity description
    remediation compliance_framework,
    v = AwsScanner.violation resource_id resource_type violation_name severity
          description remediation compliance_framework.

(** Row [r] is what [scan_all_resources] stores for the violation [v] found
    by the scanner [self] at time [now]. *)
Definition stored_as (self : AwsScanner.AWSScanner) (now : Z)
    (v : gmap string pyval) (r : ScanResult.t) : Prop :=
  v !! "resource_id" = Some (ScanResult.resource_id r) ∧
  v !! "resource_type" = Some (ScanResult.resource_type r) ∧
  v !! "violation_name" = Some (ScanResult.violation_name r) ∧
  v !! "severity" = Some (ScanResult.severity r) ∧
  v !! "description" = Some (ScanResult.description r) ∧
  v !! "remediation" = Some (ScanResult.remediation_suggestion r) ∧
  v !! "compliance_framework" = Some (ScanResult.compliance_framework r) ∧
  ScanResult.is_compliant r = PBool false ∧
  ScanResult.account_id r = PStr (AwsScanner.account_id self) ∧
  ScanResult.region r = PStr (AwsScanner.region self) ∧
  ScanResult.timestamp r = PInt now ∧
  ScanResult.scan_id r = PNone ∧
  ScanResult.first_detected r = PNone ∧
  ScanResult.status r = PStr "NEW".

(** The tables once the rows of the scanner's scope are deleted. *)
Definition cleared_tables (self : AwsScanner.AWSScanner) (tb : Tables) : Tables :=
  {| scan_results :=
       filter (λ r, AwsScanner.in_scope self r = false) (scan_results tb);
     scan_history := scan_history tb |}.

(** Every inventory call made once per category raises. *)
Definition whole_scope_fetch_fails (inv : AwsScanner.Inventory) : Prop :=
  (∃ e, AwsScanner.list_buckets inv = Raise e) ∧
  (∃ e rest, AwsScanner.list_users_pages inv = Raise e :: rest) ∧
  (∃ e, AwsScanner.describe_security_groups inv = Raise e) ∧
  (∃ e, AwsScanner.describe_trails inv = Raise e) ∧
  (∃ e, AwsScanner.describe_db_instances inv = Raise e).

(** A session as [SessionLocal()] or [get_db] hands it out: nothing
    pending, on tables that satisfy their constraints. *)
Definition fresh_session (db : Session) : Prop :=
  view db = committed db ∧ constraints_ok (committed db) = true.

End Props.

(** ** Sample inputs *)

Module Samples.
Import Database AwsScanner.

(** A violation whose severity is not a name of [SEVERITY_LEVELS]. *)
Definition info_violation : gmap string pyval := {[ "severity" := PStr "INFO" ]}.

Definition unreachable : exn := OtherError "EndpointConnectionError".

(** No call of the provider can be answered. *)
Definition inventory_down : Inventory :=
  {| list_buckets := Raise unreachable;
     get_bucket_encryption := fun _ => Raise unreachable;
     list_users_pages := [Raise unreachable];
     list_attached_user_policies := fun _ => Raise unreachable;
     describe_security_groups := Raise unreachable;
     describe_trails := Raise unreachable;
     get_trail_status := fun _ => Raise unreachable;
     describe_db_instances := Raise unreachable |}.

(** One IAM user with AdministratorAccess attached, one logging trail,
    nothing else. *)
Definition inventory_admin_user : Inventory :=
  {| list_buckets := Ok [];
     get_bucket_encryption := fun _ => Ok true;
     list_users_pages := [Ok ["alice"]];
     list_attached_user_policies := fun _ => Ok ["AdministratorAccess"];
     describe_security_groups := Ok [];
     describe_trails := Ok [{| Name := "main"; TrailARN := "arn:aws:cloudtrail:main" |}];
     get_trail_status := fun _ => Ok (Some true);
     describe_db_instances := Ok [] |}.

Definition scanner_of (inv : Inventory) : AWSScanner :=
  {| account_id := "123456789012"; region := "us-east-1"; clients := inv |}.

Definition empty_tables : Tables := {| scan_results := []; scan_history := [] |}.

(** The database after a first manual scan at time 1000. *)
Definition first_scan : result Session :=
  scan_all_resources (scanner_of inventory_admin_user) false 1000
    (open_session empty_tables 0).

(** The same inventory scanned again at time 2000. *)
Definition second_scan : result Session :=
  db ← first_scan;
  scan_all_resources (scanner_of inventory_admin_user) false 2000
    (open_session (committed db) (uuid_seed db)).

(** The provider goes down before the scan at time 2000. *)
Definition scan_while_down : result Session :=
  db ← first_scan;
  scan_all_resources (scanner_of inventory_down) false 2000
    (open_session (committed db) (uuid_seed db)).

(** A monitored account as the configure endpoint writes it. *)
Definition account (account_id region : string) : gmap string pyval :=
  <["account_id" := PStr account_id]> (<["region" := PStr region]>
  (<["access_key" := PNone]> (<["secret_key" := PNone]> ∅))).

Definition finding : gmap string pyval :=
  <["resource_id" := PStr "logs"]>
  (<["resource_type" := PStr "S3 Bucket"]>
  (<["violation_name" := PStr "S3 Encryption Not Configured"]>
  (<["severity" := PStr "CRITICAL"]>
  (<["description" := PStr "no encryption configuration"]>
  (<["remediation_suggestion" := PStr "enable encryption"]>
  (<["compliance_framework" := PStr "ISO 27001 A.10.1.1"]>
  (<["is_compliant" := PBool false]> ∅))))))).

(** A scanner call that cannot reach the first account and answers for
    every other one. *)
Definition first_fails (account : gmap string pyval)
  : result (list (gmap string pyval)) :=
  if bool_decide (account !! "account_id" = Some (PStr "111111111111"))
  then Raise unreachable else Ok [finding].

Definition monitored (accounts : list (gmap string pyval)) : Scheduler.World :=
  {| Scheduler.config_file :=
       Some {| Scheduler.enabled := true; Scheduler.interval_hours := 24;
               Scheduler.accounts := accounts |};
     Scheduler.config_writable := true;
     Scheduler.jobs := [];
     Scheduler.store := open_session empty_tables 0;
     Scheduler.clock := 1000 |}.

Definition two_accounts : list (gmap string pyval) :=
  [account "111111111111" "us-east-1"; account "222222222222" "eu-west-1"].

Definition idle_world : Scheduler.World :=
  {| Scheduler.config_file := Some Scheduler.DEFAULT_CONFIG;
     Scheduler.config_writable := true;
     Scheduler.jobs := [];
     Scheduler.store := open_session empty_tables 0;
     Scheduler.clock := 0 |}.

(** APScheduler accepts every interval it is given. *)
Definition lenient_trigger (hours : Z) : result Z := Ok hours.

(** A stored HIGH violation, as [scan_all_resources] writes it. *)
Definition high_row : ScanResult.t :=
  {| ScanResult.id := "uuid-0";
     ScanResult.scan_id := PNone;
     ScanResult.resource_id := PStr "sg-1";
     ScanResult.resource_type := PStr "Security Group";
     ScanResult.violation_name := PStr "Unrestricted Inbound Access";
     ScanResult.severity := PStr "HIGH";
     ScanResult.description := PStr "open to the world";
     ScanResult.remediation_suggestion := PStr "restrict the range";
     ScanResult.compliance_framework := PStr "NIST SP 800-53 SC-7";
     ScanResult.is_compliant := PBool false;
     ScanResult.cloud_provider := PStr "AWS";
     ScanResult.account_id := PStr "123456789012";
     ScanResult.region := PStr "us-east-1";
     ScanResult.timestamp := PInt 1000;
     ScanResult.first_detected := PNone;
     ScanResult.status := PStr "NEW" |}.

(** A row stored as compliant. *)
Definition compliant_row : ScanResult.t :=
  {| ScanResult.id := "uuid-1";
     ScanResult.scan_id := PStr "scan-1";
     ScanResult.resource_id := PStr "sg-2";
     ScanResult.resource_type := PStr "Security Group";
     ScanResult.violation_name := PStr "Unrestricted Inbound Access";
     ScanResult.severity := PStr "LOW";
     ScanResult.description := PStr "restricted";
     ScanResult.remediation_suggestion := PStr "none";
     ScanResult.compliance_framework := PStr "NIST SP 800-53 SC-7";
     ScanResult.is_compliant := PBool true;
     ScanResult.cloud_provider := PStr "AWS";
     ScanResult.account_id := PStr "123456789012";
     ScanResult.region := PStr "us-east-1";
     ScanResult.timestamp := PInt 1000;
     ScanResult.first_detected := PInt 1000;
     ScanResult.status := PStr "NEW" |}.

(** The tables an earlier scan of the scope left: one stored violation. *)
Definition stored_tables : Tables :=
  {| scan_results := [high_row]; scan_history := [] |}.

End Samples.

(** ** utils/compliance_framework.py: the control tables *)

Module ComplianceControls.

Record control := { name : string; description : string }.

(** NIST SP 800-53 Rev 5 Controls *)
Definition NIST_CONTROLS : gmap string control :=
  <["AC-6" := {| name := "Least Privilege";
       description := "Employ the principle of least privilege, allowing only authorized accesses for users which are necessary to accomplish assigned organizational tasks." |}]>
  (<["AU-2" := {| name := "Audit Events";
       description := "Identify the types of events that the system is capable of logging in support of the audit logging function." |}]>
  (<["SC-7" := {| name := "Boundary Protection";
       description := "Monitor and control communications at the external interfaces to the system and at key internal interfaces within the system." |}]>
  (<["SC-28" := {| name := "Protection of Information at Rest";
       description := "Protect the confidentiality and integrity of information at rest." |}]> ∅))).

(** ISO 27001:2022 Controls *)
Definition ISO_27001_CONTROLS : gmap string control :=
  <["A.9.2.3" := {| name := "Management of Privileged Access Rights";
       description := "The allocation and use of privileged access rights shall be restricted and controlled." |}]>
  (<["A.10.1.1" := {| name := "Policy on the Use of Cryptographic Controls";
       description := "A policy on the use of cryptographic controls for protection of information shall be developed and implemented." |}]>
  (<["A.12.4.1" := {| name := "Event Logging";
       description := "Event logs recording user activities, exceptions, faults and information security events shall be produced, kept and regularly reviewed." |}]>
  (<["A.13.1.3" := {| name := "Segregation in Networks";
       description := "Groups of information services, users and information systems shall be segregated on networks." |}]> ∅))).

End ComplianceControls.

(** ** scanners/iam_scanner.py: the access review *)

Module IamReview.

Record iam_user := { UserName : string; UserArn : string; UserCreateDate : string }.
Record iam_role := { RoleName : string; RoleArn : string; RoleCreateDate : string }.

(** What the IAM client answers: the pages of the two paginators, the
    policy names of the four listing calls, and for [get_user] the
    [PasswordLastUsed] date when the answer has one.  Dates are given as
    their [isoformat()]. *)
Record IamClient := {
  list_users_pages : list (result (list iam_user));
  list_roles_pages : list (result (list iam_role));
  list_attached_user_policies : string -> result (list string);
  list_attached_role_policies : string -> result (list string);
  list_user_policies : string -> result (list string);
  list_role_policies : string -> result (list string);
  get_user : string -> result (option string)
}.

(** One reviewed entity.  A role has no [last_activity] key at all; a user
    has one, holding a date or [None]. *)
Record entity := {
  type : string;
  name : string;
  arn : string;
  created_date : string;
  last_activity : option (option string);
  attached_policies : list string;
  inline_policies : list string;
  risk_level : string;
  risk_reasons : list string;
  total_policies : nat
}.

(** Get attached managed policies: an error is logged and the list built
    so far, which is empty, is returned. *)
Definition get_attached_policies (self : IamClient) (entity_name entity_type : string)
  : list string :=
  match (if String.eqb entity_type "user"
         then list_attached_user_policies self entity_name
         else list_attached_role_policies self entity_name) with
  | Ok names => names
  | Raise _ => []
  end.

(** Get inline policy names. *)
Definition get_inline_policies (self : IamClient) (entity_name entity_type : string)
  : list string :=
  match (if String.eqb entity_type "user"
         then list_user_policies self entity_name
         else list_role_policies self entity_name) with
  | Ok names => names
  | Raise _ => []
  end.

(** Get last activity timestamp for user. *)
Definition get_last_activity (self : IamClient) (user_name : string) : option string :=
  match get_user self user_name with
  | Ok (Some password_last_used) => Some password_last_used
  | _ => None
  end.

Definition user_entity (self : IamClient) (user : iam_user) : entity :=
  let user_name := UserName user in
  let attached := get_attached_policies self user_name "user" in
  let inline := get_inline_policies self user_name "user" in
  let '(level, reasons) := IamScanner.analyze_risk attached inline in
  {| type := "user";
     name := user_name;
     arn := UserArn user;
     created_date := UserCreateDate user;
     last_activity := Some (get_last_activity self user_name);
     attached_policies := attached;
     inline_policies := inline;
     risk_level := level;
     risk_reasons := reasons;
     total_policies := length attached + length inline |}.

Definition role_entity (self : IamClient) (role : iam_role) : entity :=
  let role_name := RoleName role in
  let attached := get_attached_policies self role_name "role" in
  let inline := get_inline_policies self role_name "role" in
  let '(level, reasons) := IamScanner.analyze_risk attached inline in
  {| type := "role";
     name := role_name;
     arn := RoleArn role;
     created_date := RoleCreateDate role;
     last_activity := None;
     attached_policies := attached;
     inline_policies := inline;
     risk_level := level;
     risk_reasons := reasons;
     total_policies := length attached + length inline |}.

(** The loop over the pages inside [try: ... except Exception: raise]: an
    exception while paging is logged and raised again, and the entities
    collected so far are lost with it. *)
Fixpoint scan_pages {A} (per_page : list A -> list entity)
    (pages : list (result (list A))) : result (list entity) :=
  match pages with
  | [] => Ok []
  | Raise e :: _ => Raise e
  | Ok items :: rest =>
      found ← scan_pages per_page rest;
      Ok (per_page items ++ found)
  end.

(** Scan all IAM users and their permissions. *)
Definition scan_users (self : IamClient) : result (list entity) :=
  scan_pages (map (user_entity self)) (list_users_pages self).

(** Scan all IAM roles and their permissions, skipping AWS service roles. *)
Definition scan_roles (self : IamClient) : result (list entity) :=
  scan_pages
    (fun roles =>
       map (role_entity self)
         (filter (fun role => String.prefix "AWS" (RoleName role) = false) roles))
    (list_roles_pages self).

Record counts := {
  total_entities : nat;
  total_users : nat;
  total_roles : nat;
  critical_risk : nat;
  high_risk : nat;
  medium_risk : nat;
  low_risk : nat
}.

Record review := { users : list entity; roles : list entity; summary : counts }.

(** [len([e for e in users + roles if e['risk_level'] == level])] *)
Definition count_level (level : string) (entities : list entity) : nat :=
  length (filter (fun e => risk_level e = level) entities).

(** Scan both users and roles. *)
Definition scan_all (self : IamClient) : result review :=
  users ← scan_users self;
  roles ← scan_roles self;
  Ok {| users := users;
        roles := roles;
        summary :=
          {| total_entities := length users + length roles;
             total_users := length users;
             total_roles := length roles;
             critical_risk := count_level "CRITICAL" (users ++ roles);
             high_risk := count_level "HIGH" (users ++ roles);
             medium_risk := count_level "MEDIUM" (users ++ roles);
             low_risk := count_level "LOW" (users ++ roles) |} |}.

End IamReview.

(** ** app.py: the statistics endpoint *)

Module Statistics.
Import Database.

(** Python's [==] on column values, which with the hash decides whether two
    dictionary keys are the same: [True == 1] and [False == 0]. *)
Definition py_eq (a b : pyval) : bool :=
  match a, b with
  | PStr s, PStr t => String.eqb s t
  | PInt x, PInt y => (x =? y)%Z
  | PBool x, PBool y => Bool.eqb x y
  | PInt x, PBool y | PBool y, PInt x => (x =? (if y then 1 else 0))%Z
  | PNone, PNone => true
  | _, _ => false
  end.

(** [d[key] = d.get(key, 0) + 1] on a dictionary kept in insertion order:
    the entry of an equal key is updated in place, a new key is added at
    the end. *)
Fixpoint dict_incr (key : pyval) (d : list (pyval * Z)) : list (pyval * Z) :=
  match d with
  | [] => [(key, 1%Z)]
  | (k, n) :: rest =>
      if py_eq k key then (k, (n + 1)%Z) :: rest
      else (k, n) :: dict_incr key rest
  end.

Record stats := {
  severity_breakdown : list (pyval * Z);
  resource_type_breakdown : list (pyval * Z);
  total_violations : Z
}.

(** The body of the loop over the rows. *)
Definition count_row (acc : list (pyval * Z) * list (pyval * Z))
    (result : ScanResult.t) : list (pyval * Z) * list (pyval * Z) :=
  let '(severity_counts, resource_types) := acc in
  if negb (truthy (ScanResult.is_compliant result)) then
    (dict_incr (ScanResult.severity result) severity_counts,
     dict_incr (ScanResult.resource_type result) resource_types)
  else (severity_counts, resource_types).

(** [GET /api/stats] *)
Definition get_statistics (tb : Tables) : stats :=
  let results := scan_results tb in
  let severity_counts :=
    [(PStr "CRITICAL", 0%Z); (PStr "HIGH", 0%Z); (PStr "MEDIUM", 0%Z);
     (PStr "LOW", 0%Z)] in
  let '(severity_counts, resource_types) :=
    fold_left count_row results (severity_counts, []) in
  {| severity_breakdown := severity_counts;
     resource_type_breakdown := resource_types;
     total_violations := ComplianceFramework.sum_Z (map snd severity_counts) |}.

End Statistics.

(** ** Vocabulary of the further properties *)

Module Terms.
Import Database Float64.

(** The severity-weighted score of [count] violations whose weights add up
    to [total_severity]. *)
Definition score_of (total_severity count : Z) : Q :=
  round2 (max0 (fsub 100
    (fmul (b64 (inject_Z total_severity / inject_Z (count * 10))) 100))).

(** The rules of the five checkers: resource type, violation name, severity
    and framework reference of each dictionary they can build. *)
Definition rule_shapes : list (string * string * string * string) :=
  [("S3 Bucket", "Unencrypted S3 Bucket", "HIGH", "NIST SP 800-53 SC-28");
   ("S3 Bucket", "S3 Encryption Not Configured", "CRITICAL", "ISO 27001 A.10.1.1");
   ("IAM User", "Overly Permissive IAM Policy", "CRITICAL", "NIST SP 800-53 AC-6");
   ("Security Group", "Unrestricted Inbound Access", "HIGH", "NIST SP 800-53 SC-7");
   ("CloudTrail", "CloudTrail Not Enabled", "CRITICAL", "NIST SP 800-53 AU-2");
   ("CloudTrail", "CloudTrail Not Logging", "HIGH", "ISO 27001 A.12.4.1");
   ("RDS Instance", "Unencrypted RDS Instance", "CRITICAL", "NIST SP 800-53 SC-28");
   ("RDS Instance", "Publicly Accessible RDS Instance", "CRITICAL", "NIST SP 800-53 SC-7")].

(** [v] is a dictionary of one of the rules, for some resource. *)
Definition follows_rule (v : gmap string pyval) : Prop :=
  ∃ resource_id description remediation resource_type violation_name severity
    framework,
    (resource_type, violation_name, severity, framework) ∈ rule_shapes ∧
    v = AwsScanner.violation resource_id resource_type violation_name severity
          description remediation framework.

(** A framework reference names a control of one of the two tables. *)
Definition cites_control (reference : pyval) : Prop :=
  ∃ k, (reference = PStr ("NIST SP 800-53 " +:+ k) ∧
        is_Some (ComplianceControls.NIST_CONTROLS !! k)) ∨
       (reference = PStr ("ISO 27001 " +:+ k) ∧
        is_Some (ComplianceControls.ISO_27001_CONTROLS !! k)).

(** The [resource_id] of a violation dictionary. *)
Definition resource_of (v : gmap string pyval) : option pyval := v !! "resource_id".

(** Every stored row is a violation. *)
Definition all_non_compliant (tb : Tables) : Prop :=
  Forall (λ r, ScanResult.is_compliant r = PBool false) (scan_results tb).

(** A page of a paginator that could be fetched. *)
Definition fetched {A} (page : result A) : Prop := ∃ a, page = Ok a.

(** An attached policy that [analyze_risk] flags. *)
Definition flagged (policy : string) : Prop :=
  IamScanner.is_risky policy = true ∨
  IamScanner.str_contains "FullAccess" policy = true.

(** The four risk levels in increasing order. *)
Definition rank (level : string) : nat :=
  if decide (level = "CRITICAL") then 3
  else if decide (level = "HIGH") then 2
  else if decide (level = "MEDIUM") then 1
  else 0.

(** The risk fields of a reviewed entity are those of its policy lists. *)
Definition entity_consistent (e : IamReview.entity) : Prop :=
  (IamReview.risk_level e, IamReview.risk_reasons e)
    = IamScanner.analyze_risk (IamReview.attached_policies e)
        (IamReview.inline_policies e) ∧
  IamReview.total_policies e
    = length (IamReview.attached_policies e) + length (IamReview.inline_policies e).

(** The rows of a table that are violations. *)
Definition violation_rows (tb : Tables) : list ScanResult.t :=
  filter (λ r, truthy (ScanResult.is_compliant r) = false) (scan_results tb).

End Terms.

(** ** Further sample inputs *)

Module MoreSamples.
Import AwsScanner.

(** Three unencrypted buckets; the check of the second one ends as
    [outcome] says. *)
Definition three_buckets (outcome : result bool) : Inventory :=
  {| list_buckets := Ok ["alpha"; "broken"; "gamma"];
     get_bucket_encryption := fun b =>
       if String.eqb b "broken" then outcome else Ok false;
     list_users_pages := [];
     list_attached_user_policies := fun _ => Ok [];
     describe_security_groups := Ok [];
     describe_trails := Ok [{| Name := "main"; TrailARN := "arn:main" |}];
     get_trail_status := fun _ => Ok (Some true);
     describe_db_instances := Ok [] |}.

(** An IAM account with one administrator whose policies cannot be listed,
    one ordinary user, one service role and one application role. *)
Definition root_admin : IamReview.iam_user :=
  {| IamReview.UserName := "root-admin";
     IamReview.UserArn := "arn:aws:iam::1:user/root-admin";
     IamReview.UserCreateDate := "2024-01-01T00:00:00" |}.

Definition iam_user_pages : list (list IamReview.iam_user) :=
  [[root_admin];
   [{| IamReview.UserName := "dev";
       IamReview.UserArn := "arn:aws:iam::1:user/dev";
       IamReview.UserCreateDate := "2024-02-01T00:00:00" |}]].

Definition iam_role_pages : list (list IamReview.iam_role) :=
  [[{| IamReview.RoleName := "AWSServiceRoleForSupport";
       IamReview.RoleArn := "arn:aws:iam::1:role/AWSServiceRoleForSupport";
       IamReview.RoleCreateDate := "2024-01-01T00:00:00" |};
    {| IamReview.RoleName := "app";
       IamReview.RoleArn := "arn:aws:iam::1:role/app";
       IamReview.RoleCreateDate := "2024-03-01T00:00:00" |}]].

Definition iam_account : IamReview.IamClient :=
  {| IamReview.list_users_pages := map Ok iam_user_pages;
     IamReview.list_roles_pages := map Ok iam_role_pages;
     IamReview.list_attached_user_policies := fun u =>
       if String.eqb u "root-admin" then Raise (ClientError "Throttling")
       else Ok ["ReadOnlyAccess"];
     IamReview.list_attached_role_policies := fun _ => Ok ["AmazonS3FullAccess"];
     IamReview.list_user_policies := fun u =>
       if String.eqb u "root-admin" then Raise (ClientError "Throttling")
       else Ok [];
     IamReview.list_role_policies := fun _ => Ok ["inline-1"];
     IamReview.get_user := fun _ => Ok None |}.

End MoreSamples.

(** * Properties *)

(** ** Binary64 rounding: error bounds *)

Module Float64Facts.
Import Float64.
Local Open Scope Q_scope.

Lemma RNE_error (q : Q) : Qabs (inject_Z (RNE q) - q) <= 1 # 2.
Proof.
  unfold RNE.
  pose proof (Qfloor_le q) as Hlo.
  pose proof (Qlt_floor q) as Hhi.
  rewrite inject_Z_plus in Hhi. change (inject_Z 1) with 1 in Hhi.
  apply Qabs_Qle_condition.
  destruct (Qcompare (q - inject_Z (Qfloor q)) (1 # 2)) eqn:Hc.
  - apply Qeq_alt in Hc.
    destruct (Z.even (Qfloor q)); rewrite ?inject_Z_plus;
      change (inject_Z 1) with 1; split; lra.
  - apply Qlt_alt in Hc. split; lra.
  - apply Qgt_alt in Hc. rewrite inject_Z_plus.
    change (inject_Z 1) with 1. split; lra.
Qed.

Lemma pow2_pos (e : Z) : 0 < pow2 e.
Proof.
  destruct e as [|p|p]; simpl; try reflexivity.
  rewrite <- Pos2Z.inj_pow. reflexivity.
Qed.

Lemma pow2_small (e : Z) : (e <= -44)%Z -> pow2 e <= 2 * eps.
Proof.
  intros He. apply Qle_trans with (1 # (2 ^ 44));
    [| apply Qle_bool_iff; vm_compute; reflexivity].
  destruct e as [|p|p]; try lia.
  unfold pow2, Qle. cbn [Qnum Qden].
  rewrite !Z.mul_1_l, !Pos2Z.inj_pow.
  apply Z.pow_le_mono_r; lia.
Qed.

Lemma ilog2_small (q : Q) : 0 < q -> q < 256 -> (ilog2 q <= 8)%Z.
Proof.
  intros Hpos Hlt. destruct q as [a b].
  unfold Qlt in Hpos, Hlt. cbn [Qnum Qden] in Hpos, Hlt.
  assert (Z.log2 a <= 8 + Z.log2 (Z.pos b))%Z as Hlog.
  { transitivity (Z.log2 (Z.pos b * 2 ^ 8)).
    - apply Z.log2_le_mono. lia.
    - rewrite Z.log2_mul_pow2 by lia. lia. }
  unfold ilog2. cbn [Qnum Qden].
  destruct (Qle_bool _ _); lia.
Qed.

Lemma ulp_exp_small (q : Q) : ~ q == 0 -> Qabs q < 256 -> (ulp_exp q <= -44)%Z.
Proof.
  intros Hnz Hlt. unfold ulp_exp.
  assert (0 < Qabs q) as Hpos.
  { destruct (Qlt_le_dec 0 (Qabs q)) as [|Hle]; [assumption|].
    exfalso. apply Hnz. revert Hle. apply Qabs_case; intros; lra. }
  pose proof (ilog2_small _ Hpos Hlt). lia.
Qed.

Lemma b64_error (q : Q) : Qabs q < 256 -> Qabs (b64 q - q) <= eps.
Proof.
  intros Hlt. unfold b64.
  destruct (Qeq_bool q 0) eqn:Hz.
  - apply Qeq_bool_iff in Hz. apply Qabs_Qle_condition.
    unfold eps. split; lra.
  - apply Qeq_bool_neq in Hz.
    pose proof (pow2_small _ (ulp_exp_small q Hz Hlt)) as Hp.
    pose proof (pow2_pos (ulp_exp q)) as Hp0.
    set (p := pow2 (ulp_exp q)) in *.
    pose proof (RNE_error (q / p)) as Hd.
    apply Qabs_Qle_condition in Hd. destruct Hd as [Hd1 Hd2].
    set (k := inject_Z (RNE (q / p))) in *.
    assert (q == (q / p) * p) as Hq by (field; lra).
    set (x := q / p) in *.
    rewrite Qred_correct.
    assert (0 <= ((1 # 2) - (k - x)) * p) as H1
      by (apply Qmult_le_0_compat; lra).
    assert (0 <= ((k - x) + (1 # 2)) * p) as H2
      by (apply Qmult_le_0_compat; lra).
    apply Qabs_Qle_condition. unfold eps in *. split; lra.
Qed.

(** The two-sided form used in the bounds below. *)
Lemma b64_between (q lo hi : Q) :
  lo <= q <= hi -> -256 < lo -> hi < 256 ->
  lo - eps <= b64 q <= hi + eps.
Proof.
  intros [H1 H2] Hlo Hhi.
  assert (Qabs q < 256) as Hq by (apply Qabs_Qlt_condition; split; lra).
  pose proof (b64_error q Hq) as He.
  apply Qabs_Qle_condition in He. split; lra.
Qed.

Lemma round2_between (x lo hi : Q) :
  lo <= x <= hi -> -200 < lo -> hi < 200 ->
  lo - (1 # 200) - eps <= round2 x <= hi + (1 # 200) + eps.
Proof.
  intros [H1 H2] Hlo Hhi. unfold round2.
  pose proof (RNE_error (x * 100)) as Hd.
  apply Qabs_Qle_condition in Hd. destruct Hd as [Hd1 Hd2].
  set (k := inject_Z (RNE (x * 100))) in *.
  apply b64_between; try lra.
  split.
  - apply Qle_shift_div_l; lra.
  - apply Qle_shift_div_r; lra.
Qed.

Lemma max0_between (x hi : Q) : 0 <= hi -> x <= hi -> 0 <= max0 x <= hi.
Proof.
  intros H0 H. unfold max0. destruct (Qlt_le_dec 0 x); split; lra.
Qed.

(** The model agrees with the machine's binary64 on the operations of a
    score: a division that rounds, a product that is exact, a product that
    rounds below an integer, and a quotient in the subnormal range. *)
Example b64_agrees_division :
  of_prim (37 / 160)%float = Some (b64 (37 / 160)) ∧
  of_prim (7 / 10)%float = Some (b64 (7 / 10)) ∧
  of_prim (1 / 3)%float = Some (b64 (1 / 3)).
Proof. repeat split; vm_compute; reflexivity. Qed.

Example b64_agrees_product :
  of_prim ((37 / 160) * 100)%float = Some (fmul (b64 (37 / 160)) 100) ∧
  of_prim ((29 / 100) * 100)%float = Some (fmul (b64 (29 / 100)) 100) ∧
  trunc (fmul (b64 (29 / 100)) 100) = 28%Z.
Proof. repeat split; vm_compute; reflexivity. Qed.

Example b64_agrees_difference :
  of_prim (100 - (7 / 10) * 100)%float
    = Some (fsub 100 (fmul (b64 (7 / 10)) 100)) ∧
  of_prim (100 - (1 / 3) * 100)%float
    = Some (fsub 100 (fmul (b64 (1 / 3)) 100)).
Proof. repeat split; vm_compute; reflexivity. Qed.

Example b64_agrees_subnormal :
  of_prim (0x1p-1060 / 3)%float
    = Some (b64 (pow2 (-1060) / 3)).
Proof. vm_compute; reflexivity. Qed.

End Float64Facts.

(** ** The severity-weighted score *)

Module ComplianceFacts.
Import Float64 Float64Facts ComplianceFramework Props.

Lemma SEVERITY_LEVELS_lookup (s : string) :
  score <$> (SEVERITY_LEVELS !! s) =
  if decide (s = "CRITICAL") then Some 10%Z
  else if decide (s = "HIGH") then Some 7%Z
  else if decide (s = "MEDIUM") then Some 4%Z
  else if decide (s = "LOW") then Some 2%Z
  else None.
Proof.
  unfold SEVERITY_LEVELS.
  repeat (case_decide; [subst; reflexivity |]).
  rewrite !lookup_insert_ne by congruence. reflexivity.
Qed.

(** One violation: its weight, or a [KeyError] when the severity is not a
    name of the table. *)
Lemma severity_score_spec (v : gmap string pyval) :
  severity_score v =
  match unknown_severity v with
  | Some k => Raise (KeyError k)
  | None => Ok (Spec.weight v)
  end.
Proof.
  unfold severity_score, unknown_severity, Spec.weight, dict_get.
  destruct (v !! "severity") as [[s| | |]|]; simpl; try reflexivity.
  pose proof (SEVERITY_LEVELS_lookup s) as Hl.
  destruct (decide (s = "CRITICAL")) as [->|H1]; [reflexivity|].
  destruct (decide (s = "HIGH")) as [->|H2]; [reflexivity|].
  destruct (decide (s = "MEDIUM")) as [->|H3]; [reflexivity|].
  destruct (decide (s = "LOW")) as [->|H4]; [reflexivity|].
  destruct (SEVERITY_LEVELS !! s); [discriminate|].
  rewrite bool_decide_eq_false_2; [reflexivity|].
  rewrite !elem_of_cons, elem_of_nil. tauto.
Qed.

Lemma weight_range (v : gmap string pyval) : (2 <= Spec.weight v <= 10)%Z.
Proof.
  unfold Spec.weight.
  destruct (v !! "severity") as [[s| | |]|]; try lia.
  repeat case_decide; lia.
Qed.

Lemma sum_weights_range (violations : list (gmap string pyval)) :
  (2 * Z.of_nat (length violations) <= Spec.sum_weights violations
   <= 10 * Z.of_nat (length violations))%Z.
Proof.
  induction violations as [|v rest IH]; cbn [Spec.sum_weights foldr length].
  - lia.
  - fold (Spec.sum_weights rest). pose proof (weight_range v). lia.
Qed.

Lemma sum_Z_from (l : list Z) (a : Z) :
  fold_left Z.add l a = (a + foldr Z.add 0 l)%Z.
Proof.
  revert a. induction l as [|x l IH]; intros a; cbn [fold_left foldr].
  - lia.
  - rewrite IH. lia.
Qed.

Lemma sum_Z_weights (violations : list (gmap string pyval)) :
  sum_Z (map Spec.weight violations) = Spec.sum_weights violations.
Proof.
  unfold sum_Z. rewrite sum_Z_from, Z.add_0_l.
  induction violations as [|v rest IH]; [reflexivity|].
  cbn [map foldr Spec.sum_weights]. rewrite IH. reflexivity.
Qed.

(** The generator under [sum]: every weight, or the first [KeyError]. *)
Lemma mapM_severity_score (violations : list (gmap string pyval)) :
  mapM severity_score violations =
  match first_unknown violations with
  | Some k => Raise (KeyError k)
  | None => Ok (map Spec.weight violations)
  end.
Proof.
  induction violations as [|v rest IH]; [reflexivity|].
  cbn [mapM first_unknown]. rewrite severity_score_spec.
  destruct (unknown_severity v); [reflexivity|].
  cbn [mbind result_bind]. rewrite IH.
  destruct (first_unknown rest); reflexivity.
Qed.

(** What [get_compliance_score] computes, on every list. *)
Lemma get_compliance_score_spec (violations : list (gmap string pyval)) :
  get_compliance_score violations =
  match first_unknown violations with
  | Some k => Raise (KeyError k)
  | None => Ok (Spec.score violations)
  end.
Proof.
  destruct violations as [|v rest]; [reflexivity|].
  unfold get_compliance_score. rewrite mapM_severity_score.
  destruct (first_unknown (v :: rest)); [reflexivity|].
  cbn [mbind result_bind]. rewrite sum_Z_weights.
  unfold truediv. rewrite (proj2 (Z.eqb_neq _ 0)) by (cbn [length]; lia).
  cbn [mbind result_bind]. unfold Spec.score. cbv zeta. reflexivity.
Qed.

(** A non-empty list never scores above 80.02. *)
Lemma score_nonempty_upper (v : gmap string pyval) (rest : list (gmap string pyval)) :
  (Spec.score (v :: rest) <= 81)%Q.
Proof.
  unfold Spec.score.
  pose proof (sum_weights_range (v :: rest)) as [Hlo Hhi].
  set (S := Spec.sum_weights (v :: rest)) in *.
  set (n := Z.of_nat (length (v :: rest))) in *.
  assert (1 <= n)%Z as Hn by (subst n; cbn [length]; lia).
  assert (1 <= inject_Z n)%Q as HnQ by (rewrite Zle_Qle in Hn; exact Hn).
  assert (2 * inject_Z n <= inject_Z S)%Q as HloQ.
  { rewrite Zle_Qle, inject_Z_mult in Hlo. exact Hlo. }
  assert (inject_Z S <= 10 * inject_Z n)%Q as HhiQ.
  { rewrite Zle_Qle, inject_Z_mult in Hhi. exact Hhi. }
  assert ((1 # 5) <= inject_Z S / inject_Z (n * 10) <= 1)%Q as Hx.
  { rewrite inject_Z_mult. change (inject_Z 10) with 10%Q. split.
    - apply Qle_shift_div_l; lra.
    - apply Qle_shift_div_r; lra. }
  pose proof (b64_between _ _ _ Hx eq_refl eq_refl) as H1.
  set (r1 := b64 (inject_Z S / inject_Z (n * 10))) in *.
  unfold eps in *.
  assert ((1 # 5) * 100 - 100 * (1 # 35184372088832) <= r1 * 100
          <= 100 + 100 * (1 # 35184372088832))%Q as Hm by (split; lra).
  pose proof (b64_between _ _ _ Hm eq_refl eq_refl) as H2.
  fold (fmul r1 100) in H2. set (r2 := fmul r1 100) in *. unfold eps in *.
  assert (- (1 # 100) <= 100 - r2 <= 80 + (1 # 100))%Q as Hs by (split; lra).
  pose proof (b64_between _ _ _ Hs eq_refl eq_refl) as H3.
  fold (fsub 100 r2) in H3. set (r3 := fsub 100 r2) in *. unfold eps in *.
  pose proof (max0_between r3 (80 + (1 # 50)) ltac:(lra) ltac:(lra)) as H4.
  pose proof (round2_between _ _ _ H4 eq_refl eq_refl) as H5.
  unfold eps in *. lra.
Qed.

(** C1 (as amended).  For every list of violations the severity-weighted
    score function returns 100.0 on the empty list and otherwise
    [max(0, 100 - (sum of weights / (count * 10)) * 100)] rounded to two
    decimals, with weights CRITICAL=10, HIGH=7, MEDIUM=4, LOW=2 and a
    missing severity weighing as LOW; when some violation carries a
    severity that is present but is not one of the four names, no score is
    returned: the call raises [KeyError] on the first such severity. *)
Theorem get_compliance_score_formula (violations : list (gmap string pyval)) :
  get_compliance_score violations =
  match first_unknown violations with
  | Some k => Raise (KeyError k)
  | None => Ok (Spec.score violations)
  end.
Proof. apply get_compliance_score_spec. Qed.

(** C1 as stated fails: a violation of severity INFO is not weighed as
    LOW (which would give 80.0); the lookup raises. *)
Lemma unknown_severity_not_low :
  get_compliance_score [Samples.info_violation] = Raise (KeyError (PStr "INFO")) ∧
  Spec.score [Samples.info_violation] = 80%Q ∧
  get_compliance_score [Samples.info_violation]
    ≠ Ok (Spec.score [Samples.info_violation]).
Proof.
  assert (get_compliance_score [Samples.info_violation]
          = Raise (KeyError (PStr "INFO"))) as Hraise
    by (vm_compute; reflexivity).
  split; [exact Hraise|]. split; [vm_compute; reflexivity|].
  rewrite Hraise. discriminate.
Qed.

End ComplianceFacts.


(** ** The IAM risk classifier *)

Module IamFacts.
Import IamScanner Props.

(** Every attached policy of the risky list leaves a reason. *)
Lemma policy_reasons_risky (policy : string) (attached : list string) :
  policy ∈ attached -> is_risky policy = true ->
  1 <= length (policy_reasons attached).
Proof.
  intros Hin Hrisky.
  induction attached as [|p rest IH]; [by apply elem_of_nil in Hin|].
  cbn [policy_reasons].
  apply elem_of_cons in Hin as [<-|Hin].
  - rewrite Hrisky. cbn [length]. lia.
  - destruct (is_risky p); [cbn [length]; lia|].
    destruct (str_contains "FullAccess" p); [cbn [length]; lia|].
    auto.
Qed.

Lemma override_test (attached : list string) :
  bool_decide ("AdministratorAccess" ∈ attached)
    || bool_decide ("IAMFullAccess" ∈ attached) = true <-> overridden attached.
Proof.
  unfold overridden.
  rewrite orb_true_iff, !bool_decide_eq_true. reflexivity.
Qed.

Lemma overridden_has_reason (attached inline : list string) :
  overridden attached -> 1 <= length (snd (analyze_risk attached inline)).
Proof.
  intros Hov. unfold analyze_risk. cbn [snd].
  assert (1 <= length (policy_reasons attached)) as H.
  { destruct Hov as [H|H];
      apply (policy_reasons_risky _ _ H); vm_compute; reflexivity. }
  repeat (match goal with |- context [if ?b then _ else _] => destruct b end);
    rewrite ?length_app; lia.
Qed.

(** The level is the override, or else the table on the reason count. *)
Lemma analyze_risk_level_cases (attached inline : list string) :
  (fst (analyze_risk attached inline) = "CRITICAL" ∧ overridden attached) ∨
  (¬ overridden attached ∧
   fst (analyze_risk attached inline) =
     if 3 <=? length (snd (analyze_risk attached inline)) then "HIGH"
     else if 0 <? length (snd (analyze_risk attached inline)) then "MEDIUM"
     else "LOW").
Proof.
  unfold analyze_risk. cbn [fst snd].
  pose proof (override_test attached) as Hov.
  destruct (bool_decide ("AdministratorAccess" ∈ attached)
            || bool_decide ("IAMFullAccess" ∈ attached)).
  - left. split; [reflexivity|]. apply Hov. reflexivity.
  - right. split; [|reflexivity]. rewrite <- Hov. discriminate.
Qed.

(** C4.  The classifier returns CRITICAL exactly when AdministratorAccess
    or IAMFullAccess is attached, whatever else holds; otherwise HIGH with
    three or more reasons, MEDIUM with one or two, LOW with none.
    [classify([], [])] is [('LOW', [])] and
    [classify(['AdministratorAccess'], [])] is
    [('CRITICAL', ['Has AdministratorAccess policy'])]. *)
Theorem analyze_risk_decision_table (attached inline : list string) :
  let level := fst (analyze_risk attached inline) in
  let reasons := snd (analyze_risk attached inline) in
  (level = "CRITICAL" <-> overridden attached) ∧
  (¬ overridden attached ->
     (3 <= length reasons -> level = "HIGH") ∧
     (1 <= length reasons <= 2 -> level = "MEDIUM") ∧
     (length reasons = 0 -> level = "LOW")) ∧
  analyze_risk [] [] = ("LOW", []) ∧
  analyze_risk ["AdministratorAccess"] [] =
    ("CRITICAL", ["Has AdministratorAccess policy"]).
Proof.
  cbv zeta. unfold analyze_risk. cbn [fst snd].
  pose proof (override_test attached) as Hov.
  destruct (bool_decide ("AdministratorAccess" ∈ attached)
            || bool_decide ("IAMFullAccess" ∈ attached)).
  - split; [tauto|]. split; [|split; reflexivity].
    intros Hn. exfalso. apply Hn, Hov. reflexivity.
  - assert (¬ overridden attached) as Hno by (rewrite <- Hov; discriminate).
    set (reasons := (if 0 <? length inline then _ else _)).
    split; [|split; [|split; reflexivity]].
    + destruct (3 <=? length reasons); [|destruct (0 <? length reasons)];
        split; (discriminate || tauto).
    + intros _.
      destruct (Nat.leb_spec 3 (length reasons));
        [|destruct (Nat.ltb_spec 0 (length reasons))];
        repeat split; intros; (reflexivity || lia).
Qed.

(** C10.  The level is LOW if and only if no reason was recorded; the
    CRITICAL override only fires with at least one reason recorded, since
    AdministratorAccess and IAMFullAccess are themselves in the risky
    list. *)
Theorem low_iff_no_reason (attached inline : list string) :
  (fst (analyze_risk attached inline) = "LOW"
     <-> snd (analyze_risk attached inline) = []) ∧
  (fst (analyze_risk attached inline) = "CRITICAL"
     -> 1 <= length (snd (analyze_risk attached inline))) ∧
  "AdministratorAccess" ∈ RISKY_POLICIES ∧ "IAMFullAccess" ∈ RISKY_POLICIES.
Proof.
  pose proof (analyze_risk_level_cases attached inline) as Hcases.
  split; [|split; [|unfold RISKY_POLICIES; rewrite !elem_of_cons; auto]].
  - destruct Hcases as [[Hl Hov]|[Hno Hl]].
    + pose proof (overridden_has_reason attached inline Hov) as Hr.
      rewrite Hl. split; [discriminate|].
      intros Hnil. rewrite Hnil in Hr. cbn in Hr. lia.
    + rewrite Hl. rewrite <- length_zero_iff_nil.
      destruct (Nat.leb_spec 3 (length (snd (analyze_risk attached inline))));
        [|destruct (Nat.ltb_spec 0 (length (snd (analyze_risk attached inline))))];
        split; (discriminate || lia || reflexivity).
  - destruct Hcases as [[_ Hov]|[Hno Hl]].
    + intros _. by apply overridden_has_reason.
    + rewrite Hl. repeat case_match; discriminate.
Qed.

End IamFacts.

(** ** The manual scan cycle *)

Module AwsFacts.
Import Database AwsScanner Props.

Lemma try_each_Forall {A V} (P : V -> Prop) (body : A -> list V * option exn)
    (l : list A) :
  (∀ a, Forall P (fst (body a))) -> Forall P (fst (try_each body l)).
Proof.
  intros Hbody. induction l as [|a l IH]; cbn [try_each]; [constructor|].
  specialize (Hbody a). destruct (body a) as [vs [e|]]; [exact Hbody|].
  destruct (try_each body l) as [ws r]. cbn [fst] in *.
  apply Forall_app; split; assumption.
Qed.

Lemma Forall_flat_map_intro {A V} (P : V -> Prop) (f : A -> list V) (l : list A) :
  (∀ a, Forall P (f a)) -> Forall P (flat_map f l).
Proof.
  intros Hf. induction l as [|a l IH]; cbn [flat_map]; [constructor|].
  apply Forall_app; split; auto.
Qed.

Lemma violation_is_violation a b c d e f g : is_violation (violation a b c d e f g).
Proof. unfold is_violation. eauto 10. Qed.

Create HintDb scan.
#[local] Hint Resolve violation_is_violation : scan.
#[local] Hint Constructors Forall : scan.

Lemma scan_s3_encryption_wf self : Forall is_violation (scan_s3_encryption self).
Proof.
  unfold scan_s3_encryption. destruct (list_buckets _); [|constructor].
  apply try_each_Forall. intros b. unfold s3_bucket_check.
  destruct (get_bucket_encryption _ b) as [[]|e]; cbn [fst]; auto with scan.
Qed.

Lemma scan_iam_policies_wf self : Forall is_violation (scan_iam_policies self).
Proof.
  unfold scan_iam_policies. apply try_each_Forall. intros [users|e];
    [|constructor].
  apply try_each_Forall. intros u. unfold iam_user_check.
  destruct (list_attached_user_policies _ u) as [ps|[]]; cbn [fst];
    auto with scan.
  apply Forall_flat_map_intro. intros p. destruct (bool_decide _); auto with scan.
Qed.

Lemma scan_security_groups_wf self : Forall is_violation (scan_security_groups self).
Proof.
  unfold scan_security_groups. destruct (describe_security_groups _); [|constructor].
  apply Forall_flat_map_intro. intros sg.
  apply Forall_flat_map_intro. intros rule. unfold sg_rule_check.
  apply Forall_flat_map_intro. intros cidr.
  destruct (bool_decide _); auto with scan.
Qed.

Lemma scan_cloudtrail_logging_wf self :
  Forall is_violation (scan_cloudtrail_logging self).
Proof.
  unfold scan_cloudtrail_logging.
  destruct (describe_trails _) as [[|t ts]|]; auto with scan.
  apply try_each_Forall. intros t'. unfold trail_check.
  destruct (get_trail_status _ _) as [st|]; cbn [fst]; auto with scan.
  destruct (default false st); cbn [fst]; auto with scan.
Qed.

Lemma scan_rds_encryption_wf self : Forall is_violation (scan_rds_encryption self).
Proof.
  unfold scan_rds_encryption. destruct (describe_db_instances _); [|constructor].
  apply Forall_flat_map_intro. intros i. unfold rds_instance_check.
  apply Forall_app. split.
  - destruct (default false (StorageEncrypted i)); auto with scan.
  - destruct (default false (PubliclyAccessible i)); auto with scan.
Qed.

Lemma all_violations_wf self : Forall is_violation (all_violations self).
Proof.
  unfold all_violations. rewrite !Forall_app.
  auto using scan_s3_encryption_wf, scan_iam_policies_wf,
    scan_security_groups_wf, scan_cloudtrail_logging_wf, scan_rds_encryption_wf.
Qed.

(** A checker's dictionary always yields a row. *)
Lemma scan_result_of_violation self now v :
  is_violation v ->
  ∃ mk, scan_result_of self now v = Ok mk ∧
        ∀ id, stored_as self now v (mk id) ∧ ScanResult.not_null (mk id) = true.
Proof.
  intros (a & b & c & d & e & f & g & ->).
  eexists. split; [vm_compute; reflexivity|].
  intros id. split; [|reflexivity].
  repeat split; vm_compute; reflexivity.
Qed.

Lemma forallb_Forall {A} (f : A -> bool) (l : list A) :
  forallb f l = true <-> Forall (λ x, f x = true) l.
Proof.
  induction l as [|x l IH]; cbn [forallb].
  - split; [constructor|reflexivity].
  - rewrite andb_true_iff, IH, Forall_cons. reflexivity.
Qed.

Lemma constraints_ok_iff (tb : Tables) :
  constraints_ok tb = true <->
  Forall (λ r, ScanResult.not_null r = true) (scan_results tb) ∧
  Forall (λ h, ScanHistory.not_null h = true) (scan_history tb) ∧
  NoDup (map ScanHistory.scan_id (scan_history tb)).
Proof.
  unfold constraints_ok.
  rewrite !andb_true_iff, !forallb_Forall, bool_decide_eq_true. tauto.
Qed.

Lemma in_scope_iff self r :
  in_scope self r = true <->
  ScanResult.account_id r = PStr (account_id self) ∧
  ScanResult.region r = PStr (region self).
Proof.
  unfold in_scope. rewrite andb_true_iff, !bool_decide_eq_true. reflexivity.
Qed.

Lemma stored_as_in_scope self now v r : stored_as self now v r -> in_scope self r = true.
Proof. intros H. apply in_scope_iff. unfold stored_as in H. tauto. Qed.

(** The rows appended by the saving loop. *)
Lemma save_violations_run self now vs db :
  Forall is_violation vs ->
  ∃ rows,
    save_violations self now vs db =
      Ok {| committed := committed db;
            view := {| scan_results := scan_results (view db) ++ rows;
                       scan_history := scan_history (view db) |};
            commit_log := commit_log db;
            uuid_seed := uuid_seed db + length rows |} ∧
    Forall2 (stored_as self now) vs rows ∧
    Forall (λ r, ScanResult.not_null r = true) rows.
Proof.
  intros Hwf. revert db.
  induction Hwf as [|v vs Hv Hvs IH]; intros db.
  - exists []. cbn [save_violations length]. rewrite app_nil_r, Nat.add_0_r.
    destruct db as [c [sr sh] log seed]. repeat split; constructor.
  - destruct (scan_result_of_violation self now v Hv) as (mk & Hmk & Hrow).
    cbn [save_violations]. rewrite Hmk. cbn [mbind result_bind].
    destruct (IH (add_result mk db)) as (rows & Hrun & Hrows & Hnn).
    exists (mk (uuid4 (uuid_seed db)) :: rows).
    rewrite Hrun. cbn [add_result committed view commit_log uuid_seed
                        scan_results scan_history length].
    rewrite <- app_assoc, Nat.add_succ_comm. cbn [app].
    repeat split.
    + constructor; [apply Hrow | exact Hrows].
    + constructor; [apply Hrow | exact Hnn].
Qed.

Lemma cleared_constraints self tb :
  constraints_ok tb = true -> constraints_ok (cleared_tables self tb) = true.
Proof.
  rewrite !constraints_ok_iff. intros (Hr & Hh & Hu).
  repeat split; try assumption. cbn [cleared_tables scan_results].
  rewrite Forall_forall in Hr. apply Forall_forall.
  intros r Hin. apply list_elem_of_filter in Hin as [_ Hin]. auto.
Qed.

Lemma clear_old_results_run self db :
  fresh_session db ->
  clear_old_results self false db =
    {| committed := cleared_tables self (committed db);
       view := cleared_tables self (committed db);
       commit_log := commit_log db ++ [cleared_tables self (committed db)];
       uuid_seed := uuid_seed db |}.
Proof.
  intros [Hview Hok]. unfold clear_old_results, commit, delete_results.
  cbn [view committed commit_log uuid_seed]. rewrite Hview.
  fold (cleared_tables self (committed db)).
  rewrite (cleared_constraints self _ Hok). reflexivity.
Qed.

(** One manual cycle on a fresh session, the clearing step succeeding: two
    commits, first the tables without the scope's rows, then the same
    tables with one row per violation found. *)
Lemma scan_all_resources_run self now db :
  fresh_session db ->
  ∃ rows,
    scan_all_resources self false now db =
      Ok {| committed :=
              {| scan_results :=
                   scan_results (cleared_tables self (committed db)) ++ rows;
                 scan_history := scan_history (committed db) |};
            view :=
              {| scan_results :=
                   scan_results (cleared_tables self (committed db)) ++ rows;
                 scan_history := scan_history (committed db) |};
            commit_log :=
              commit_log db ++
              [cleared_tables self (committed db);
               {| scan_results :=
                    scan_results (cleared_tables self (committed db)) ++ rows;
                  scan_history := scan_history (committed db) |}];
            uuid_seed := uuid_seed db + length rows |} ∧
    Forall2 (stored_as self now) (all_violations self) rows.
Proof.
  intros Hfresh. unfold scan_all_resources.
  rewrite (clear_old_results_run self db Hfresh).
  destruct (save_violations_run self now (all_violations self)
              {| committed := cleared_tables self (committed db);
                 view := cleared_tables self (committed db);
                 commit_log := commit_log db ++ [cleared_tables self (committed db)];
                 uuid_seed := uuid_seed db |} (all_violations_wf self))
    as (rows & Hrun & Hrows & Hnn).
  exists rows. split; [|exact Hrows].
  rewrite Hrun. cbn [mbind result_bind]. unfold commit.
  cbn [view committed commit_log uuid_seed].
  destruct Hfresh as [_ Hok].
  apply (cleared_constraints self) in Hok. apply constraints_ok_iff in Hok.
  destruct Hok as (Hr & Hh & Hu).
  rewrite (proj2 (constraints_ok_iff _)).
  - rewrite <- app_assoc. reflexivity.
  - cbn [scan_results scan_history cleared_tables] in *.
    repeat split; try assumption. apply Forall_app. split; assumption.
Qed.

Lemma scope_rows_cleared self tb :
  scope_rows (account_id self) (region self) (cleared_tables self tb) = [].
Proof.
  unfold scope_rows, cleared_tables. cbn [scan_results].
  induction (scan_results tb) as [|r l IH]; [reflexivity|].
  rewrite filter_cons. destruct (decide (in_scope self r = false)) as [Hr|Hr].
  - rewrite filter_cons_False; [exact IH|].
    rewrite <- in_scope_iff. congruence.
  - exact IH.
Qed.

Lemma other_rows_cleared self tb :
  other_rows (account_id self) (region self) (cleared_tables self tb)
  = other_rows (account_id self) (region self) tb.
Proof.
  unfold other_rows, cleared_tables. cbn [scan_results].
  induction (scan_results tb) as [|r l IH]; [reflexivity|].
  rewrite !filter_cons. destruct (decide (in_scope self r = false)) as [Hr|Hr].
  - rewrite filter_cons. rewrite IH. reflexivity.
  - rewrite decide_False; [exact IH|].
    intros Hn. apply Hr. apply not_true_is_false. rewrite in_scope_iff. exact Hn.
Qed.

Lemma scope_rows_new self now vs rows :
  Forall2 (stored_as self now) vs rows ->
  filter (λ r, ScanResult.account_id r = PStr (account_id self) ∧
               ScanResult.region r = PStr (region self)) rows = rows ∧
  filter (λ r, ¬ (ScanResult.account_id r = PStr (account_id self) ∧
                  ScanResult.region r = PStr (region self))) rows = [].
Proof.
  induction 1 as [|v r vs rows Hr _ [IH1 IH2]]; [split; reflexivity|].
  apply stored_as_in_scope, in_scope_iff in Hr.
  split.
  - rewrite filter_cons_True by exact Hr. rewrite IH1. reflexivity.
  - rewrite filter_cons_False by tauto. exact IH2.
Qed.

(** No category can be fetched: no checker reports anything. *)
Lemma all_violations_fetch_fails self :
  whole_scope_fetch_fails (clients self) -> all_violations self = [].
Proof.
  intros ([e1 H1] & (e2 & rest & H2) & [e3 H3] & [e4 H4] & [e5 H5]).
  unfold all_violations, scan_s3_encryption, scan_iam_policies,
    scan_security_groups, scan_cloudtrail_logging, scan_rds_encryption.
  rewrite H1, H2, H3, H4, H5. reflexivity.
Qed.

(** C5 (as amended).  The replacement of a scope's stored violations is
    carried out in two commits: the deletion of the scope's old rows is
    committed before the checkers run, and the rows of the new findings are
    committed after.  The state between the two commits, which any reader
    may observe, has no row for the scope, whatever the final result is;
    the final state holds one row per finding for the scope, and the rows
    of other scopes are the same in all three states. *)
Theorem replacement_in_two_commits self now db :
  fresh_session db ->
  ∃ db' mid,
    scan_all_resources self false now db = Ok db' ∧
    commit_log db' = commit_log db ++ [mid; committed db'] ∧
    scope_rows (account_id self) (region self) mid = [] ∧
    other_rows (account_id self) (region self) mid
      = other_rows (account_id self) (region self) (committed db) ∧
    Forall2 (stored_as self now) (all_violations self)
      (scope_rows (account_id self) (region self) (committed db')) ∧
    other_rows (account_id self) (region self) (committed db')
      = other_rows (account_id self) (region self) (committed db).
Proof.
  intros Hfresh.
  destruct (scan_all_resources_run self now db Hfresh) as (rows & Hrun & Hrows).
  eexists. exists (cleared_tables self (committed db)).
  split; [exact Hrun|]. cbn [commit_log committed].
  split; [reflexivity|].
  split; [apply scope_rows_cleared|].
  split; [apply other_rows_cleared|].
  destruct (scope_rows_new self now _ _ Hrows) as [Hin Hout].
  pose proof (scope_rows_cleared self (committed db)) as Hc.
  pose proof (other_rows_cleared self (committed db)) as Ho.
  unfold scope_rows, other_rows in *. cbn [scan_results] in *.
  rewrite !filter_app, Hin, Hout, Hc, Ho, app_nil_r. cbn [app].
  split; [exact Hrows | reflexivity].
Qed.

Lemma replacement_in_two_commits_witness :
  fresh_session (open_session Samples.stored_tables 1) ∧
  scope_rows "123456789012" "us-east-1" Samples.stored_tables
    = [Samples.high_row] ∧
  ∃ db' mid,
    scan_all_resources (Samples.scanner_of Samples.inventory_admin_user)
      false 2000 (open_session Samples.stored_tables 1) = Ok db' ∧
    commit_log db' = [mid; committed db'] ∧
    scope_rows "123456789012" "us-east-1" mid = [] ∧
    length (scope_rows "123456789012" "us-east-1" (committed db')) = 1.
Proof.
  assert (fresh_session (open_session Samples.stored_tables 1)) as Hfresh
    by (split; reflexivity).
  split; [exact Hfresh|]. split; [vm_compute; reflexivity|].
  destruct (replacement_in_two_commits
              (Samples.scanner_of Samples.inventory_admin_user) 2000
              (open_session Samples.stored_tables 1) Hfresh)
    as (db' & mid & Hrun & Hlog & Hmid & _ & Hnew & _).
  exists db', mid. repeat split; try assumption.
  apply Forall2_length in Hnew.
  transitivity
    (length (all_violations (Samples.scanner_of Samples.inventory_admin_user)));
    [symmetry; exact Hnew | vm_compute; reflexivity].
Defined.

(** C5 as stated fails: an account with one administrator is scanned
    twice; the scope holds one violation before the second cycle and one
    after it, and the state committed in between shows none. *)
Lemma reader_sees_empty_scope :
  ∃ before after,
    Samples.first_scan = Ok before ∧ Samples.second_scan = Ok after ∧
    length (scope_rows "123456789012" "us-east-1" (committed before)) = 1 ∧
    map (λ tb, length (scope_rows "123456789012" "us-east-1" tb))
        (commit_log after) = [0; 1].
Proof.
  eexists. eexists.
  split; [vm_compute; reflexivity|].
  split; [vm_compute; reflexivity|].
  split; vm_compute; reflexivity.
Qed.

(** The cycle when the clearing step itself raises and nothing is found:
    the rollback leaves the tables as they were. *)
Lemma scan_nothing_clear_raises self now db :
  fresh_session db -> all_violations self = [] ->
  scan_all_resources self true now db =
    Ok {| committed := committed db; view := committed db;
          commit_log := commit_log db ++ [committed db];
          uuid_seed := uuid_seed db |}.
Proof.
  intros [_ Hok] Hnone. unfold scan_all_resources, clear_old_results.
  rewrite Hnone. cbn [save_violations mbind result_bind]. unfold commit, rollback.
  cbn [view committed commit_log uuid_seed]. rewrite Hok. reflexivity.
Qed.

(** The endpoint always gets its scanner, with or without credentials; the
    cycle is the one of [scan_all_resources]. *)
Lemma scan_aws_runs_cycle inv account_id region clear_raises now db :
  Surfaces.scan_aws inv account_id region clear_raises now db
  = scan_all_resources
      {| account_id := account_id; region := region; clients := inv |}
      clear_raises now db.
Proof. reflexivity. Qed.

(** C3 (as amended).  When fetching the inventory fails for every category
    of the scope, the cycle is not aborted: each checker logs its error and
    reports nothing, and the cycle completes.  No ScanHistory row is
    written and the rows of other scopes are untouched, but the scope's
    previously stored violations were deleted and committed before the
    inventory was fetched, so the scope is left with no stored violation
    (they are kept only when the clearing step itself raised). *)
Theorem fetch_failure_outcome self clear_raises now db :
  fresh_session db ->
  whole_scope_fetch_fails (clients self) ->
  ∃ db',
    scan_all_resources self clear_raises now db = Ok db' ∧
    scan_history (committed db') = scan_history (committed db) ∧
    other_rows (account_id self) (region self) (committed db')
      = other_rows (account_id self) (region self) (committed db) ∧
    scope_rows (account_id self) (region self) (committed db')
      = if clear_raises
        then scope_rows (account_id self) (region self) (committed db)
        else [].
Proof.
  intros Hfresh Hfails.
  pose proof (all_violations_fetch_fails self Hfails) as Hnone.
  destruct clear_raises.
  - eexists. split; [apply (scan_nothing_clear_raises self now db Hfresh Hnone)|].
    cbn [committed]. auto.
  - destruct (scan_all_resources_run self now db Hfresh) as (rows & Hrun & Hrows).
    rewrite Hnone in Hrows. apply Forall2_nil_inv_l in Hrows. subst rows.
    eexists. split; [exact Hrun|]. cbn [committed scan_history].
    split; [reflexivity|].
    pose proof (scope_rows_cleared self (committed db)) as Hc.
    pose proof (other_rows_cleared self (committed db)) as Ho.
    unfold scope_rows, other_rows in *. cbn [scan_results] in *.
    rewrite !app_nil_r. auto.
Qed.

Lemma fetch_failure_outcome_witness :
  fresh_session (open_session Samples.stored_tables 1) ∧
  whole_scope_fetch_fails Samples.inventory_down ∧
  scope_rows "123456789012" "us-east-1" Samples.stored_tables
    = [Samples.high_row] ∧
  ∃ db',
    scan_all_resources (Samples.scanner_of Samples.inventory_down) false 2000
      (open_session Samples.stored_tables 1) = Ok db' ∧
    scan_history (committed db') = [] ∧
    scope_rows "123456789012" "us-east-1" (committed db') = [].
Proof.
  assert (fresh_session (open_session Samples.stored_tables 1)) as Hfresh
    by (split; reflexivity).
  assert (whole_scope_fetch_fails Samples.inventory_down) as Hdown
    by (unfold whole_scope_fetch_fails; repeat apply conj; repeat eexists).
  split; [exact Hfresh|]. split; [exact Hdown|].
  split; [vm_compute; reflexivity|].
  destruct (fetch_failure_outcome (Samples.scanner_of Samples.inventory_down)
              false 2000 (open_session Samples.stored_tables 1) Hfresh Hdown)
    as (db' & Hrun & Hhist & _ & Hscope).
  exists db'. auto.
Defined.

(** C3 as stated fails: a scan of an account with one administrator has
    stored one violation for the scope; the provider cannot be reached
    during the next cycle; the cycle completes, the stored violation is
    gone, and the dashboard reports 100. *)
Lemma fetch_failure_clears_scope :
  whole_scope_fetch_fails Samples.inventory_down ∧
  ∃ before after,
    Samples.first_scan = Ok before ∧ Samples.scan_while_down = Ok after ∧
    length (scope_rows "123456789012" "us-east-1" (committed before)) = 1 ∧
    scope_rows "123456789012" "us-east-1" (committed after) = [] ∧
    Surfaces.get_dashboard_score (committed after) = Ok 100%Q.
Proof.
  split; [unfold whole_scope_fetch_fails; repeat apply conj; repeat eexists|].
  eexists. eexists.
  split; [vm_compute; reflexivity|].
  split; [vm_compute; reflexivity|].
  repeat split; vm_compute; reflexivity.
Qed.

(** Whatever a manual cycle stores for its scope is stamped NEW and has no
    [first_detected]: nothing is carried over from the rows it replaced. *)
Lemma scan_all_resources_marks_new self now db :
  fresh_session db ->
  ∃ db',
    scan_all_resources self false now db = Ok db' ∧
    Forall (λ r, ScanResult.status r = PStr "NEW" ∧
                 ScanResult.first_detected r = PNone)
      (scope_rows (account_id self) (region self) (committed db')).
Proof.
  intros Hfresh.
  destruct (scan_all_resources_run self now db Hfresh) as (rows & Hrun & Hrows).
  eexists. split; [exact Hrun|]. cbn [committed].
  destruct (scope_rows_new self now _ _ Hrows) as [Hin _].
  pose proof (scope_rows_cleared self (committed db)) as Hc.
  unfold scope_rows in *. cbn [scan_results] in *.
  rewrite filter_app, Hin, Hc. cbn [app].
  clear Hin Hrun. induction Hrows as [|v r vs rows Hr _ IH]; constructor; auto.
  unfold stored_as in Hr. tauto.
Qed.

End AwsFacts.

(** ** The scheduled job and the configuration *)

Module SchedulerFacts.
Import Database Scheduler Props.

Section Firing.
Variable run_scanner : gmap string pyval -> result (list (gmap string pyval)).
Variable elapsed : gmap string pyval -> Z.

Lemma rollback_idem (db : Session) : rollback (rollback db) = rollback db.
Proof. reflexivity. Qed.

(** A scanner that raises makes the iteration raise. *)
Lemma scan_account_raises account st e :
  run_scanner account = Raise e ->
  scan_account run_scanner elapsed account st = Raise e.
Proof.
  intros Hraise. destruct st as [db now].
  unfold scan_account, fresh_uuid. rewrite Hraise. reflexivity.
Qed.

(** The loop never gets past a target whose iteration raises, whether the
    scanner call, the saving of its results or the commit raised. *)
Lemma scan_accounts_stops pre account post st e :
  scan_account run_scanner elapsed account
    (scan_accounts run_scanner elapsed pre st) = Raise e ->
  scan_accounts run_scanner elapsed (pre ++ account :: post) st =
  (rollback (fst (scan_accounts run_scanner elapsed pre st)),
   snd (scan_accounts run_scanner elapsed pre st)).
Proof.
  revert st. induction pre as [|p pre IH]; intros st; cbn [app scan_accounts].
  - intros Hraise. rewrite Hraise. reflexivity.
  - destruct (scan_account run_scanner elapsed p st) as [st'|e'].
    + apply IH.
    + intros _. reflexivity.
Qed.

Lemma targets_reached_stops pre account post st e :
  scan_account run_scanner elapsed account
    (scan_accounts run_scanner elapsed pre st) = Raise e ->
  targets_reached run_scanner elapsed (pre ++ account :: post) st
    `prefix_of` pre ++ [account].
Proof.
  revert st. induction pre as [|p pre IH]; intros st;
    cbn [app scan_accounts targets_reached].
  - intros Hraise. rewrite Hraise. reflexivity.
  - destruct (scan_account run_scanner elapsed p st) as [st'|e'].
    + intros Hraise. apply prefix_cons, IH, Hraise.
    + intros _. apply prefix_cons, prefix_nil.
Qed.

Lemma save_results_history scan_id account_id region now results db db' :
  save_results scan_id account_id region now results db = Ok db' ->
  scan_history (view db') = scan_history (view db) ∧
  committed db' = committed db.
Proof.
  revert db. induction results as [|r rest IH]; intros db; cbn [save_results].
  - intros [= <-]. split; reflexivity.
  - destruct (scheduled_result_of scan_id account_id region now r) as [mk|e];
      cbn [mbind result_bind]; [|discriminate].
    intros Hrest. apply IH in Hrest as [Hh Hc]. rewrite Hh, Hc.
    split; reflexivity.
Qed.

(** An iteration that completes has committed exactly one more ScanHistory
    row, with [triggered_by = scheduled], for its own account. *)
Lemma scan_account_history account db now st' :
  scan_account run_scanner elapsed account (db, now) = Ok st' ->
  ∃ h, scan_history (committed (fst st')) = scan_history (view db) ++ [h] ∧
       ScanHistory.triggered_by h = "scheduled" ∧
       ScanHistory.account_id h = dict_get account "account_id" PNone ∧
       ScanHistory.region h = dict_get account "region" PNone.
Proof.
  unfold scan_account, fresh_uuid.
  destruct (run_scanner account) as [results|e]; cbn [mbind result_bind];
    [|discriminate].
  destruct (save_results _ _ _ _ results _) as [db1|e] eqn:Hsave;
    cbn [mbind result_bind]; [|discriminate].
  apply save_results_history in Hsave as [Hh _]. cbn [view] in Hh.
  destruct (non_compliant results) as [violations|e];
    cbn [mbind result_bind]; [|discriminate].
  destruct (history_score _ _) as [score|e]; cbn [mbind result_bind];
    [|discriminate].
  unfold commit. destruct (constraints_ok _); cbn [mbind result_bind];
    [|discriminate].
  intros [= <-]. cbn [fst committed add_history view scan_history].
  rewrite Hh. eexists. split; [reflexivity|]. cbn. auto.
Qed.

(** C6 (as amended).  In a scheduled firing with monitoring enabled, a
    failure while one target is processed (the scanner call, the saving of
    its results or the commit) ends the firing: the exception is handled
    outside the loop over the targets, the session is rolled back, and the
    targets after the failing one are not reached.  The database is left
    as the targets before the failing one left it. *)
Theorem failure_ends_firing w config pre account post e :
  config_file w = Some config ->
  enabled config = true ->
  accounts config = pre ++ account :: post ->
  scan_account run_scanner elapsed account
    (scan_accounts run_scanner elapsed pre (rollback (store w), clock w))
    = Raise e ->
  store (scheduled_scan_job run_scanner elapsed w) =
    rollback (fst (scan_accounts run_scanner elapsed pre
                     (rollback (store w), clock w))) ∧
  targets_reached run_scanner elapsed (pre ++ account :: post)
    (rollback (store w), clock w) `prefix_of` pre ++ [account].
Proof.
  intros Hfile Hen Hacc Hraise. split.
  - unfold scheduled_scan_job, load_config. rewrite Hfile. cbn [from_option id].
    rewrite Hen, Hacc. cbn [negb].
    pose proof (scan_accounts_stops pre account post
                  (rollback (store w), clock w) e Hraise) as Hstop.
    destruct pre as [|p pre]; cbn [app] in *; rewrite Hstop;
      cbn [store set_store]; apply rollback_idem.
  - eapply targets_reached_stops. exact Hraise.
Qed.

End Firing.

(** The call the job makes with the [AWSScanner] of
    [scanners/aws_scanner.py] raises for every target. *)
Lemma aws_scanner_call_raises account :
  aws_scanner_call account
  = Raise (TypeError "__init__() got an unexpected keyword argument 'access_key'").
Proof. reflexivity. Qed.

Lemma failure_ends_firing_witness :
  scan_account aws_scanner_call (λ _, 0%Z)
    (Samples.account "111111111111" "us-east-1")
    (rollback (open_session Samples.empty_tables 0), 1000%Z)
    = Raise (TypeError "__init__() got an unexpected keyword argument 'access_key'") ∧
  store (scheduled_scan_job aws_scanner_call (λ _, 0%Z)
           (Samples.monitored Samples.two_accounts))
    = rollback (open_session Samples.empty_tables 0) ∧
  targets_reached aws_scanner_call (λ _, 0%Z) Samples.two_accounts
    (rollback (open_session Samples.empty_tables 0), 1000%Z)
    `prefix_of` [Samples.account "111111111111" "us-east-1"].
Proof.
  assert (scan_account aws_scanner_call (λ _, 0%Z)
            (Samples.account "111111111111" "us-east-1")
            (rollback (open_session Samples.empty_tables 0), 1000%Z)
          = Raise (TypeError
              "__init__() got an unexpected keyword argument 'access_key'"))
    as Hraise by (vm_compute; reflexivity).
  split; [exact Hraise|].
  apply (failure_ends_firing aws_scanner_call (λ _, 0%Z)
           (Samples.monitored Samples.two_accounts) _ []
           (Samples.account "111111111111" "us-east-1")
           [Samples.account "222222222222" "eu-west-1"]
           _ eq_refl eq_refl eq_refl Hraise).
Defined.

(** C6 as stated fails.  With the scanner call that [scheduler.py] makes,
    the first of two targets fails; the second is never reached and no
    ScanHistory record is written. *)
Lemma later_target_not_scanned :
  scan_account aws_scanner_call (λ _, 0%Z)
    (Samples.account "111111111111" "us-east-1")
    (rollback (open_session Samples.empty_tables 0), 1000%Z)
    = Raise (TypeError "__init__() got an unexpected keyword argument 'access_key'") ∧
  targets_reached aws_scanner_call (λ _, 0%Z) Samples.two_accounts
    (rollback (open_session Samples.empty_tables 0), 1000%Z)
    = [Samples.account "111111111111" "us-east-1"] ∧
  scan_history (committed (store
    (scheduled_scan_job aws_scanner_call (λ _, 0%Z)
       (Samples.monitored Samples.two_accounts)))) = [].
Proof. repeat split; vm_compute; reflexivity. Qed.

(** The same with a scanner call that cannot reach the first account and
    answers for the second: the second target, which scanned alone gets its
    ScanHistory record, gets none in a firing that begins with the first. *)
Lemma later_target_loses_record :
  Samples.first_fails (Samples.account "111111111111" "us-east-1")
    = Raise Samples.unreachable ∧
  length (scan_history (committed (store
    (scheduled_scan_job Samples.first_fails (λ _, 5%Z)
       (Samples.monitored [Samples.account "222222222222" "eu-west-1"]))))) = 1 ∧
  scan_history (committed (store
    (scheduled_scan_job Samples.first_fails (λ _, 5%Z)
       (Samples.monitored Samples.two_accounts)))) = [].
Proof. repeat split; vm_compute; reflexivity. Qed.

(** With the [AWSScanner] of [scanners/aws_scanner.py] a firing reaches at
    most its first target and changes nothing but the session it opened. *)
Lemma scheduled_job_with_aws_scanner elapsed w :
  scheduled_scan_job aws_scanner_call elapsed w = w ∨
  scheduled_scan_job aws_scanner_call elapsed w
    = set_store (rollback (store w)) (clock w) w.
Proof.
  unfold scheduled_scan_job.
  destruct (negb (enabled (load_config w))); [left; reflexivity|].
  destruct (accounts (load_config w)) as [|a rest]; [left; reflexivity|].
  right. cbn [scan_accounts].
  rewrite (scan_account_raises aws_scanner_call elapsed a _ _
             (aws_scanner_call_raises a)).
  reflexivity.
Qed.

(** C2 fails on the code.  An account with one administrator is scanned
    twice by the manual cycle, nothing having changed: the violation found
    again is stored with status NEW, not EXISTING, and [first_detected] is
    not set, the second time as the first.  It is so for every inventory:
    whatever a manual cycle stores for its scope has status NEW and no
    [first_detected].  The scheduled job, which would stamp its rows NEW
    with the time of the firing, stores no row at all with the scanner
    call that [scheduler.py] makes. *)
Theorem rescan_resets_detection :
  (∃ db1 db2,
     Samples.first_scan = Ok db1 ∧ Samples.second_scan = Ok db2 ∧
     map (λ r, (identity r, ScanResult.first_detected r, ScanResult.status r))
         (scan_results (committed db1))
       = [((PStr "alice", PStr "Overly Permissive IAM Policy"),
           PNone, PStr "NEW")] ∧
     map (λ r, (identity r, ScanResult.first_detected r, ScanResult.status r))
         (scan_results (committed db2))
       = [((PStr "alice", PStr "Overly Permissive IAM Policy"),
           PNone, PStr "NEW")]) ∧
  (∀ self now db,
     fresh_session db ->
     ∃ db',
       AwsScanner.scan_all_resources self false now db = Ok db' ∧
       Forall (λ r, ScanResult.status r = PStr "NEW" ∧
                    ScanResult.first_detected r = PNone)
         (scope_rows (AwsScanner.account_id self) (AwsScanner.region self)
            (committed db'))) ∧
  (∀ elapsed w,
     scan_results (committed (store (scheduled_scan_job aws_scanner_call elapsed w)))
     = scan_results (committed (store w))).
Proof.
  split; [|split].
  - eexists. eexists.
    split; [vm_compute; reflexivity|].
    split; [vm_compute; reflexivity|].
    split; vm_compute; reflexivity.
  - intros self now db Hfresh.
    apply AwsFacts.scan_all_resources_marks_new. exact Hfresh.
  - intros elapsed w.
    destruct (scheduled_job_with_aws_scanner elapsed w) as [-> | ->];
      reflexivity.
Qed.

Section Configuring.
Variable IntervalTrigger : Z -> result Z.

(** C7 (as amended).  A configure call validates nothing: an interval
    [interval_hours <= 0] or a malformed target is taken like any other
    value.  With [enabled = false], or when the timer library accepts the
    interval, the call returns the new configuration and that configuration
    is what is persisted (when the file can be written).  The call fails
    only when the timer library refuses the interval; the exception then
    propagates, the persisted configuration is unchanged and the timer has
    already been removed. *)
Theorem configure_monitoring_outcome enabled interval_hours accounts w :
  let config :=
    {| Scheduler.enabled := enabled;
       Scheduler.interval_hours := interval_hours;
       Scheduler.accounts :=
         default (Scheduler.accounts (load_config w)) accounts |} in
  match (if enabled then IntervalTrigger interval_hours else Ok 0%Z) with
  | Ok _ =>
      fst (configure_monitoring IntervalTrigger enabled interval_hours accounts w)
        = Ok config ∧
      config_file (snd (configure_monitoring IntervalTrigger enabled
                          interval_hours accounts w))
        = if config_writable w then Some config else config_file w
  | Raise e =>
      fst (configure_monitoring IntervalTrigger enabled interval_hours accounts w)
        = Raise e ∧
      config_file (snd (configure_monitoring IntervalTrigger enabled
                          interval_hours accounts w))
        = config_file w ∧
      jobs (snd (configure_monitoring IntervalTrigger enabled
                   interval_hours accounts w)) = []
  end.
Proof.
  cbv zeta. unfold configure_monitoring, save_config.
  destruct enabled.
  - destruct (IntervalTrigger interval_hours) as [t|e]; cbn [mbind result_bind].
    + cbn [set_jobs config_writable config_file].
      destruct (config_writable w); split; reflexivity.
    + repeat split; reflexivity.
  - cbn [set_jobs config_writable config_file].
    destruct (config_writable w); split; reflexivity.
Qed.

End Configuring.

(** Stopping removes the timer and keeps the interval and the targets. *)
Lemma stop_monitoring_keeps_settings w :
  config_writable w = true ->
  jobs (stop_monitoring w) = [] ∧
  config_file (stop_monitoring w) =
    Some {| enabled := false;
            interval_hours := interval_hours (load_config w);
            accounts := accounts (load_config w) |}.
Proof.
  intros Hw. unfold stop_monitoring, save_config. rewrite Hw.
  split; reflexivity.
Qed.

(** The endpoint passes its arguments on unchecked as well. *)
Example post_configure_zero_interval :
  fst (Surfaces.post_monitoring_configure Samples.lenient_trigger true 0
         (Some "123456789012") (Some "us-east-1") Samples.idle_world)
  = Ok {| enabled := true; interval_hours := 0;
          accounts := [Samples.account "123456789012" "us-east-1"] |}.
Proof. vm_compute. reflexivity. Qed.

(** C7 as stated fails: an interval of 0 hours, and a target that names no
    account, are accepted and written to the persisted configuration. *)
Lemma invalid_configuration_accepted :
  (fst (configure_monitoring Samples.lenient_trigger false 0 None Samples.idle_world)
     = Ok {| enabled := false; interval_hours := 0; accounts := [] |} ∧
   config_file (snd (configure_monitoring Samples.lenient_trigger false 0 None
                       Samples.idle_world))
     = Some {| enabled := false; interval_hours := 0; accounts := [] |} ∧
   config_file Samples.idle_world = Some DEFAULT_CONFIG) ∧
  (fst (configure_monitoring Samples.lenient_trigger false 24 (Some [∅])
          Samples.idle_world)
     = Ok {| enabled := false; interval_hours := 24; accounts := [∅] |} ∧
   config_file (snd (configure_monitoring Samples.lenient_trigger false 24
                       (Some [∅]) Samples.idle_world))
     = Some {| enabled := false; interval_hours := 24; accounts := [∅] |}).
Proof. repeat split; reflexivity. Qed.

End SchedulerFacts.

(** ** Which score each surface shows *)

Module SurfaceFacts.
Import Database Float64 Surfaces Props.

Lemma compliant_complement (rows : list ScanResult.t) :
  (Z.of_nat (length rows)
   - Z.of_nat (length (filter (λ r, truthy (ScanResult.is_compliant r) = false) rows))
   = count_compliant rows)%Z.
Proof.
  unfold count_compliant.
  induction rows as [|r rows IH]; [reflexivity|].
  rewrite !filter_cons.
  destruct (truthy (ScanResult.is_compliant r)) eqn:Hc.
  - rewrite decide_False by discriminate. rewrite decide_True by reflexivity.
    cbn [length]. lia.
  - rewrite decide_True by reflexivity. rewrite decide_False by discriminate.
    cbn [length]. lia.
Qed.

(** C8 (as amended).  Both score formulas are implemented, and they are
    not merged; but every surface that shows a compliance score shows the
    resource-coverage score [compliant / total * 100]: the executive
    summary of the report (formatted with one decimal and a percent sign),
    the dashboard (rounded to two decimals, 100 on an empty table) and the
    ScanHistory record (truncated to an integer, 100 when nothing was
    scanned).  The severity-weighted score is computed by
    [get_compliance_score] only. *)
Theorem surfaces_show_coverage (results : list ScanResult.t) (tb : Tables)
    (compliant_count total_resources : Z) :
  generate_pdf_summary results =
    match results with
    | [] => Raise (ValueError "No scan results found")
    | _ => Ok (format_1f (Spec.coverage (count_compliant results)
                            (Z.of_nat (length results))) +:+ "%")
    end ∧
  get_dashboard_score tb =
    match scan_results tb with
    | [] => Ok 100%Q
    | rows => Ok (round2 (Spec.coverage (count_compliant rows)
                            (Z.of_nat (length rows))))
    end ∧
  Scheduler.history_score compliant_count total_resources =
    if (0 <? total_resources)%Z
    then Ok (trunc (Spec.coverage compliant_count total_resources))
    else Ok 100%Z.
Proof.
  split; [|split].
  - destruct results as [|r rest]; [reflexivity|].
    unfold generate_pdf_summary, generate_pdf_score.
    rewrite compliant_complement.
    set (rows := r :: rest).
    assert ((0 <? Z.of_nat (length rows))%Z = true) as Hpos
      by (apply Z.ltb_lt; subst rows; cbn [length]; lia).
    rewrite Hpos. unfold truediv.
    rewrite (proj2 (Z.eqb_neq _ 0)) by (apply Z.ltb_lt in Hpos; lia).
    reflexivity.
  - unfold get_dashboard_score.
    destruct (scan_results tb) as [|r rest]; [reflexivity|].
    set (rows := r :: rest).
    assert ((0 <? Z.of_nat (length rows))%Z = true) as Hpos
      by (apply Z.ltb_lt; subst rows; cbn [length]; lia).
    rewrite Hpos. unfold truediv.
    rewrite (proj2 (Z.eqb_neq _ 0)) by (apply Z.ltb_lt in Hpos; lia).
    reflexivity.
  - unfold Scheduler.history_score.
    destruct (0 <? total_resources)%Z eqn:Hpos; [|reflexivity].
    unfold truediv.
    rewrite (proj2 (Z.eqb_neq _ 0)) by (apply Z.ltb_lt in Hpos; lia).
    reflexivity.
Qed.

(** C8 as stated fails: for one stored HIGH violation the report's summary
    shows 0.0%, the coverage score, where the severity-weighted score of
    the same violation is 30.0; and for one compliant row among three it
    shows 33.3%, the coverage score with one decimal. *)
Lemma report_shows_coverage_not_weighted :
  generate_pdf_summary [Samples.high_row] = Ok "0.0%" ∧
  ComplianceFramework.get_compliance_score
    [ScanResult.to_dict Samples.high_row] = Ok 30%Q ∧
  generate_pdf_summary [Samples.high_row] ≠ Ok (format_1f 30 +:+ "%") ∧
  generate_pdf_summary
    [Samples.compliant_row; Samples.high_row; Samples.high_row] = Ok "33.3%".
Proof.
  assert (generate_pdf_summary [Samples.high_row] = Ok "0.0%") as Hreport
    by (vm_compute; reflexivity).
  assert (format_1f 30 +:+ "%" = "30.0%") as Hweighted
    by (vm_compute; reflexivity).
  split; [exact Hreport|]. split; [vm_compute; reflexivity|].
  split; [rewrite Hreport, Hweighted; discriminate | vm_compute; reflexivity].
Qed.

End SurfaceFacts.

(** ** Binary64 rounding: exactness and order *)

Module Float64Order.
Import Float64 Float64Facts.
Local Open Scope Q_scope.

Lemma pow2_Qpower (e : Z) : pow2 e == 2 ^ e.
Proof.
  destruct e as [|p|p]; unfold pow2.
  - reflexivity.
  - apply (Zpower_Qpower 2 (Z.pos p)). lia.
  - change (2 ^ Z.neg p) with (/ (2 ^ Z.pos p)).
    rewrite <- (Zpower_Qpower 2 (Z.pos p)) by lia.
    rewrite <- Pos2Z.inj_pow. reflexivity.
Qed.

Lemma pow2_le_mono (a b : Z) : (a <= b)%Z -> pow2 a <= pow2 b.
Proof.
  intros H. rewrite !pow2_Qpower. apply Qpower_le_compat_l; [exact H|lra].
Qed.

Lemma pow2_lt_inv (a b : Z) : pow2 a < pow2 b -> (a < b)%Z.
Proof.
  rewrite !pow2_Qpower. intros H.
  apply (Qpower_lt_compat_l_inv 2); [exact H|lra].
Qed.

Lemma pow2_add (a b : Z) : pow2 (a + b) == pow2 a * pow2 b.
Proof. rewrite !pow2_Qpower. apply Qpower_plus. lra. Qed.

Lemma pow2_succ (a : Z) : pow2 (a + 1) == 2 * pow2 a.
Proof. rewrite pow2_add. change (pow2 1) with 2. ring. Qed.

Lemma pow2_pred (a : Z) : pow2 (a - 1) == pow2 a * (1 # 2).
Proof.
  pose proof (pow2_succ (a - 1)) as H.
  replace (a - 1 + 1)%Z with a in H by lia. rewrite H. ring.
Qed.

Lemma pow2_nonneg_exp (k : Z) : (0 <= k)%Z -> pow2 k = inject_Z (2 ^ k).
Proof. destruct k; [reflexivity | reflexivity | lia]. Qed.

Lemma log2_bounds_Q (a : Z) :
  (0 < a)%Z ->
  pow2 (Z.log2 a) <= inject_Z a < 2 * pow2 (Z.log2 a).
Proof.
  intros Ha. pose proof (Z.log2_spec a Ha) as [H1 H2].
  pose proof (Z.log2_nonneg a) as Hl.
  rewrite Z.pow_succ_r in H2 by exact Hl.
  rewrite pow2_nonneg_exp by exact Hl.
  rewrite Zle_Qle in H1. rewrite Zlt_Qlt, inject_Z_mult in H2.
  split; assumption.
Qed.

(** [ilog2] is the floor of the binary logarithm. *)
Lemma ilog2_spec (q : Q) : 0 < q -> pow2 (ilog2 q) <= q < pow2 (ilog2 q + 1).
Proof.
  intros Hpos. destruct q as [a b].
  assert (0 < a)%Z as Ha by (unfold Qlt in Hpos; cbn in Hpos; lia).
  pose proof (log2_bounds_Q a Ha) as [HA1 HA2].
  pose proof (log2_bounds_Q (Z.pos b) ltac:(lia)) as [HB1 HB2].
  set (la := Z.log2 a) in *. set (lb := Z.log2 (Z.pos b)) in *.
  assert (pow2 la == pow2 (la - lb) * pow2 lb) as Hsplit.
  { rewrite <- pow2_add. replace (la - lb + lb)%Z with la by lia. reflexivity. }
  pose proof (pow2_pos lb) as Hplb. pose proof (pow2_pos (la - lb)) as Hpe.
  set (A := inject_Z a) in *. set (B := inject_Z (Z.pos b)) in *.
  set (pe := pow2 (la - lb)) in *. set (pb := pow2 lb) in *.
  assert (0 < B) as HB0 by lra.
  assert (pe * (1 # 2) < A / B) as Hlow.
  { apply Qlt_shift_div_l; [exact HB0|].
    assert (0 < pe * (2 * pb - B)) by (apply Qmult_lt_0_compat; lra).
    clearbody pe pb A B. lra. }
  assert (A / B < 2 * pe) as Hhigh.
  { apply Qlt_shift_div_r; [exact HB0|].
    assert (0 <= pe * (B - pb)) by (apply Qmult_le_0_compat; lra).
    clearbody pe pb A B. lra. }
  assert (a # b == A / B) as Hq by (subst A B; apply Qmake_Qdiv).
  rewrite <- Hq in Hlow, Hhigh.
  unfold ilog2. cbn [Qnum Qden]. fold la lb. fold pe.
  destruct (Qle_bool pe (a # b)) eqn:Hc.
  - apply Qle_bool_iff in Hc. rewrite pow2_succ. fold pe.
    clear Hq. split; lra.
  - assert (¬ pe <= a # b) as Hn
      by (intros H; apply Qle_bool_iff in H; congruence).
    apply Qnot_le_lt in Hn.
    replace (la - lb - 1 + 1)%Z with (la - lb)%Z by lia.
    rewrite pow2_pred. fold pe. clear Hq. split; lra.
Qed.

Lemma ilog2_unique (q : Q) (e : Z) :
  pow2 e <= q < pow2 (e + 1) -> 0 < q -> ilog2 q = e.
Proof.
  intros [H1 H2] Hpos. destruct (ilog2_spec q Hpos) as [H3 H4].
  assert (e < ilog2 q + 1)%Z by (apply pow2_lt_inv; lra).
  assert (ilog2 q < e + 1)%Z by (apply pow2_lt_inv; lra).
  lia.
Qed.

Lemma ilog2_mono (q1 q2 : Q) : 0 < q1 -> q1 <= q2 -> (ilog2 q1 <= ilog2 q2)%Z.
Proof.
  intros Hpos Hle.
  destruct (ilog2_spec q1 Hpos) as [H1 _].
  destruct (ilog2_spec q2 ltac:(lra)) as [_ H2].
  assert (ilog2 q1 < ilog2 q2 + 1)%Z by (apply pow2_lt_inv; lra).
  lia.
Qed.

Lemma ilog2_proper (q q' : Q) : 0 < q -> q == q' -> ilog2 q = ilog2 q'.
Proof.
  intros Hpos Heq. apply ilog2_unique; [|exact Hpos].
  rewrite Heq. apply ilog2_spec. rewrite <- Heq. exact Hpos.
Qed.

Lemma RNE_proper (q q' : Q) : q == q' -> RNE q = RNE q'.
Proof.
  intros Heq. unfold RNE. rewrite (Qfloor_comp _ _ Heq).
  rewrite (Qcompare_comp (q - inject_Z (Qfloor q')) (q' - inject_Z (Qfloor q'))
             ltac:(rewrite Heq; reflexivity) (1 # 2) (1 # 2) ltac:(reflexivity)).
  reflexivity.
Qed.

Lemma ulp_exp_pos (q : Q) : 0 < q -> ulp_exp q = Z.max (ilog2 q - 52) (-1074).
Proof.
  intros Hpos. unfold ulp_exp.
  rewrite (ilog2_proper (Qabs q) q); [reflexivity| |apply Qabs_pos; lra].
  rewrite Qabs_pos; lra.
Qed.

Lemma b64_pos (q : Q) :
  0 < q -> b64 q == inject_Z (RNE (q / pow2 (ulp_exp q))) * pow2 (ulp_exp q).
Proof.
  intros Hpos. unfold b64.
  destruct (Qeq_bool q 0) eqn:Hz.
  - apply Qeq_bool_iff in Hz. lra.
  - apply Qred_correct.
Qed.

(** Two fractions of the same value round to the same float. *)
Lemma b64_proper (q q' : Q) : q == q' -> b64 q = b64 q'.
Proof.
  intros Heq. unfold b64.
  rewrite (Qeqb_comp _ _ Heq 0 0 ltac:(reflexivity)).
  destruct (Qeq_bool q' 0) eqn:Hz; [reflexivity|].
  apply Qeq_bool_neq in Hz.
  assert (ulp_exp q = ulp_exp q') as ->.
  { unfold ulp_exp. f_equal. f_equal. apply ilog2_proper.
    - destruct (Qlt_le_dec 0 (Qabs q)) as [|Hle]; [assumption|].
      exfalso. apply Hz. rewrite <- Heq. revert Hle.
      apply Qabs_case; intros; lra.
    - rewrite Heq. reflexivity. }
  apply Qred_complete.
  rewrite (RNE_proper (q / pow2 (ulp_exp q')) (q' / pow2 (ulp_exp q')))
    by (rewrite Heq; reflexivity).
  reflexivity.
Qed.

Lemma RNE_Z (z : Z) : RNE (inject_Z z) = z.
Proof.
  unfold RNE. rewrite Qfloor_Z.
  assert (Qcompare (inject_Z z - inject_Z z) (1 # 2) = Lt) as ->.
  { apply (proj1 (Qlt_alt _ _)). lra. }
  reflexivity.
Qed.

Lemma RNE_bounds (x : Q) : (Qfloor x <= RNE x <= Qfloor x + 1)%Z.
Proof.
  unfold RNE. destruct (Qcompare _ _); [destruct (Z.even _)| |]; lia.
Qed.

Ltac qcompare_in H :=
  match type of H with
  | Qcompare _ _ = Eq => apply (proj2 (Qeq_alt _ _)) in H
  | Qcompare _ _ = Lt => apply (proj2 (Qlt_alt _ _)) in H
  | Qcompare _ _ = Gt => apply (proj2 (Qgt_alt _ _)) in H
  end.

Lemma RNE_mono (x y : Q) : x <= y -> (RNE x <= RNE y)%Z.
Proof.
  intros Hle. pose proof (Qfloor_resp_le x y Hle) as Hf.
  destruct (Z.eq_dec (Qfloor x) (Qfloor y)) as [Heq|Hne].
  - unfold RNE. rewrite Heq.
    destruct (Qcompare (x - inject_Z (Qfloor y)) (1 # 2)) eqn:Hx;
      destruct (Qcompare (y - inject_Z (Qfloor y)) (1 # 2)) eqn:Hy;
      try (destruct (Z.even (Qfloor y))); try lia;
      qcompare_in Hx; qcompare_in Hy; lra.
  - pose proof (RNE_bounds x). pose proof (RNE_bounds y). lia.
Qed.

Lemma b64_nonneg (q : Q) : 0 <= q -> 0 <= b64 q.
Proof.
  intros Hq. unfold b64. destruct (Qeq_bool q 0); [lra|].
  rewrite Qred_correct.
  pose proof (pow2_pos (ulp_exp q)) as Hp.
  apply Qmult_le_0_compat; [|lra].
  change 0 with (inject_Z 0). rewrite <- Zle_Qle.
  rewrite <- (RNE_Z 0). apply RNE_mono. change (inject_Z 0) with 0.
  apply Qle_shift_div_l; lra.
Qed.

(** A positive value in the normal range is not rounded below the power of
    two under it, and no positive value is rounded above the next one. *)
Lemma b64_lower (q : Q) :
  0 < q -> (-1074 <= ilog2 q - 52)%Z -> pow2 (ilog2 q) <= b64 q.
Proof.
  intros Hpos Hnormal. rewrite (b64_pos q Hpos), (ulp_exp_pos q Hpos).
  rewrite Z.max_l by lia.
  destruct (ilog2_spec q Hpos) as [Hlo _].
  set (e := ilog2 q) in *. pose proof (pow2_pos (e - 52)) as Hp.
  assert (pow2 e == inject_Z (2 ^ 52) * pow2 (e - 52)) as Hsplit.
  { rewrite <- (pow2_nonneg_exp 52) by lia. rewrite <- pow2_add.
    replace (52 + (e - 52))%Z with e by lia. reflexivity. }
  assert (2 ^ 52 <= RNE (q / pow2 (e - 52)))%Z as Hr.
  { rewrite <- (RNE_Z (2 ^ 52)) at 1. apply RNE_mono.
    apply Qle_shift_div_l; [exact Hp|]. rewrite <- Hsplit. exact Hlo. }
  rewrite Zle_Qle in Hr. rewrite Hsplit.
  apply Qmult_le_compat_r; [exact Hr|lra].
Qed.

Lemma b64_upper (q : Q) : 0 < q -> b64 q <= pow2 (ilog2 q + 1).
Proof.
  intros Hpos. rewrite (b64_pos q Hpos), (ulp_exp_pos q Hpos).
  destruct (ilog2_spec q Hpos) as [_ Hhi].
  set (e := ilog2 q) in *. set (u := Z.max (e - 52) (-1074)).
  pose proof (pow2_pos u) as Hp.
  destruct (Z_lt_le_dec (e + 1 - u) 0) as [Hneg|Hk].
  - assert (RNE (q / pow2 u) <= 0)%Z as Hr.
    { change 0%Z with (RNE (1 # 2)). apply RNE_mono.
      apply Qle_shift_div_r; [exact Hp|].
      assert (pow2 (e + 1) <= pow2 (u - 1)) as Hm by (apply pow2_le_mono; lia).
      rewrite pow2_pred in Hm. lra. }
    rewrite Zle_Qle in Hr. pose proof (pow2_pos (e + 1)).
    assert (inject_Z (RNE (q / pow2 u)) * pow2 u <= 0 * pow2 u)
      by (apply Qmult_le_compat_r; [exact Hr|lra]).
    lra.
  - assert (pow2 (e + 1) == inject_Z (2 ^ (e + 1 - u)) * pow2 u) as Hsplit.
    { rewrite <- (pow2_nonneg_exp (e + 1 - u)) by lia. rewrite <- pow2_add.
      replace (e + 1 - u + u)%Z with (e + 1)%Z by lia. reflexivity. }
    assert (RNE (q / pow2 u) <= 2 ^ (e + 1 - u))%Z as Hr.
    { rewrite <- (RNE_Z (2 ^ (e + 1 - u))) at 1. apply RNE_mono.
      apply Qle_shift_div_r; [exact Hp|]. rewrite <- Hsplit. lra. }
    rewrite Zle_Qle in Hr. rewrite Hsplit.
    apply Qmult_le_compat_r; [exact Hr|lra].
Qed.

(** Rounding keeps the order of non-negative values. *)
Lemma b64_mono (q1 q2 : Q) : 0 <= q1 -> q1 <= q2 -> b64 q1 <= b64 q2.
Proof.
  intros H0 Hle.
  destruct (Qlt_le_dec 0 q1) as [Hpos|Hz].
  - assert (0 < q2) as Hpos2 by lra.
    pose proof (ilog2_mono q1 q2 Hpos Hle) as He.
    destruct (Z.eq_dec (ulp_exp q1) (ulp_exp q2)) as [Hu|Hu].
    + rewrite (b64_pos q1 Hpos), (b64_pos q2 Hpos2), Hu.
      pose proof (pow2_pos (ulp_exp q2)) as Hp.
      apply Qmult_le_compat_r; [|lra].
      rewrite <- Zle_Qle. apply RNE_mono.
      apply Qle_shift_div_l; [exact Hp|].
      assert (q1 / pow2 (ulp_exp q2) * pow2 (ulp_exp q2) == q1) as ->
        by (field; lra).
      exact Hle.
    + rewrite (ulp_exp_pos q1 Hpos), (ulp_exp_pos q2 Hpos2) in Hu.
      apply Qle_trans with (pow2 (ilog2 q1 + 1)); [apply b64_upper; exact Hpos|].
      apply Qle_trans with (pow2 (ilog2 q2));
        [apply pow2_le_mono; lia | apply b64_lower; [exact Hpos2 | lia]].
  - assert (q1 == 0) as Hq by lra. rewrite (b64_proper q1 0 Hq).
    change (b64 0) with 0. apply b64_nonneg. lra.
Qed.

Lemma round2_mono (x y : Q) : 0 <= x -> x <= y -> round2 x <= round2 y.
Proof.
  intros H0 Hle. unfold round2.
  assert (0 <= RNE (x * 100))%Z as Hr0.
  { rewrite <- (RNE_Z 0). apply RNE_mono. change (inject_Z 0) with 0. lra. }
  assert (RNE (x * 100) <= RNE (y * 100))%Z as Hr by (apply RNE_mono; lra).
  rewrite Zle_Qle in Hr0, Hr. change (inject_Z 0) with 0 in Hr0.
  apply b64_mono.
  - apply Qle_shift_div_l; lra.
  - apply Qmult_le_compat_r; [exact Hr|]. apply Qinv_le_0_compat. lra.
Qed.

Lemma max0_mono (x y : Q) : x <= y -> max0 x <= max0 y.
Proof.
  intros Hle. unfold max0.
  destruct (Qlt_le_dec 0 x), (Qlt_le_dec 0 y); lra.
Qed.

End Float64Order.

(** ** The severity-weighted score: range, extremes and order *)

Module ScoreFacts.
Import Float64 Float64Facts Float64Order ComplianceFramework ComplianceFacts Terms.
Local Open Scope Q_scope.

Lemma score_of_eq (v : gmap string pyval) (rest : list (gmap string pyval)) :
  Spec.score (v :: rest)
  = score_of (Spec.sum_weights (v :: rest)) (Z.of_nat (length (v :: rest))).
Proof. unfold Spec.score, score_of. cbv zeta. reflexivity. Qed.

Lemma b64_one : b64 1 = 1.
Proof. vm_compute. reflexivity. Qed.

Lemma b64_hundred : b64 100 = 100.
Proof. vm_compute. reflexivity. Qed.

Lemma ratio_bounds (S n : Z) :
  (1 <= n)%Z -> (0 <= S <= 10 * n)%Z ->
  0 <= inject_Z S / inject_Z (n * 10) <= 1.
Proof.
  intros Hn [H0 H1].
  rewrite Zle_Qle in Hn, H0, H1. rewrite inject_Z_mult in H1.
  change (inject_Z 0) with 0 in *. change (inject_Z 1) with 1 in *.
  change (inject_Z 10) with 10 in *.
  rewrite inject_Z_mult. change (inject_Z 10) with 10.
  split; [apply Qle_shift_div_l | apply Qle_shift_div_r]; lra.
Qed.

Lemma ratio_mono (S S' n : Z) :
  (1 <= n)%Z -> (S <= S')%Z ->
  inject_Z S / inject_Z (n * 10) <= inject_Z S' / inject_Z (n * 10).
Proof.
  intros Hn Hle. rewrite Zle_Qle in Hn, Hle.
  change (inject_Z 1) with 1 in *.
  rewrite inject_Z_mult. change (inject_Z 10) with 10.
  apply Qmult_le_compat_r; [exact Hle|].
  apply Qinv_le_0_compat. lra.
Qed.

(** The steps of the score keep their values inside [0, 100]. *)
Lemma score_steps (q : Q) :
  0 <= q <= 1 ->
  0 <= b64 q <= 1 ∧ 0 <= fmul (b64 q) 100 <= 100 ∧
  0 <= fsub 100 (fmul (b64 q) 100) <= 100.
Proof.
  intros [H0 H1].
  assert (0 <= b64 q <= 1) as [Ha Hb].
  { split; [apply b64_nonneg; exact H0|].
    apply Qle_trans with (b64 1); [apply b64_mono; assumption | rewrite b64_one; lra]. }
  assert (0 <= fmul (b64 q) 100 <= 100) as [Hc Hd].
  { unfold fmul. split; [apply b64_nonneg; lra|].
    apply Qle_trans with (b64 100); [apply b64_mono; lra | rewrite b64_hundred; lra]. }
  repeat split; try assumption; unfold fsub.
  - apply b64_nonneg. lra.
  - apply Qle_trans with (b64 100); [apply b64_mono; lra | rewrite b64_hundred; lra].
Qed.

(** More total severity on the same number of violations never gives a
    higher score. *)
Lemma score_of_mono (S S' n : Z) :
  (1 <= n)%Z -> (0 <= S)%Z -> (S <= S')%Z -> (S' <= 10 * n)%Z ->
  score_of S' n <= score_of S n.
Proof.
  intros Hn H0 Hle Hhi.
  pose proof (ratio_bounds S n Hn ltac:(lia)) as Hq.
  pose proof (ratio_bounds S' n Hn ltac:(lia)) as Hq'.
  pose proof (ratio_mono S S' n Hn Hle) as Hm.
  destruct (score_steps _ Hq) as ([Ha Hb] & [Hc Hd] & [He Hf]).
  destruct (score_steps _ Hq') as ([Ha' Hb'] & [Hc' Hd'] & [He' Hf']).
  unfold score_of.
  set (r := b64 (inject_Z S / inject_Z (n * 10))) in *.
  set (r' := b64 (inject_Z S' / inject_Z (n * 10))) in *.
  assert (r <= r') as H1 by (apply b64_mono; lra).
  assert (fmul r 100 <= fmul r' 100) as H2 by (apply b64_mono; lra).
  assert (fsub 100 (fmul r' 100) <= fsub 100 (fmul r 100)) as H3
    by (apply b64_mono; lra).
  apply round2_mono.
  - unfold max0. destruct (Qlt_le_dec 0 _); lra.
  - apply max0_mono. exact H3.
Qed.

Lemma score_of_worst (n : Z) : (1 <= n)%Z -> score_of (10 * n) n = 0.
Proof.
  intros Hn. unfold score_of.
  rewrite (b64_proper (inject_Z (10 * n) / inject_Z (n * 10)) 1).
  - vm_compute. reflexivity.
  - rewrite Zle_Qle in Hn. change (inject_Z 1) with 1 in Hn.
    rewrite !inject_Z_mult. change (inject_Z 10) with 10. field. lra.
Qed.

Lemma score_of_mildest (n : Z) : (1 <= n)%Z -> score_of (2 * n) n = 80.
Proof.
  intros Hn. unfold score_of.
  rewrite (b64_proper (inject_Z (2 * n) / inject_Z (n * 10)) (1 # 5)).
  - vm_compute. reflexivity.
  - rewrite Zle_Qle in Hn. change (inject_Z 1) with 1 in Hn.
    rewrite !inject_Z_mult. change (inject_Z 10) with 10.
    change (inject_Z 2) with 2. field. lra.
Qed.

Lemma score_of_high (n : Z) : (1 <= n)%Z -> score_of (7 * n) n = 30.
Proof.
  intros Hn. unfold score_of.
  rewrite (b64_proper (inject_Z (7 * n) / inject_Z (n * 10)) (7 # 10)).
  - vm_compute. reflexivity.
  - rewrite Zle_Qle in Hn. change (inject_Z 1) with 1 in Hn.
    rewrite !inject_Z_mult. change (inject_Z 10) with 10.
    change (inject_Z 7) with 7. field. lra.
Qed.

Lemma severity_score_ok (v : gmap string pyval) (w : Z) :
  severity_score v = Ok w -> Props.unknown_severity v = None ∧ Spec.weight v = w.
Proof.
  rewrite severity_score_spec.
  destruct (Props.unknown_severity v); [discriminate|].
  intros. split; congruence.
Qed.

Lemma all_scored_known (violations : list (gmap string pyval)) :
  Forall (λ v, ∃ w, severity_score v = Ok w) violations ->
  Props.first_unknown violations = None.
Proof.
  induction 1 as [|v rest [w Hw] _ IH]; [reflexivity|].
  cbn [Props.first_unknown].
  destruct (severity_score_ok v w Hw) as [-> _]. exact IH.
Qed.

Lemma all_scored_returns (violations : list (gmap string pyval)) :
  Forall (λ v, ∃ w, severity_score v = Ok w) violations ->
  get_compliance_score violations = Ok (Spec.score violations).
Proof.
  intros H. rewrite get_compliance_score_spec, (all_scored_known _ H).
  reflexivity.
Qed.

Lemma score_nonempty_range (v : gmap string pyval) (rest : list (gmap string pyval)) :
  0 <= Spec.score (v :: rest) <= 80.
Proof.
  rewrite score_of_eq.
  pose proof (sum_weights_range (v :: rest)) as [Hlo Hhi].
  set (S := Spec.sum_weights (v :: rest)) in *.
  set (n := Z.of_nat (length (v :: rest))) in *.
  assert (1 <= n)%Z as Hn by (subst n; cbn [length]; lia).
  split.
  - rewrite <- (score_of_worst n Hn). apply score_of_mono; lia.
  - rewrite <- (score_of_mildest n Hn). apply score_of_mono; lia.
Qed.

(** C9 (as amended).  The severity-weighted score function returns 100.0
    if and only if the list of violations is empty.  A non-empty list
    whose severities are all missing or among the four names scores
    between 0 and 80, hence strictly below 100; a non-empty list with a
    severity that is present but is none of the four names gets no score:
    the call raises [KeyError] on the first such severity. *)
Theorem score_100_iff_empty (violations : list (gmap string pyval)) :
  (get_compliance_score violations = Ok 100 ↔ violations = []) ∧
  (violations = [] ∨
   match Props.first_unknown violations with
   | Some k => get_compliance_score violations = Raise (KeyError k)
   | None => ∃ s, get_compliance_score violations = Ok s ∧ 0 <= s <= 80
   end).
Proof.
  destruct violations as [|v rest].
  { split; [split; reflexivity | left; reflexivity]. }
  pose proof (score_nonempty_range v rest) as [H0 H80].
  pose proof (ComplianceFacts.get_compliance_score_spec (v :: rest)) as Hspec.
  destruct (Props.first_unknown (v :: rest)) as [k|].
  - split; [|right; exact Hspec].
    rewrite Hspec. split; discriminate.
  - split; [|right; eexists; split; [exact Hspec | split; assumption]].
    rewrite Hspec. split; [|discriminate].
    intros Hok.
    assert (Spec.score (v :: rest) = 100) as Hs by congruence.
    rewrite Hs in H80. exfalso. revert H80. apply Qlt_not_le. reflexivity.
Qed.

(** C9 as stated fails: not every non-empty list scores strictly below
    100; a list of a LOW violation and one of severity INFO has no score at
    all. *)
Lemma nonempty_list_without_score :
  get_compliance_score
    [ {[ "severity" := PStr "LOW" ]}; Samples.info_violation ]
    = Raise (KeyError (PStr "INFO")) ∧
  ¬ ∃ s, get_compliance_score
           [ {[ "severity" := PStr "LOW" ]}; Samples.info_violation ] = Ok s ∧
         s < 100.
Proof.
  assert (get_compliance_score
            [ {[ "severity" := PStr "LOW" ]}; Samples.info_violation ]
          = Raise (KeyError (PStr "INFO"))) as Hraise
    by (vm_compute; reflexivity).
  split; [exact Hraise|].
  intros (s & Hs & _). rewrite Hraise in Hs. discriminate.
Qed.

(** X1.  Whenever every violation has a severity of the table (or none),
    [get_compliance_score] returns a score between 0 and 100, as its
    docstring says; on a non-empty list the score is at most 80. *)
Theorem score_in_range (violations : list (gmap string pyval)) :
  Forall (λ v, ∃ w, severity_score v = Ok w) violations ->
  ∃ s, get_compliance_score violations = Ok s ∧
       0 <= s <= 100 ∧ (violations ≠ [] -> s <= 80).
Proof.
  intros Hall. exists (Spec.score violations).
  split; [apply all_scored_returns; exact Hall|].
  destruct violations as [|v rest].
  - cbn [Spec.score]. split; [split; lra | congruence].
  - pose proof (score_nonempty_range v rest) as [H0 H1].
    split; [split; lra | intros _; exact H1].
Qed.

Lemma score_in_range_witness :
  Forall (λ v, ∃ w, severity_score v = Ok w)
    [ {[ "severity" := PStr "HIGH" ]} : gmap string pyval; ∅ ] ∧
  ∃ s, get_compliance_score [ {[ "severity" := PStr "HIGH" ]}; ∅ ] = Ok s ∧
       0 <= s <= 100.
Proof.
  assert (Forall (λ v, ∃ w, severity_score v = Ok w)
            [ {[ "severity" := PStr "HIGH" ]} : gmap string pyval; ∅ ]) as Hall.
  { repeat constructor; eexists; vm_compute; reflexivity. }
  split; [exact Hall|].
  destruct (score_in_range _ Hall) as (s & Hs & Hr & _).
  exists s. auto.
Defined.

Lemma worse_sum (V V' : list (gmap string pyval)) :
  Forall2 (λ v v', ∃ w w', severity_score v = Ok w ∧
                           severity_score v' = Ok w' ∧ (w <= w')%Z) V V' ->
  (Spec.sum_weights V <= Spec.sum_weights V')%Z ∧
  Forall (λ v, ∃ w, severity_score v = Ok w) V ∧
  Forall (λ v, ∃ w, severity_score v = Ok w) V'.
Proof.
  induction 1 as [|v v' V V' (w & w' & Hw & Hw' & Hle) _ (IH1 & IH2 & IH3)].
  - repeat split; (lia || constructor).
  - destruct (severity_score_ok v w Hw) as [_ <-].
    destruct (severity_score_ok v' w' Hw') as [_ <-].
    cbn [Spec.sum_weights foldr]. fold (Spec.sum_weights V) (Spec.sum_weights V').
    repeat split; [lia | constructor; eauto ..].
Qed.

(** X2.  The score never increases as severities worsen: when each
    violation of a list is replaced by one of the same or a heavier
    severity, the score of the new list is at most the score of the old
    one. *)
Theorem score_worsens (V V' : list (gmap string pyval)) :
  Forall2 (λ v v', ∃ w w', severity_score v = Ok w ∧
                           severity_score v' = Ok w' ∧ (w <= w')%Z) V V' ->
  ∃ s s', get_compliance_score V = Ok s ∧ get_compliance_score V' = Ok s' ∧
          s' <= s.
Proof.
  intros Hworse.
  pose proof (Forall2_length _ _ _ Hworse) as Hlen.
  destruct (worse_sum V V' Hworse) as (Hsum & Hall & Hall').
  exists (Spec.score V), (Spec.score V').
  split; [apply all_scored_returns; exact Hall|].
  split; [apply all_scored_returns; exact Hall'|].
  destruct V as [|v rest], V' as [|v' rest']; try (cbn in Hlen; congruence).
  - apply Qle_refl.
  - rewrite !score_of_eq, <- Hlen.
    pose proof (sum_weights_range (v :: rest)) as [Hlo _].
    pose proof (sum_weights_range (v' :: rest')) as [_ Hhi].
    rewrite <- Hlen in Hhi.
    apply score_of_mono; try lia. cbn [length]. lia.
Qed.

Lemma score_worsens_witness :
  ∃ s s',
    get_compliance_score [ {[ "severity" := PStr "LOW" ]} : gmap string pyval ] = Ok s ∧
    get_compliance_score [ {[ "severity" := PStr "CRITICAL" ]} : gmap string pyval ] = Ok s' ∧
    s' <= s.
Proof.
  apply score_worsens. repeat constructor.
  exists 2%Z, 10%Z. repeat split; (vm_compute; reflexivity) || lia.
Defined.

Lemma sum_constant (violations : list (gmap string pyval)) (w : Z) :
  Forall (λ v, severity_score v = Ok w) violations ->
  Spec.sum_weights violations = (w * Z.of_nat (length violations))%Z ∧
  Forall (λ v, ∃ w, severity_score v = Ok w) violations.
Proof.
  induction 1 as [|v rest Hv _ [IH1 IH2]]; [split; [cbn; lia|constructor]|].
  destruct (severity_score_ok v w Hv) as [_ Hw].
  cbn [Spec.sum_weights foldr length]. fold (Spec.sum_weights rest).
  split; [lia | constructor; eauto].
Qed.

(** X3.  The two ends of the scale for a non-empty list: violations that
    are all CRITICAL score 0.0, and violations that are all LOW (or carry
    no severity) score 80.0, whatever their number. *)
Theorem score_extremes (violations : list (gmap string pyval)) :
  violations ≠ [] ->
  (Forall (λ v, severity_score v = Ok 10%Z) violations ->
     get_compliance_score violations = Ok 0) ∧
  (Forall (λ v, severity_score v = Ok 2%Z) violations ->
     get_compliance_score violations = Ok 80).
Proof.
  intros Hne. destruct violations as [|v rest]; [congruence|].
  assert (1 <= Z.of_nat (length (v :: rest)))%Z as Hn by (cbn [length]; lia).
  split; intros Hall; destruct (sum_constant _ _ Hall) as [Hsum Hok];
    rewrite (all_scored_returns _ Hok), score_of_eq, Hsum; f_equal.
  - apply score_of_worst. exact Hn.
  - apply score_of_mildest. exact Hn.
Qed.

Lemma score_extremes_witness :
  [ {[ "severity" := PStr "CRITICAL" ]} : gmap string pyval ] ≠ [] ∧
  get_compliance_score [ {[ "severity" := PStr "CRITICAL" ]} ] = Ok 0.
Proof.
  assert ([ {[ "severity" := PStr "CRITICAL" ]} : gmap string pyval ] ≠ []) as Hne
    by discriminate.
  split; [exact Hne|].
  apply (proj1 (score_extremes _ Hne)).
  repeat constructor.
Defined.

End ScoreFacts.

(** ** What the checkers emit *)

Module CheckerFacts.
Import Database AwsScanner Terms AwsFacts.
Import ComplianceFramework.

Lemma follows_rule_intro rid t n s d r f :
  (t, n, s, f) ∈ rule_shapes -> follows_rule (violation rid t n s d r f).
Proof. intros Hin. unfold follows_rule. eauto 12. Qed.

Ltac by_rule := apply follows_rule_intro; unfold rule_shapes; repeat constructor.

Lemma scan_s3_encryption_rules self : Forall follows_rule (scan_s3_encryption self).
Proof.
  unfold scan_s3_encryption. destruct (list_buckets _); [|constructor].
  apply try_each_Forall. intros b. unfold s3_bucket_check.
  destruct (get_bucket_encryption _ b) as [[]|e]; cbn [fst];
    try (constructor; [by_rule|]); constructor.
Qed.

Lemma scan_iam_policies_rules self : Forall follows_rule (scan_iam_policies self).
Proof.
  unfold scan_iam_policies. apply try_each_Forall. intros [users|e];
    [|constructor].
  apply try_each_Forall. intros u. unfold iam_user_check.
  destruct (list_attached_user_policies _ u) as [ps|[]]; cbn [fst];
    try constructor.
  apply Forall_flat_map_intro. intros p.
  destruct (bool_decide _); repeat constructor. by_rule.
Qed.

Lemma scan_security_groups_rules self :
  Forall follows_rule (scan_security_groups self).
Proof.
  unfold scan_security_groups. destruct (describe_security_groups _); [|constructor].
  apply Forall_flat_map_intro. intros sg.
  apply Forall_flat_map_intro. intros rule. unfold sg_rule_check.
  apply Forall_flat_map_intro. intros cidr.
  destruct (bool_decide _); repeat constructor. by_rule.
Qed.

Lemma scan_cloudtrail_logging_rules self :
  Forall follows_rule (scan_cloudtrail_logging self).
Proof.
  unfold scan_cloudtrail_logging.
  destruct (describe_trails _) as [[|t ts]|]; try constructor;
    try by_rule; try constructor.
  apply try_each_Forall. intros t'. unfold trail_check.
  destruct (get_trail_status _ _) as [st|]; cbn [fst]; try constructor.
  destruct (default false st); cbn [fst]; repeat constructor. by_rule.
Qed.

Lemma scan_rds_encryption_rules self :
  Forall follows_rule (scan_rds_encryption self).
Proof.
  unfold scan_rds_encryption. destruct (describe_db_instances _); [|constructor].
  apply Forall_flat_map_intro. intros i. unfold rds_instance_check.
  apply Forall_app. split.
  - destruct (default false (StorageEncrypted i)); repeat constructor. by_rule.
  - destruct (default false (PubliclyAccessible i)); repeat constructor. by_rule.
Qed.

Lemma rule_facts v :
  follows_rule v ->
  (v !! "severity" = Some (PStr "CRITICAL") ∨ v !! "severity" = Some (PStr "HIGH")) ∧
  (∃ fw, v !! "compliance_framework" = Some fw ∧ cites_control fw) ∧
  (∃ rid, v !! "resource_id" = Some (PStr rid)).
Proof.
  intros (rid & d & r & t & n & s & f & Hin & ->).
  unfold rule_shapes in Hin. rewrite !elem_of_cons, elem_of_nil in Hin.
  split; [|split; [|exists rid; reflexivity]].
  - change (violation rid t n s d r f !! "severity") with (Some (PStr s)).
    destruct Hin as [H|[H|[H|[H|[H|[H|[H|[H|[]]]]]]]]];
      injection H as -> -> -> ->; auto.
  - exists (PStr f).
    split; [reflexivity|]. unfold cites_control.
    destruct Hin as [H|[H|[H|[H|[H|[H|[H|[H|[]]]]]]]]];
      injection H as -> -> -> ->.
    + exists "SC-28". left. split; [reflexivity|]. eexists. reflexivity.
    + exists "A.10.1.1". right. split; [reflexivity|]. eexists. reflexivity.
    + exists "AC-6". left. split; [reflexivity|]. eexists. reflexivity.
    + exists "SC-7". left. split; [reflexivity|]. eexists. reflexivity.
    + exists "AU-2". left. split; [reflexivity|]. eexists. reflexivity.
    + exists "A.12.4.1". right. split; [reflexivity|]. eexists. reflexivity.
    + exists "SC-28". left. split; [reflexivity|]. eexists. reflexivity.
    + exists "SC-7". left. split; [reflexivity|]. eexists. reflexivity.
Qed.

Lemma all_violations_rules self : Forall follows_rule (all_violations self).
Proof.
  unfold all_violations. rewrite !Forall_app.
  auto using scan_s3_encryption_rules, scan_iam_policies_rules,
    scan_security_groups_rules, scan_cloudtrail_logging_rules,
    scan_rds_encryption_rules.
Qed.

(** X4.  Whatever the inventory answers, every dictionary the five
    checkers emit follows one of the eight rules of the catalogue: its
    severity is CRITICAL or HIGH, never MEDIUM or LOW, and it names a
    resource. *)
Theorem checkers_follow_rules self :
  Forall (λ v, follows_rule v ∧
               (v !! "severity" = Some (PStr "CRITICAL") ∨
                v !! "severity" = Some (PStr "HIGH")) ∧
               ∃ rid, v !! "resource_id" = Some (PStr rid))
    (all_violations self).
Proof.
  eapply Forall_impl; [apply all_violations_rules|].
  intros v Hv. destruct (rule_facts v Hv) as (Hs & _ & Hr). auto.
Qed.

(** X5.  Every framework reference a checker writes names a control that
    is defined in [NIST_CONTROLS] or in [ISO_27001_CONTROLS]. *)
Theorem references_are_defined self :
  Forall (λ v, ∃ reference, v !! "compliance_framework" = Some reference ∧
                            cites_control reference)
    (all_violations self).
Proof.
  eapply Forall_impl; [apply all_violations_rules|].
  intros v Hv. destruct (rule_facts v Hv) as (_ & Hc & _). exact Hc.
Qed.

Lemma rule_weight v :
  follows_rule v ->
  (severity_score v = Ok 10%Z ∨ severity_score v = Ok 7%Z) ∧
  (7 <= Spec.weight v)%Z.
Proof.
  intros Hv. destruct (rule_facts v Hv) as ([Hs|Hs] & _ & _);
    unfold severity_score, dict_get, Spec.weight; rewrite Hs;
    (split; [vm_compute; auto | apply Z.leb_le; vm_compute; reflexivity]).
Qed.

Lemma sum_at_least_high (violations : list (gmap string pyval)) :
  Forall follows_rule violations ->
  (7 * Z.of_nat (length violations) <= Spec.sum_weights violations)%Z ∧
  Forall (λ v, ∃ w, severity_score v = Ok w) violations.
Proof.
  induction 1 as [|v rest Hv _ [IH1 IH2]]; [split; [cbn; lia|constructor]|].
  destruct (rule_weight v Hv) as [Hs Hw].
  cbn [Spec.sum_weights foldr length]. fold (Spec.sum_weights rest).
  split; [lia|]. constructor; [destruct Hs; eauto | exact IH2].
Qed.

(** X6.  The severity-weighted score accepts the findings of every scan:
    it never raises on them, it is 100.0 when nothing was found, and
    otherwise it lies between 0.0 and 30.0, since every rule is HIGH or
    CRITICAL. *)
Theorem score_of_findings self :
  ∃ s, get_compliance_score (all_violations self) = Ok s ∧
       (all_violations self = [] -> s = 100%Q) ∧
       (all_violations self ≠ [] -> (0 <= s <= 30)%Q).
Proof.
  destruct (sum_at_least_high _ (all_violations_rules self)) as [Hsum Hok].
  exists (Spec.score (all_violations self)).
  split; [apply ScoreFacts.all_scored_returns; exact Hok|].
  destruct (all_violations self) as [|v rest].
  - split; [reflexivity | congruence].
  - split; [discriminate|]. intros _.
    pose proof (ScoreFacts.score_nonempty_range v rest) as [H0 _].
    split; [exact H0|].
    rewrite ScoreFacts.score_of_eq.
    pose proof (ComplianceFacts.sum_weights_range (v :: rest)) as [_ Hhi].
    assert (1 <= Z.of_nat (length (v :: rest)))%Z as Hn by (cbn [length]; lia).
    rewrite <- (ScoreFacts.score_of_high _ Hn).
    apply ScoreFacts.score_of_mono; lia.
Qed.

(** *** The S3 checker *)

Lemma try_each_app {A V} (body : A -> list V * option exn) (l1 l2 : list A) :
  try_each body (l1 ++ l2) =
  match try_each body l1 with
  | (vs, Some e) => (vs, Some e)
  | (vs, None) => let '(ws, r) := try_each body l2 in (vs ++ ws, r)
  end.
Proof.
  induction l1 as [|a l1 IH]; cbn [app try_each].
  - destruct (try_each body l2). reflexivity.
  - destruct (body a) as [vs [e|]]; [reflexivity|].
    rewrite IH. destruct (try_each body l1) as [ws [e|]]; [reflexivity|].
    destruct (try_each body l2) as [us r]. rewrite app_assoc. reflexivity.
Qed.

Lemma s3_bucket_check_cases inv b :
  (fst (s3_bucket_check inv b) = [] ∨
   ∃ v, fst (s3_bucket_check inv b) = [v] ∧ resource_of v = Some (PStr b)).
Proof.
  unfold s3_bucket_check.
  destruct (get_bucket_encryption inv b) as [[]|e]; cbn [fst]; auto.
  right. eexists. split; reflexivity.
Qed.

Lemma s3_resources_sublist inv buckets :
  omap resource_of (fst (try_each (s3_bucket_check inv) buckets))
    `sublist_of` map PStr buckets.
Proof.
  induction buckets as [|b rest IH]; cbn [try_each map]; [constructor|].
  pose proof (s3_bucket_check_cases inv b) as Hb.
  destruct (s3_bucket_check inv b) as [vs [e|]]; cbn [fst] in *.
  - destruct Hb as [->|(v & -> & Hv)].
    + apply sublist_nil_l.
    + cbn [omap list_omap]. rewrite Hv. apply sublist_skip, sublist_nil_l.
  - destruct (try_each (s3_bucket_check inv) rest) as [ws r]. cbn [fst] in *.
    destruct Hb as [->|(v & -> & Hv)].
    + apply sublist_cons. exact IH.
    + cbn [app omap list_omap]. rewrite Hv. apply sublist_skip. exact IH.
Qed.

(** X7.  The S3 checker reports buckets of the listing only, each at most
    once and in the order of the listing; when the listing itself fails it
    reports nothing. *)
Theorem s3_findings_are_listed_buckets self :
  match list_buckets (clients self) with
  | Ok buckets =>
      omap resource_of (scan_s3_encryption self) `sublist_of` map PStr buckets ∧
      length (scan_s3_encryption self) <= length buckets
  | Raise _ => scan_s3_encryption self = []
  end.
Proof.
  unfold scan_s3_encryption.
  destruct (list_buckets (clients self)) as [buckets|e]; [|reflexivity].
  pose proof (s3_resources_sublist (clients self) buckets) as Hsub.
  split; [exact Hsub|].
  apply sublist_length in Hsub. rewrite length_map in Hsub.
  assert (Forall (λ v, is_Some (resource_of v))
            (fst (try_each (s3_bucket_check (clients self)) buckets))) as Hall.
  { apply try_each_Forall. intros b.
    destruct (s3_bucket_check_cases (clients self) b) as [->|(v & -> & Hv)];
      repeat constructor. rewrite Hv. eauto. }
  assert (length (fst (try_each (s3_bucket_check (clients self)) buckets))
          = length (omap resource_of
                      (fst (try_each (s3_bucket_check (clients self)) buckets))))
    as Hlen.
  { clear Hsub. induction Hall as [|v vs [r Hr] _ IH]; [reflexivity|].
    cbn [omap list_omap length]. rewrite Hr. cbn [length]. f_equal. exact IH. }
  rewrite Hlen. exact Hsub.
Qed.

(** X8.  An exception other than a [ClientError] while one bucket is
    checked ends the S3 check: the findings for the buckets listed before
    it are kept and the buckets listed after it are not examined. *)
Theorem s3_unexpected_error_truncates self pre bucket post e :
  list_buckets (clients self) = Ok (pre ++ bucket :: post) ->
  get_bucket_encryption (clients self) bucket = Raise e ->
  (∀ code, e ≠ ClientError code) ->
  scan_s3_encryption self = fst (try_each (s3_bucket_check (clients self)) pre).
Proof.
  intros Hlist Hraise Hother. unfold scan_s3_encryption. rewrite Hlist.
  rewrite try_each_app.
  destruct (try_each (s3_bucket_check (clients self)) pre) as [vs [e'|]];
    [reflexivity|].
  cbn [try_each]. unfold s3_bucket_check at 1. rewrite Hraise.
  cbn [fst]. rewrite app_nil_r. reflexivity.
Qed.

Lemma s3_unexpected_error_truncates_witness :
  list_buckets (MoreSamples.three_buckets (Raise (OtherError "ReadTimeout")))
    = Ok (["alpha"] ++ "broken" :: ["gamma"]) ∧
  length (scan_s3_encryption
            (Samples.scanner_of
               (MoreSamples.three_buckets (Raise (OtherError "ReadTimeout"))))) = 1.
Proof.
  split; [reflexivity|].
  rewrite (s3_unexpected_error_truncates
             (Samples.scanner_of
                (MoreSamples.three_buckets (Raise (OtherError "ReadTimeout"))))
             ["alpha"] "broken" ["gamma"] (OtherError "ReadTimeout")
             eq_refl eq_refl ltac:(discriminate)).
  reflexivity.
Defined.

(** Every finding of the S3 check is an unencrypted bucket. *)
Lemma s3_findings_unencrypted self :
  Forall (λ v, v !! "violation_name" = Some (PStr "Unencrypted S3 Bucket") ∧
               v !! "severity" = Some (PStr "HIGH"))
    (scan_s3_encryption self).
Proof.
  unfold scan_s3_encryption. destruct (list_buckets _); [|constructor].
  apply try_each_Forall. intros b. unfold s3_bucket_check.
  destruct (get_bucket_encryption _ b) as [[]|e]; cbn [fst];
    repeat constructor.
Qed.

(** X9.  A [ClientError] of [get_bucket_encryption], the one of a bucket
    without encryption configuration included, ends the S3 check like any
    other exception: the findings are those of the buckets listed before,
    the bucket itself gets none and the buckets after it are not examined.
    So the check never reports "S3 Encryption Not Configured": each of its
    findings is an "Unencrypted S3 Bucket" of severity HIGH. *)
Theorem s3_client_error_ends_check self pre bucket post code :
  list_buckets (clients self) = Ok (pre ++ bucket :: post) ->
  get_bucket_encryption (clients self) bucket = Raise (ClientError code) ->
  scan_s3_encryption self
    = fst (try_each (s3_bucket_check (clients self)) pre) ∧
  Forall (λ v, v !! "violation_name" = Some (PStr "Unencrypted S3 Bucket") ∧
               v !! "severity" = Some (PStr "HIGH"))
    (scan_s3_encryption self).
Proof.
  intros Hlist Hraise. split; [|apply s3_findings_unencrypted].
  unfold scan_s3_encryption. rewrite Hlist, try_each_app.
  destruct (try_each (s3_bucket_check (clients self)) pre) as [vs [e'|]];
    [reflexivity|].
  cbn [try_each]. unfold s3_bucket_check at 1. rewrite Hraise.
  cbn [fst]. rewrite app_nil_r. reflexivity.
Qed.

Lemma s3_client_error_ends_check_witness :
  get_bucket_encryption
    (MoreSamples.three_buckets
       (Raise (ClientError "ServerSideEncryptionConfigurationNotFoundError")))
    "broken"
    = Raise (ClientError "ServerSideEncryptionConfigurationNotFoundError") ∧
  map resource_of
    (scan_s3_encryption
       (Samples.scanner_of
          (MoreSamples.three_buckets
             (Raise (ClientError "ServerSideEncryptionConfigurationNotFoundError")))))
    = [Some (PStr "alpha")].
Proof.
  split; [reflexivity|].
  rewrite (proj1 (s3_client_error_ends_check
             (Samples.scanner_of
                (MoreSamples.three_buckets
                   (Raise (ClientError
                      "ServerSideEncryptionConfigurationNotFoundError"))))
             ["alpha"] "broken" ["gamma"]
             "ServerSideEncryptionConfigurationNotFoundError"
             eq_refl eq_refl)).
  reflexivity.
Defined.

End CheckerFacts.

(** ** The dashboard score *)

Module DashboardFacts.
Import Database Float64 Float64Facts Float64Order Surfaces Terms.
Local Open Scope Q_scope.

Lemma fraction_bounds (c n : Z) :
  (1 <= n)%Z -> (0 <= c <= n)%Z -> 0 <= inject_Z c / inject_Z n <= 1.
Proof.
  intros Hn [H0 H1]. rewrite Zle_Qle in Hn, H0, H1.
  change (inject_Z 0) with 0 in *. change (inject_Z 1) with 1 in *.
  split; [apply Qle_shift_div_l | apply Qle_shift_div_r]; lra.
Qed.

(** A coverage percentage stays inside [0, 100]. *)
Lemma percentage_bounds (c n : Z) :
  (1 <= n)%Z -> (0 <= c <= n)%Z ->
  0 <= fmul (b64 (inject_Z c / inject_Z n)) 100 <= 100.
Proof.
  intros Hn Hc.
  destruct (ScoreFacts.score_steps _ (fraction_bounds c n Hn Hc)) as (_ & H & _).
  exact H.
Qed.

Lemma count_compliant_bounds (rows : list ScanResult.t) :
  (0 <= count_compliant rows <= Z.of_nat (length rows))%Z.
Proof.
  unfold count_compliant. pose proof (length_filter
    (λ v, truthy (ScanResult.is_compliant v) = true) rows). lia.
Qed.

Lemma round2_zero : round2 0 = 0.
Proof. vm_compute. reflexivity. Qed.

Lemma round2_hundred : round2 100 = 100.
Proof. vm_compute. reflexivity. Qed.

(** X10.  Whatever the table holds, the dashboard's [compliance_score] is
    a percentage: the endpoint computes a value between 0 and 100. *)
Theorem dashboard_score_in_range (tb : Tables) :
  ∃ s, get_dashboard_score tb = Ok s ∧ 0 <= s <= 100.
Proof.
  unfold get_dashboard_score.
  destruct (scan_results tb) as [|r rest] eqn:Hrows.
  - exists 100. split; [reflexivity|]. split; lra.
  - set (rows := r :: rest).
    assert (1 <= Z.of_nat (length rows))%Z as Hn by (subst rows; cbn [length]; lia).
    rewrite (proj2 (Z.ltb_lt 0 _)) by lia.
    unfold truediv. rewrite (proj2 (Z.eqb_neq _ 0)) by lia.
    cbn [mbind result_bind]. eexists. split; [reflexivity|].
    pose proof (percentage_bounds _ _ Hn (count_compliant_bounds rows)) as [H0 H1].
    split.
    + rewrite <- round2_zero. apply round2_mono; [apply Qle_refl | exact H0].
    + rewrite <- round2_hundred.
      apply round2_mono; [exact H0 | exact H1].
Qed.

Lemma no_compliant_rows (rows : list ScanResult.t) :
  Forall (λ r, ScanResult.is_compliant r = PBool false) rows ->
  count_compliant rows = 0%Z.
Proof.
  unfold count_compliant. induction 1 as [|r rows Hr _ IH]; [reflexivity|].
  rewrite filter_cons_False; [exact IH|]. rewrite Hr. discriminate.
Qed.

Lemma dashboard_all_or_nothing (tb : Tables) :
  all_non_compliant tb ->
  get_dashboard_score tb
  = Ok (match scan_results tb with [] => 100 | _ => 0 end).
Proof.
  unfold all_non_compliant, get_dashboard_score. intros Hall.
  rewrite (no_compliant_rows _ Hall).
  destruct (scan_results tb) as [|r rest]; [reflexivity|].
  set (rows := r :: rest).
  assert (1 <= Z.of_nat (length rows))%Z as Hn by (subst rows; cbn [length]; lia).
  rewrite (proj2 (Z.ltb_lt 0 _)) by lia.
  unfold truediv. rewrite (proj2 (Z.eqb_neq _ 0)) by lia.
  cbn [mbind result_bind]. f_equal.
Qed.

(** X11.  The manual scan only ever stores violations, so on a database
    filled by it the dashboard knows two scores: after every cycle it shows
    100 when the table is empty and 0 as soon as one row is stored. *)
Theorem dashboard_after_scan self now db :
  Props.fresh_session db ->
  all_non_compliant (committed db) ->
  ∃ db',
    AwsScanner.scan_all_resources self false now db = Ok db' ∧
    all_non_compliant (committed db') ∧
    get_dashboard_score (committed db')
    = Ok (match scan_results (committed db') with [] => 100 | _ => 0 end).
Proof.
  intros Hfresh Hall.
  destruct (AwsFacts.scan_all_resources_run self now db Hfresh)
    as (rows & Hrun & Hrows).
  eexists. split; [exact Hrun|]. cbn [committed].
  assert (all_non_compliant
            {| scan_results :=
                 scan_results (Props.cleared_tables self (committed db)) ++ rows;
               scan_history := scan_history (committed db) |}) as Hall'.
  { unfold all_non_compliant in *. cbn [scan_results Props.cleared_tables].
    apply Forall_app. split.
    - rewrite Forall_forall in Hall. apply Forall_forall. intros r Hin.
      apply list_elem_of_filter in Hin as [_ Hin]. auto.
    - clear Hrun. induction Hrows as [|v r vs rows Hr _ IH]; constructor; auto.
      unfold Props.stored_as in Hr. tauto. }
  split; [exact Hall'|]. apply dashboard_all_or_nothing. exact Hall'.
Qed.

Lemma dashboard_after_scan_witness :
  Props.fresh_session (open_session Samples.empty_tables 0) ∧
  ∃ db',
    AwsScanner.scan_all_resources
      (Samples.scanner_of Samples.inventory_admin_user) false 1000
      (open_session Samples.empty_tables 0) = Ok db' ∧
    get_dashboard_score (committed db')
    = Ok (match scan_results (committed db') with [] => 100 | _ => 0 end).
Proof.
  assert (Props.fresh_session (open_session Samples.empty_tables 0)) as Hfresh
    by (split; reflexivity).
  split; [exact Hfresh|].
  destruct (dashboard_after_scan
              (Samples.scanner_of Samples.inventory_admin_user) 1000
              (open_session Samples.empty_tables 0) Hfresh ltac:(constructor))
    as (db' & Hrun & _ & Hscore).
  exists db'. auto.
Defined.

End DashboardFacts.

(** ** The scheduled job: what one firing records *)

Module JobFacts.
Import Database Float64 Float64Order Scheduler Terms.

Section Firing.
Variable run_scanner : gmap string pyval -> result (list (gmap string pyval)).
Variable elapsed : gmap string pyval -> Z.

Lemma scheduled_result_of_stamp scan_id account_id region now r mk :
  scheduled_result_of scan_id account_id region now r = Ok mk ->
  ∀ id, ScanResult.scan_id (mk id) = PStr scan_id ∧
        ScanResult.first_detected (mk id) = PInt now ∧
        ScanResult.status (mk id) = PStr "NEW".
Proof.
  unfold scheduled_result_of.
  destruct (getitem r "resource_id"); [|discriminate].
  destruct (getitem r "resource_type"); [|discriminate].
  destruct (getitem r "violation_name"); [|discriminate].
  destruct (getitem r "severity"); [|discriminate].
  destruct (getitem r "description"); [|discriminate].
  destruct (getitem r "remediation_suggestion"); [|discriminate].
  destruct (getitem r "compliance_framework"); [|discriminate].
  destruct (getitem r "is_compliant"); [|discriminate].
  intros [= <-] id. auto.
Qed.

(** The saving loop appends one row per result, stamped with the scan, the
    time of the firing and status NEW, and touches nothing else. *)
Lemma save_results_view scan_id account_id region now results db db' :
  save_results scan_id account_id region now results db = Ok db' ->
  ∃ rows,
    scan_results (view db') = scan_results (view db) ++ rows ∧
    scan_history (view db') = scan_history (view db) ∧
    committed db' = committed db ∧
    length rows = length results ∧
    Forall (λ r, ScanResult.scan_id r = PStr scan_id ∧
                 ScanResult.first_detected r = PInt now ∧
                 ScanResult.status r = PStr "NEW") rows.
Proof.
  revert db. induction results as [|r rest IH]; intros db; cbn [save_results].
  - intros [= <-]. exists []. rewrite app_nil_r. repeat split. constructor.
  - destruct (scheduled_result_of scan_id account_id region now r) as [mk|e]
      eqn:Hmk; [|discriminate].
    cbn [mbind result_bind].
    intros Hrest. apply IH in Hrest as (rows & H1 & H2 & H3 & H4 & H5).
    exists (mk (uuid4 (uuid_seed db)) :: rows). rewrite H1, H2, H3.
    cbn [add_result view committed scan_results scan_history length].
    rewrite <- app_assoc. cbn [app].
    repeat split; [congruence|]. constructor; [|exact H5].
    apply (scheduled_result_of_stamp _ _ _ _ _ _ Hmk).
Qed.

(** What an iteration that completes leaves behind. *)
Lemma scan_account_record account db now st' :
  scan_account run_scanner elapsed account (db, now) = Ok st' ->
  ∃ h rows,
    ScanHistory.triggered_by h = "scheduled" ∧
    committed (fst st') =
      {| scan_results := scan_results (view db) ++ rows;
         scan_history := scan_history (view db) ++ [h] |} ∧
    view (fst st') = committed (fst st').
Proof.
  unfold scan_account, fresh_uuid.
  destruct (run_scanner account) as [results|e]; cbn [mbind result_bind];
    [|discriminate].
  destruct (save_results _ _ _ _ results _) as [db1|e] eqn:Hsave;
    cbn [mbind result_bind]; [|discriminate].
  apply save_results_view in Hsave as (rows & Hr & Hh & _ & _ & _).
  cbn [view] in Hr, Hh.
  destruct (non_compliant results) as [violations|e];
    cbn [mbind result_bind]; [|discriminate].
  destruct (history_score _ _) as [score|e]; cbn [mbind result_bind];
    [|discriminate].
  unfold commit. destruct (constraints_ok _); cbn [mbind result_bind];
    [|discriminate].
  intros [= <-]. cbn [fst committed view add_history scan_results scan_history].
  rewrite Hr, Hh.
  eexists. exists rows. repeat split; reflexivity.
Qed.

(** An iteration only appends. *)
Lemma scan_account_appends account db now st' :
  view db = committed db ->
  scan_account run_scanner elapsed account (db, now) = Ok st' ->
  view (fst st') = committed (fst st') ∧
  scan_results (committed db) `prefix_of` scan_results (committed (fst st')) ∧
  scan_history (committed db) `prefix_of` scan_history (committed (fst st')).
Proof.
  intros Hview Hok.
  destruct (scan_account_record account db now st' Hok)
    as (h & rows & _ & Hcom & Hv).
  rewrite Hcom, Hview in *. cbn [scan_results scan_history].
  split; [rewrite Hv; reflexivity|].
  split; apply prefix_app_r; reflexivity.
Qed.

Lemma scan_accounts_appends accounts st :
  view (fst st) = committed (fst st) ->
  view (fst (scan_accounts run_scanner elapsed accounts st))
    = committed (fst (scan_accounts run_scanner elapsed accounts st)) ∧
  scan_results (committed (fst st))
    `prefix_of` scan_results (committed (fst (scan_accounts run_scanner elapsed accounts st))) ∧
  scan_history (committed (fst st))
    `prefix_of` scan_history (committed (fst (scan_accounts run_scanner elapsed accounts st))).
Proof.
  revert st. induction accounts as [|a rest IH]; intros st Hview;
    cbn [scan_accounts].
  - split; [exact Hview|]. split; reflexivity.
  - destruct st as [db now]. cbn [fst] in Hview.
    destruct (scan_account run_scanner elapsed a (db, now)) as [st'|e] eqn:Hacc.
    + destruct (scan_account_appends a db now st' Hview Hacc) as (Hv & Hr & Hh).
      destruct (IH st' Hv) as (Hv' & Hr' & Hh').
      split; [exact Hv'|]. cbn [fst].
      split; etransitivity; eassumption.
    + cbn [fst rollback view committed]. split; [reflexivity|].
      split; reflexivity.
Qed.

(** X13.  A firing of the scheduled job only appends to the database: the
    rows of [scan_results] and of the ScanHistory ledger that were committed
    before it are still there, in place, after it, whatever the scanner
    answers; the job touches neither the configuration nor the timers. *)
Theorem scheduled_job_appends w :
  scan_results (committed (store w))
    `prefix_of` scan_results (committed (store (scheduled_scan_job run_scanner elapsed w))) ∧
  scan_history (committed (store w))
    `prefix_of` scan_history (committed (store (scheduled_scan_job run_scanner elapsed w))) ∧
  config_file (scheduled_scan_job run_scanner elapsed w) = config_file w ∧
  jobs (scheduled_scan_job run_scanner elapsed w) = jobs w.
Proof.
  unfold scheduled_scan_job.
  destruct (negb (enabled (load_config w))); [repeat split; reflexivity|].
  destruct (accounts (load_config w)) as [|a rest]; [repeat split; reflexivity|].
  pose proof (scan_accounts_appends (a :: rest) (rollback (store w), clock w)
                eq_refl) as (_ & Hr & Hh).
  destruct (scan_accounts run_scanner elapsed (a :: rest) _) as [db now].
  cbn [fst set_store store rollback committed config_file jobs] in *.
  auto.
Qed.

End Firing.

(** ** The timer and the configuration *)

Section Timer.
Variable IntervalTrigger : Z -> result Z.

(** X14.  However many timers were registered before, a configure call
    leaves at most one, named [compliance_scan], and none when monitoring
    is disabled or the trigger is refused; stopping leaves none and
    starting at most one. *)
Theorem at_most_one_timer enabled interval_hours accounts w :
  jobs (snd (configure_monitoring IntervalTrigger enabled interval_hours accounts w))
  = (if enabled
     then match IntervalTrigger interval_hours with
          | Ok period => [{| job_id := "compliance_scan";
                             job_name := "Automated Compliance Scan";
                             trigger_hours := period |}]
          | Raise _ => []
          end
     else []) ∧
  jobs (stop_monitoring w) = [] ∧
  length (jobs (snd (start_monitoring IntervalTrigger w))) <= 1.
Proof.
  assert (∀ en h acc,
    jobs (snd (configure_monitoring IntervalTrigger en h acc w))
    = (if en
       then match IntervalTrigger h with
            | Ok period => [{| job_id := "compliance_scan";
                               job_name := "Automated Compliance Scan";
                               trigger_hours := period |}]
            | Raise _ => []
            end
       else [])) as Hconf.
  { intros en h acc. unfold configure_monitoring, save_config.
    destruct en; [destruct (IntervalTrigger h); cbn [mbind result_bind]|];
      cbn [set_jobs config_writable jobs snd];
      try destruct (config_writable w); reflexivity. }
  split; [apply Hconf|]. split.
  - unfold stop_monitoring. reflexivity.
  - unfold start_monitoring. rewrite Hconf.
    destruct (IntervalTrigger _); cbn [length]; lia.
Qed.

(** X15.  Stopping and starting again resumes the previous settings: when
    the configuration file can be written and the trigger accepts the
    stored interval, [start_monitoring] after [stop_monitoring] persists
    the interval and the targets that were stored before the stop, enabled,
    and registers one timer with that interval. *)
Theorem stop_then_start_resumes w period :
  config_writable w = true ->
  IntervalTrigger (interval_hours (load_config w)) = Ok period ->
  config_file (snd (start_monitoring IntervalTrigger (stop_monitoring w)))
  = Some {| enabled := true;
            interval_hours := interval_hours (load_config w);
            accounts := accounts (load_config w) |} ∧
  jobs (snd (start_monitoring IntervalTrigger (stop_monitoring w)))
  = [{| job_id := "compliance_scan"; job_name := "Automated Compliance Scan";
        trigger_hours := period |}] ∧
  load_config (stop_monitoring w)
  = {| enabled := false;
       interval_hours := interval_hours (load_config w);
       accounts := accounts (load_config w) |}.
Proof.
  intros Hw Htrig.
  unfold start_monitoring, stop_monitoring, configure_monitoring, save_config,
    load_config.
  rewrite Hw. cbn [snd set_jobs config_file config_writable from_option id
                   interval_hours accounts].
  fold (load_config w). rewrite Htrig. cbn [mbind result_bind].
  cbn [set_jobs config_file config_writable snd jobs from_option id
       interval_hours accounts].
  repeat split; reflexivity.
Qed.

(** X16.  The configure endpoint replaces the monitored targets on every
    call, with the empty list when the request names no account, whereas
    [configure_monitoring] called without accounts keeps the stored ones. *)
Theorem endpoint_replaces_targets enabled interval_hours region w :
  match fst (Surfaces.post_monitoring_configure IntervalTrigger enabled
               interval_hours None region w) with
  | Ok config => accounts config = []
  | Raise e => enabled = true ∧ IntervalTrigger interval_hours = Raise e
  end ∧
  match fst (configure_monitoring IntervalTrigger enabled interval_hours None w) with
  | Ok config => accounts config = accounts (load_config w)
  | Raise e => enabled = true ∧ IntervalTrigger interval_hours = Raise e
  end.
Proof.
  unfold Surfaces.post_monitoring_configure, configure_monitoring.
  destruct enabled; [destruct (IntervalTrigger interval_hours) as [p|e]|];
    cbn [mbind result_bind fst accounts from_option id]; auto.
Qed.

End Timer.

Lemma stop_then_start_resumes_witness :
  config_writable (Samples.monitored Samples.two_accounts) = true ∧
  config_file (snd (start_monitoring Samples.lenient_trigger
                      (stop_monitoring (Samples.monitored Samples.two_accounts))))
  = Some {| enabled := true; interval_hours := 24;
            accounts := Samples.two_accounts |}.
Proof.
  split; [reflexivity|].
  apply (stop_then_start_resumes Samples.lenient_trigger
           (Samples.monitored Samples.two_accounts) 24 eq_refl eq_refl).
Defined.

(** X12.  With the [AWSScanner] of [scanners/aws_scanner.py] the scheduled
    job records nothing: the call it makes raises [TypeError] for the first
    target, so a firing reaches at most one target, commits nothing and
    leaves the committed tables, ScanHistory included, as they were,
    whatever the configuration and the accounts are. *)
Theorem scheduled_job_records_nothing elapsed w :
  committed (store (scheduled_scan_job aws_scanner_call elapsed w))
    = committed (store w) ∧
  commit_log (store (scheduled_scan_job aws_scanner_call elapsed w))
    = commit_log (store w) ∧
  length (targets_reached aws_scanner_call elapsed (accounts (load_config w))
            (rollback (store w), clock w)) <= 1.
Proof.
  split; [|split].
  - destruct (SchedulerFacts.scheduled_job_with_aws_scanner elapsed w)
      as [-> | ->]; reflexivity.
  - destruct (SchedulerFacts.scheduled_job_with_aws_scanner elapsed w)
      as [-> | ->]; reflexivity.
  - destruct (accounts (load_config w)) as [|a rest]; cbn [targets_reached length];
      [lia|].
    rewrite (SchedulerFacts.scan_account_raises aws_scanner_call elapsed a _ _
               (SchedulerFacts.aws_scanner_call_raises a)).
    cbn [length]. lia.
Qed.

End JobFacts.

(** ** The IAM access review *)

Module IamReviewFacts.
Import IamScanner IamReview Terms Props IamFacts.

(** *** The classifier *)

Lemma policy_reasons_length (attached : list string) :
  length (policy_reasons attached) <= length attached.
Proof.
  induction attached as [|p rest IH]; cbn [policy_reasons length]; [lia|].
  destruct (is_risky p); [cbn [length]; lia|].
  destruct (str_contains "FullAccess" p); cbn [length]; lia.
Qed.

Lemma policy_reasons_flagged (attached : list string) :
  1 <= length (policy_reasons attached) -> ∃ p, p ∈ attached ∧ flagged p.
Proof.
  induction attached as [|p rest IH]; cbn [policy_reasons length]; [lia|].
  destruct (is_risky p) eqn:Hr.
  { intros _. exists p. split; [left|left; exact Hr]. }
  destruct (str_contains "FullAccess" p) eqn:Hf.
  { intros _. exists p. split; [left|right; exact Hf]. }
  intros H. destruct (IH H) as (q & Hin & Hq).
  exists q. split; [right; exact Hin|exact Hq].
Qed.

Lemma policy_reasons_sublist (attached attached' : list string) :
  attached `sublist_of` attached' ->
  length (policy_reasons attached) <= length (policy_reasons attached').
Proof.
  induction 1 as [|p l1 l2 _ IH|p l1 l2 _ IH]; cbn [policy_reasons].
  - lia.
  - destruct (is_risky p); [cbn [length]; lia|].
    destruct (str_contains "FullAccess" p); cbn [length]; lia.
  - destruct (is_risky p); [cbn [length]; lia|].
    destruct (str_contains "FullAccess" p); cbn [length]; lia.
Qed.

(** The number of reasons: one per flagged policy, one for more than ten
    policies, one for any inline policy. *)
Lemma reasons_count (attached inline : list string) :
  length (snd (analyze_risk attached inline))
  = length (policy_reasons attached)
    + (if 10 <? length attached + length inline then 1 else 0)
    + (if 0 <? length inline then 1 else 0).
Proof.
  unfold analyze_risk. cbn [snd].
  destruct (10 <? _); destruct (0 <? _); rewrite ?length_app; cbn [length]; lia.
Qed.

Lemma rank_of_level (attached inline : list string) :
  rank (fst (analyze_risk attached inline))
  = if bool_decide (overridden attached) then 3
    else if 3 <=? length (snd (analyze_risk attached inline)) then 2
    else if 0 <? length (snd (analyze_risk attached inline)) then 1
    else 0.
Proof.
  destruct (analyze_risk_level_cases attached inline) as [[-> Hov]|[Hov ->]].
  - rewrite bool_decide_eq_true_2 by exact Hov. reflexivity.
  - rewrite bool_decide_eq_false_2 by exact Hov.
    destruct (3 <=? _); [reflexivity|]. destruct (0 <? _); reflexivity.
Qed.

Lemma overridden_sublist (attached attached' : list string) :
  attached `sublist_of` attached' -> overridden attached -> overridden attached'.
Proof.
  unfold overridden. intros Hsub [H|H]; [left|right];
    eapply elem_of_sublist; eassumption.
Qed.

(** X17.  Granting more never lowers the risk: when the attached and the
    inline policies of one entity are sub-lists of those of another, the
    level of the first is at most the level of the second, in the order
    LOW, MEDIUM, HIGH, CRITICAL. *)
Theorem risk_monotone (attached attached' inline inline' : list string) :
  attached `sublist_of` attached' ->
  inline `sublist_of` inline' ->
  rank (fst (analyze_risk attached inline))
  <= rank (fst (analyze_risk attached' inline')).
Proof.
  intros Ha Hi. rewrite !rank_of_level, !reasons_count.
  pose proof (policy_reasons_sublist _ _ Ha) as Hp.
  pose proof (sublist_length _ _ Ha) as Hla.
  pose proof (sublist_length _ _ Hi) as Hli.
  pose proof (overridden_sublist _ _ Ha) as Hov.
  destruct (bool_decide_reflect (overridden attached')) as [Ho'|Ho'].
  - repeat case_bool_decide; repeat case_match; lia.
  - rewrite bool_decide_eq_false_2 by tauto.
    repeat match goal with
    | |- context [?a <? ?b] => destruct (Nat.ltb_spec a b)
    | |- context [?a <=? ?b] => destruct (Nat.leb_spec a b)
    end; lia.
Qed.

(** X18.  HIGH and CRITICAL need a flagged attached policy: an entity whose
    level is HIGH or CRITICAL has an attached policy that is in
    RISKY_POLICIES or whose name contains FullAccess; so an entity without
    attached policies is LOW or MEDIUM however many inline policies it
    has. *)
Theorem high_needs_flagged_policy (attached inline : list string) :
  2 <= rank (fst (analyze_risk attached inline)) ->
  ∃ p, p ∈ attached ∧ flagged p.
Proof.
  rewrite rank_of_level, reasons_count.
  destruct (bool_decide_reflect (overridden attached)) as [Hov|Hov].
  - intros _. destruct Hov as [H|H]; eexists; (split; [exact H|]);
      left; vm_compute; reflexivity.
  - intros H. apply policy_reasons_flagged.
    repeat match goal with
    | H : context [?a <? ?b] |- _ => destruct (Nat.ltb_spec a b)
    | H : context [?a <=? ?b] |- _ => destruct (Nat.leb_spec a b)
    end; lia.
Qed.

(** *** The review *)

Lemma scan_pages_fetched {A} (per_page : list A -> list entity) pages :
  scan_pages per_page (map Ok pages) = Ok (concat (map per_page pages)).
Proof.
  induction pages as [|p rest IH]; cbn [map scan_pages concat]; [reflexivity|].
  rewrite IH. reflexivity.
Qed.

Lemma scan_pages_ok {A} (per_page : list A -> list entity) pages found :
  scan_pages per_page pages = Ok found ->
  ∃ items, pages = map Ok items ∧ found = concat (map per_page items).
Proof.
  revert found. induction pages as [|[p|e] rest IH]; intros found;
    cbn [scan_pages].
  - intros [= <-]. exists []. split; reflexivity.
  - destruct (scan_pages per_page rest) as [l|e]; cbn [mbind result_bind];
      [|discriminate].
    intros [= <-]. destruct (IH l eq_refl) as (items & -> & ->).
    exists (p :: items). split; reflexivity.
  - discriminate.
Qed.

Lemma fetched_pages {A} (pages : list (result (list A))) :
  Forall fetched pages <-> ∃ items, pages = map Ok items.
Proof.
  split.
  - induction 1 as [|page rest [p ->] _ [items ->]].
    + exists []. reflexivity.
    + exists (p :: items). reflexivity.
  - intros [items ->]. induction items as [|p rest IH]; cbn [map].
    + constructor.
    + constructor; [exists p; reflexivity|exact IH].
Qed.

Lemma Forall_pages {A} (P : entity -> Prop) (per_page : list A -> list entity)
    (pages : list (list A)) :
  (∀ p, Forall P (per_page p)) -> Forall P (concat (map per_page pages)).
Proof.
  intros Hp. induction pages as [|p rest IH]; cbn [map concat].
  - constructor.
  - apply Forall_app. split; [apply Hp|exact IH].
Qed.

Lemma Forall_entities {A} (P : entity -> Prop) (f : A -> entity) (l : list A) :
  (∀ a, P (f a)) -> Forall P (map f l).
Proof.
  intros Hf. induction l as [|a rest IH]; cbn [map]; constructor; auto.
Qed.

(** X19.  The review answers exactly when every page of the two paginators
    could be fetched: a failure to list the policies of an entity or to read
    the last activity of a user never fails the review, a failure to fetch a
    page of users or of roles always does. *)
Theorem review_answers_iff_pages_fetched (self : IamClient) :
  (∃ r, scan_all self = Ok r) <->
  Forall fetched (list_users_pages self) ∧ Forall fetched (list_roles_pages self).
Proof.
  unfold scan_all, scan_users, scan_roles. rewrite !fetched_pages. split.
  - intros [r Hr].
    destruct (scan_pages _ (list_users_pages self)) as [us|e] eqn:Hu;
      cbn [mbind result_bind] in Hr; [|discriminate].
    destruct (scan_pages _ (list_roles_pages self)) as [rs|e] eqn:Hro;
      cbn [mbind result_bind] in Hr; [|discriminate].
    apply scan_pages_ok in Hu as (ui & Hu & _).
    apply scan_pages_ok in Hro as (ri & Hro & _).
    split; eexists; eassumption.
  - intros [[ui ->] [ri ->]]. rewrite !scan_pages_fetched.
    cbn [mbind result_bind]. eexists. reflexivity.
Qed.

Lemma user_entity_fields (self : IamClient) (u : iam_user) :
  type (user_entity self u) = "user" ∧
  name (user_entity self u) = UserName u ∧
  is_Some (last_activity (user_entity self u)) ∧
  entity_consistent (user_entity self u).
Proof.
  unfold user_entity, entity_consistent.
  destruct (analyze_risk _ _) as [level reasons] eqn:Hrisk.
  cbn [type name last_activity risk_level risk_reasons attached_policies
       inline_policies total_policies].
  repeat split; eauto.
Qed.

Lemma role_entity_fields (self : IamClient) (r : iam_role) :
  type (role_entity self r) = "role" ∧
  name (role_entity self r) = RoleName r ∧
  last_activity (role_entity self r) = None ∧
  entity_consistent (role_entity self r).
Proof.
  unfold role_entity, entity_consistent.
  destruct (analyze_risk _ _) as [level reasons] eqn:Hrisk.
  cbn [type name last_activity risk_level risk_reasons attached_policies
       inline_policies total_policies].
  repeat split; eauto.
Qed.

Lemma filter_names (roles : list iam_role) :
  map RoleName (filter (λ role, String.prefix "AWS" (RoleName role) = false) roles)
  = filter (λ n, String.prefix "AWS" n = false) (map RoleName roles).
Proof.
  induction roles as [|r rest IH]; [reflexivity|].
  cbn [map]. destruct (String.prefix "AWS" (RoleName r)) eqn:Hp.
  - rewrite !filter_cons_False by (rewrite ?Hp; discriminate). exact IH.
  - rewrite !filter_cons_True by (rewrite ?Hp; reflexivity).
    cbn [map]. rewrite IH. reflexivity.
Qed.

Lemma concat_names {A B} (f : A -> entity) (g : A -> B) (h : entity -> B)
    (pages : list (list A)) :
  (∀ a, h (f a) = g a) ->
  map h (concat (map (map f) pages)) = map g (concat pages).
Proof.
  intros Hfg. induction pages as [|p rest IH]; [reflexivity|].
  cbn [map concat]. rewrite !map_app, IH, map_map.
  f_equal. apply map_ext. exact Hfg.
Qed.

Lemma scan_all_fetched (self : IamClient) upages rpages :
  list_users_pages self = map Ok upages ->
  list_roles_pages self = map Ok rpages ->
  ∃ r, scan_all self = Ok r ∧
    users r = concat (map (map (user_entity self)) upages) ∧
    roles r = concat (map (λ roles,
                map (role_entity self)
                  (filter (λ role, String.prefix "AWS" (RoleName role) = false) roles))
                rpages).
Proof.
  intros Hu Hr. unfold scan_all, scan_users, scan_roles.
  rewrite Hu, Hr, !scan_pages_fetched. cbn [mbind result_bind].
  eexists. split; [reflexivity|]. split; reflexivity.
Qed.

(** X20.  The review lists every user, and every role whose name does not
    start with AWS, once and in the order of the pages: the names of the
    reported users are those of the pages, the names of the reported roles
    are those of the pages without the service roles; users carry a
    [last_activity] entry and roles none. *)
Theorem review_lists_entities (self : IamClient) upages rpages :
  list_users_pages self = map Ok upages ->
  list_roles_pages self = map Ok rpages ->
  ∃ r, scan_all self = Ok r ∧
    map name (users r) = map UserName (concat upages) ∧
    map name (roles r)
      = filter (λ n, String.prefix "AWS" n = false) (map RoleName (concat rpages)) ∧
    Forall (λ e, type e = "user" ∧ is_Some (last_activity e)) (users r) ∧
    Forall (λ e, type e = "role" ∧ last_activity e = None) (roles r).
Proof.
  intros Hu Hr.
  destruct (scan_all_fetched self upages rpages Hu Hr) as (r & Hok & Hus & Hrs).
  exists r. split; [exact Hok|]. rewrite Hus, Hrs. repeat split.
  - apply concat_names. intros u. apply user_entity_fields.
  - clear. induction rpages as [|p rest IH]; [reflexivity|].
    cbn [map concat]. rewrite !map_app, filter_app, IH, map_map.
    f_equal. rewrite <- filter_names.
    apply map_ext. intros ro. apply role_entity_fields.
  - apply Forall_pages. intros p. apply Forall_entities. intros u.
    split; apply user_entity_fields.
  - apply Forall_pages. intros p. apply Forall_entities. intros ro.
    split; apply role_entity_fields.
Qed.

Lemma scan_all_entities (self : IamClient) (r : review) :
  scan_all self = Ok r ->
  Forall entity_consistent (users r ++ roles r) ∧
  summary r =
    {| total_entities := length (users r) + length (roles r);
       total_users := length (users r);
       total_roles := length (roles r);
       critical_risk := count_level "CRITICAL" (users r ++ roles r);
       high_risk := count_level "HIGH" (users r ++ roles r);
       medium_risk := count_level "MEDIUM" (users r ++ roles r);
       low_risk := count_level "LOW" (users r ++ roles r) |}.
Proof.
  unfold scan_all, scan_users, scan_roles.
  destruct (scan_pages _ (list_users_pages self)) as [us|e] eqn:Hu;
    cbn [mbind result_bind]; [|discriminate].
  destruct (scan_pages _ (list_roles_pages self)) as [rs|e] eqn:Hro;
    cbn [mbind result_bind]; [|discriminate].
  intros [= <-]. cbn [users roles summary]. split; [|reflexivity].
  apply scan_pages_ok in Hu as (ui & _ & ->).
  apply scan_pages_ok in Hro as (ri & _ & ->).
  apply Forall_app. split.
  - apply Forall_pages. intros p. apply Forall_entities. intros u.
    apply user_entity_fields.
  - apply Forall_pages. intros p. apply Forall_entities. intros ro.
    apply role_entity_fields.
Qed.

Lemma consistent_level (e : entity) :
  entity_consistent e ->
  risk_level e ∈ ["CRITICAL"; "HIGH"; "MEDIUM"; "LOW"].
Proof.
  intros [Heq _].
  assert (risk_level e = fst (analyze_risk (attached_policies e) (inline_policies e)))
    as -> by (rewrite <- Heq; reflexivity).
  destruct (analyze_risk_level_cases (attached_policies e) (inline_policies e))
    as [[-> _]|[_ ->]].
  - left.
  - destruct (3 <=? _); [right; left|].
    destruct (0 <? _); [right; right; left|right; right; right; left].
Qed.

Lemma levels_partition (entities : list entity) :
  Forall (λ e, risk_level e ∈ ["CRITICAL"; "HIGH"; "MEDIUM"; "LOW"]) entities ->
  count_level "CRITICAL" entities + count_level "HIGH" entities
  + count_level "MEDIUM" entities + count_level "LOW" entities
  = length entities.
Proof.
  unfold count_level. induction 1 as [|e rest He _ IH]; [reflexivity|].
  rewrite !elem_of_cons, elem_of_nil in He.
  destruct He as [He|[He|[He|[He|[]]]]];
    repeat match goal with
    | |- context [filter ?P (e :: rest)] =>
        first [ rewrite (filter_cons_True P) by (rewrite He; reflexivity)
              | rewrite (filter_cons_False P) by (rewrite He; discriminate) ]
    end; cbn [length]; lia.
Qed.

(** X21.  The summary of a review adds up: the four risk counters add up
    to [total_entities], which is the number of users plus the number of
    roles reported, and every reported entity carries the level, the
    reasons and the policy count that [analyze_risk] gives for the policy
    lists reported with it. *)
Theorem review_summary_adds_up (self : IamClient) (r : review) :
  scan_all self = Ok r ->
  critical_risk (summary r) + high_risk (summary r)
  + medium_risk (summary r) + low_risk (summary r) = total_entities (summary r) ∧
  total_entities (summary r) = total_users (summary r) + total_roles (summary r) ∧
  total_users (summary r) = length (users r) ∧
  total_roles (summary r) = length (roles r) ∧
  Forall entity_consistent (users r ++ roles r).
Proof.
  intros Hok. destruct (scan_all_entities self r Hok) as [Hcons ->].
  cbn [critical_risk high_risk medium_risk low_risk total_entities total_users
       total_roles].
  split; [|repeat split; exact Hcons].
  rewrite levels_partition, length_app; [reflexivity|].
  eapply Forall_impl; [exact Hcons|]. exact consistent_level.
Qed.

(** X22.  An entity whose policies cannot be listed is reported as LOW: a
    user of a fetched page for whom both listing calls fail appears in the
    review with no policies, no reasons and level LOW, whatever is attached
    to it in the account. *)
Theorem unlistable_policies_read_as_low (self : IamClient) upages rpages u e1 e2 :
  list_users_pages self = map Ok upages ->
  list_roles_pages self = map Ok rpages ->
  u ∈ concat upages ->
  list_attached_user_policies self (UserName u) = Raise e1 ->
  list_user_policies self (UserName u) = Raise e2 ->
  ∃ r ent, scan_all self = Ok r ∧ ent ∈ users r ∧
    name ent = UserName u ∧ risk_level ent = "LOW" ∧ risk_reasons ent = [] ∧
    attached_policies ent = [] ∧ inline_policies ent = [] ∧
    total_policies ent = 0.
Proof.
  intros Hu Hr Hin Ha Hi.
  destruct (scan_all_fetched self upages rpages Hu Hr) as (r & Hok & Hus & _).
  exists r, (user_entity self u). split; [exact Hok|]. split.
  - rewrite Hus. apply list_elem_of_In, in_concat.
    apply list_elem_of_In, in_concat in Hin as (p & Hp & Hup).
    exists (map (user_entity self) p). split.
    + apply in_map_iff. exists p. split; [reflexivity|exact Hp].
    + apply in_map. exact Hup.
  - unfold user_entity, get_attached_policies, get_inline_policies.
    cbn [String.eqb Ascii.eqb Bool.eqb]. rewrite Ha, Hi.
    repeat split; reflexivity.
Qed.

Lemma risk_monotone_witness :
  ["ReadOnlyAccess"] `sublist_of` ["AmazonS3FullAccess"; "ReadOnlyAccess"] ∧
  rank (fst (analyze_risk ["ReadOnlyAccess"] []))
  <= rank (fst (analyze_risk ["AmazonS3FullAccess"; "ReadOnlyAccess"] ["inline-1"])).
Proof.
  assert (["ReadOnlyAccess"] `sublist_of` ["AmazonS3FullAccess"; "ReadOnlyAccess"])
    as Ha by (apply sublist_cons; reflexivity).
  split; [exact Ha|].
  apply (risk_monotone _ _ [] ["inline-1"] Ha). apply sublist_nil_l.
Defined.

Lemma high_needs_flagged_policy_witness :
  2 <= rank (fst (analyze_risk ["AdministratorAccess"] [])) ∧
  ∃ p, p ∈ ["AdministratorAccess"] ∧ flagged p.
Proof.
  assert (2 <= rank (fst (analyze_risk ["AdministratorAccess"] []))) as H
    by (vm_compute; lia).
  split; [exact H|]. exact (high_needs_flagged_policy _ _ H).
Defined.

Lemma review_lists_entities_witness :
  ∃ r, scan_all MoreSamples.iam_account = Ok r ∧
    map name (users r) = ["root-admin"; "dev"] ∧
    map name (roles r) = ["app"].
Proof.
  destruct (review_lists_entities MoreSamples.iam_account
              MoreSamples.iam_user_pages MoreSamples.iam_role_pages
              eq_refl eq_refl)
    as (r & Hok & Hu & Hr & _).
  exists r. split; [exact Hok|]. split; [exact Hu|exact Hr].
Defined.

Lemma review_summary_adds_up_witness :
  ∃ r, scan_all MoreSamples.iam_account = Ok r ∧
    critical_risk (summary r) + high_risk (summary r)
    + medium_risk (summary r) + low_risk (summary r) = total_entities (summary r).
Proof.
  eexists. 
  assert (scan_all MoreSamples.iam_account = Ok _) as Hok
    by (vm_compute; reflexivity).
  split; [exact Hok|].
  apply (review_summary_adds_up MoreSamples.iam_account _ Hok).
Defined.

Lemma unlistable_policies_read_as_low_witness :
  ∃ r ent, scan_all MoreSamples.iam_account = Ok r ∧ ent ∈ users r ∧
    name ent = "root-admin" ∧ risk_level ent = "LOW".
Proof.
  destruct (unlistable_policies_read_as_low MoreSamples.iam_account
              MoreSamples.iam_user_pages MoreSamples.iam_role_pages
              MoreSamples.root_admin
              (ClientError "Throttling") (ClientError "Throttling")
              eq_refl eq_refl ltac:(left) eq_refl eq_refl)
    as (r & ent & Hok & Hin & Hn & Hl & _).
  exists r, ent. auto.
Defined.

End IamReviewFacts.

(** ** The statistics endpoint *)

Module StatisticsFacts.
Import Database Statistics Terms ComplianceFramework.

Lemma sum_Z_cons (z : Z) (l : list Z) : sum_Z (z :: l) = (z + sum_Z l)%Z.
Proof.
  unfold sum_Z. cbn [fold_left].
  assert (∀ l a b, fold_left Z.add l (a + b)%Z = (a + fold_left Z.add l b)%Z) as H.
  { clear. induction l as [|x l IH]; intros a b; cbn [fold_left]; [reflexivity|].
    rewrite <- IH. f_equal. lia. }
  rewrite <- H. f_equal. lia.
Qed.

(** Counting a key adds one to the total, whether the key is new or not,
    and keeps the keys that are there, in place. *)
Lemma dict_incr_total (key : pyval) (d : list (pyval * Z)) :
  sum_Z (map snd (dict_incr key d)) = (sum_Z (map snd d) + 1)%Z.
Proof.
  induction d as [|[k n] rest IH]; cbn [dict_incr map snd].
  - reflexivity.
  - destruct (py_eq k key); cbn [map snd]; rewrite !sum_Z_cons, ?IH; lia.
Qed.

Lemma dict_incr_keys (key : pyval) (d : list (pyval * Z)) :
  map fst d `prefix_of` map fst (dict_incr key d).
Proof.
  induction d as [|[k n] rest IH]; cbn [dict_incr map fst].
  - apply prefix_nil.
  - destruct (py_eq k key); cbn [map fst]; [reflexivity|].
    apply prefix_cons. exact IH.
Qed.

Lemma count_rows_total (rows : list ScanResult.t) sc rt :
  let '(sc', rt') := fold_left count_row rows (sc, rt) in
  let n := Z.of_nat (length (filter (λ r, truthy (ScanResult.is_compliant r) = false) rows)) in
  sum_Z (map snd sc') = (sum_Z (map snd sc) + n)%Z ∧
  sum_Z (map snd rt') = (sum_Z (map snd rt) + n)%Z ∧
  map fst sc `prefix_of` map fst sc'.
Proof.
  revert sc rt. induction rows as [|r rest IH]; intros sc rt; cbn [fold_left].
  - cbn. split; [lia|]. split; [lia|reflexivity].
  - unfold count_row at 2.
    destruct (truthy (ScanResult.is_compliant r)) eqn:Ht; cbn [negb].
    + rewrite filter_cons_False by (rewrite Ht; discriminate). apply IH.
    + rewrite filter_cons_True by exact Ht.
      specialize (IH (dict_incr (ScanResult.severity r) sc)
                     (dict_incr (ScanResult.resource_type r) rt)).
      destruct (fold_left count_row rest _) as [sc' rt'].
      cbv zeta in IH |- *. rewrite !dict_incr_total in IH.
      destruct IH as (H1 & H2 & H3). cbn [length].
      split; [lia|]. split; [lia|].
      etransitivity; [apply dict_incr_keys|exact H3].
Qed.

(** X23.  The statistics count every violation: [total_violations] is the
    number of rows that are not compliant, whatever their severity is, the
    counters of the resource types add up to the same number, and the
    severity breakdown starts with CRITICAL, HIGH, MEDIUM and LOW even when
    no row has them. *)
Theorem statistics_count_every_violation (tb : Tables) :
  total_violations (get_statistics tb) = Z.of_nat (length (violation_rows tb)) ∧
  sum_Z (map snd (resource_type_breakdown (get_statistics tb)))
    = total_violations (get_statistics tb) ∧
  [PStr "CRITICAL"; PStr "HIGH"; PStr "MEDIUM"; PStr "LOW"]
    `prefix_of` map fst (severity_breakdown (get_statistics tb)).
Proof.
  unfold get_statistics, violation_rows. cbv zeta.
  pose proof (count_rows_total (scan_results tb)
    [(PStr "CRITICAL", 0%Z); (PStr "HIGH", 0%Z); (PStr "MEDIUM", 0%Z);
     (PStr "LOW", 0%Z)] []) as H.
  destruct (fold_left count_row (scan_results tb) _) as [sc rt].
  cbv zeta in H. destruct H as (H1 & H2 & H3).
  cbn [total_violations resource_type_breakdown severity_breakdown].
  rewrite H1, H2. split; [cbn; lia|]. split; [cbn; lia|exact H3].
Qed.

End StatisticsFacts.
